(** * QGIS-TUFLOW-Plugin: the retrying downloader and the SWMM process runner

    A shallow embedding of
    - [tuflow/ARR2016/downloader.py]        (module [Downloader]),
    - [tuflow/alg/swmm_run_inp_or_gpkg.py]  (module [SwmmRunInpOrGpkg]),
    - [tuflow/alg/swmm_run_inp.py]          (module [SwmmRunInp]),
    and the properties of the specification that concern them.

    Python objects are records, attribute assignment is a state update,
    exceptions are the [Raise] outcome of a small state-and-exception monad,
    and everything the code asks of Qt, requests, the child process or the
    file system is an explicit oracle argument. *)

From stdpp Require Import base gmap strings list.
From Stdlib Require Import ZArith Lia Strings.Byte Strings.Ascii.

(** ** Python exceptions and the outcome of a call *)

Inductive exn_class :=
  | IndexError | TypeError | UnicodeDecodeError | OSError | RequestException.

Record exn := Exn { exn_type : exn_class; exn_str : string }.

(** A call returns, raises, or (for the one [while True] loop of the
    repository, which is run on fuel) runs out of fuel. *)
Inductive outcome (A : Type) :=
  | Ret (a : A)
  | Raise (e : exn)
  | OutOfFuel.
Arguments Ret {A} a.
Arguments Raise {A} e.
Arguments OutOfFuel {A}.

(** The monad: a state [S] that survives an exception, as the attributes of
    a Python object and the world around it do. *)
Definition M (S A : Type) : Type := S -> outcome A * S.

Definition ret {S A} (a : A) : M S A := fun s => (Ret a, s).

Definition bind {S A B} (c : M S A) (k : A -> M S B) : M S B :=
  fun s =>
    match c s with
    | (Ret a, s') => k a s'
    | (Raise e, s') => (Raise e, s')
    | (OutOfFuel, s') => (OutOfFuel, s')
    end.

Definition raise {S A} (e : exn) : M S A := fun s => (Raise e, s).
Definition out_of_fuel {S A} : M S A := fun s => (OutOfFuel, s).
Definition modify {S} (f : S -> S) : M S unit := fun s => (Ret tt, f s).
Definition gets {S A} (f : S -> A) : M S A := fun s => (Ret (f s), s).

(** [try: c except Exception as e: h e] *)
Definition try_except {S A} (c : M S A) (h : exn -> M S A) : M S A :=
  fun s =>
    match c s with
    | (Raise e, s') => h e s'
    | r => r
    end.

Declare Scope py_scope.
Delimit Scope py_scope with py.
Notation "x <- c ;; k" := (bind c (fun x => k))
  (at level 100, c at next level, right associativity) : py_scope.
Notation "c ;; k" := (bind c (fun _ => k))
  (at level 100, right associativity) : py_scope.
Open Scope py_scope.

(** ** The Python string and bytes operations the code uses *)

Module Py.

(** [str.isspace] on one character (code points below 256). *)
Definition isspace (c : ascii) : bool :=
  let n := N_of_ascii c in
  ((9 <=? n) && (n <=? 13) || (28 <=? n) && (n <=? 32)
   || (n =? 133) || (n =? 160))%N.

Fixpoint lstrip (s : string) : string :=
  match s with
  | EmptyString => EmptyString
  | String c s' => if isspace c then lstrip s' else s
  end.

Definition rstrip (s : string) : string := String.rev (lstrip (String.rev s)).

Definition strip (s : string) : string := rstrip (lstrip s).

(** [str.upper], on the ASCII letters; other characters are kept. *)
Definition upper_char (c : ascii) : ascii :=
  let n := N_of_ascii c in
  if ((97 <=? n) && (n <=? 122))%N then ascii_of_N (n - 32) else c.

Fixpoint upper (s : string) : string :=
  match s with
  | EmptyString => EmptyString
  | String c s' => String (upper_char c) (upper s')
  end.

(** [s.startswith(p)] *)
Definition startswith (s p : string) : bool := String.prefix p s.

(** [p in s] on [str] *)
Fixpoint contains (p s : string) : bool :=
  String.prefix p s ||
  match s with
  | EmptyString => false
  | String _ s' => contains p s'
  end.

(** Truth value of a [str]: non-empty. *)
Definition truthy (s : string) : bool :=
  match s with EmptyString => false | _ => true end.

Fixpoint bytes_prefix (p b : list byte) : bool :=
  match p, b with
  | [], _ => true
  | _ :: _, [] => false
  | x :: p', y :: b' => Byte.eqb x y && bytes_prefix p' b'
  end.

(** [p in b] on [bytes] *)
Fixpoint bytes_contains (p b : list byte) : bool :=
  bytes_prefix p b ||
  match b with
  | [] => false
  | _ :: b' => bytes_contains p b'
  end.

Definition in_range (lo hi : N) (b : byte) : bool :=
  let n := Byte.to_N b in ((lo <=? n) && (n <=? hi))%N.

Definition continuation (b : byte) : bool := in_range 128 191 b.

(** Well-formed UTF-8, as the strict codec of [bytes.decode('utf-8')]
    accepts it: no overlong forms, no surrogates, nothing above U+10FFFF. *)
Fixpoint utf8_valid (bs : list byte) : bool :=
  match bs with
  | [] => true
  | b0 :: r0 =>
    if in_range 0 127 b0 then utf8_valid r0
    else
      match r0 with
      | [] => false
      | b1 :: r1 =>
        if in_range 194 223 b0 then continuation b1 && utf8_valid r1
        else
          match r1 with
          | [] => false
          | b2 :: r2 =>
            if in_range 224 239 b0 then
              (if in_range 224 224 b0 then in_range 160 191 b1
               else if in_range 237 237 b0 then in_range 128 159 b1
               else continuation b1)
              && continuation b2 && utf8_valid r2
            else
              match r2 with
              | [] => false
              | b3 :: r3 =>
                if in_range 240 244 b0 then
                  (if in_range 240 240 b0 then in_range 144 191 b1
                   else if in_range 244 244 b0 then in_range 128 143 b1
                   else continuation b1)
                  && continuation b2 && continuation b3 && utf8_valid r3
                else false
              end
          end
      end
  end.

(** [l[i]] on a list: a negative index counts from the end, an index out of
    range raises [IndexError]. *)
Definition index {A} (l : list A) (i : Z) : option A :=
  if (i <? 0)%Z then
    if (i + Z.of_nat (length l) <? 0)%Z then None
    else l !! Z.to_nat (i + Z.of_nat (length l))
  else l !! Z.to_nat i.

End Py.

(** ** tuflow/ARR2016/downloader.py *)

Module Downloader.

(** *** What the code sees of Qt and of requests *)

(** A finished [QNetworkReply]: [reply.attribute(HttpStatusCodeAttribute)]
    ([None] when no response was obtained), [reply.readAll()], the error
    description set on the reply (empty when none was set) and
    [reply.rawHeader(b'Content-Type')] (empty when the header is absent). *)
Record QNetworkReply := {
  attribute_status : option Z;
  readAll : list byte;
  device_error : string;
  rawHeader_content_type : list byte;
}.

(** [reply.errorString()], which is [QIODevice::errorString()]: the error
    description set on the device, or ["Unknown error"] when none was set. *)
Definition errorString (q : QNetworkReply) : string :=
  if Py.truthy (device_error q) then device_error q else "Unknown error".

(** [QNetworkRequest(QUrl(url))] with the raw headers set on it. *)
Record QNetworkRequest := {
  req_url : string;
  req_raw_headers : gmap string string;
}.

Definition setRawHeader (k v : string) (req : QNetworkRequest) : QNetworkRequest :=
  {| req_url := req_url req; req_raw_headers := <[k := v]> (req_raw_headers req) |}.

(** [r.content] of requests: [bytes], or [None] for a response without a
    body stream. *)
Inductive Content := ContentBytes (b : list byte) | ContentNone.

(** A [requests.Response]: [r.status_code], [r.text], [r.content] and
    [r.headers.get('content-type')]. *)
Record Response := {
  status_code : Z;
  text : string;
  content : Content;
  headers_get_content_type : option string;
}.

(** [r.ok]: [raise_for_status()] does not raise, that is, the status is not
    a 4xx or 5xx one. *)
Definition Response_ok (r : Response) : bool :=
  negb ((400 <=? status_code r)%Z && (status_code r <? 600)%Z).

(** *** The Downloader object *)

Inductive cls := ClsQGIS | ClsRequests.

(** [self.data]: [str] (kept as its UTF-8 encoding), [bytes], or [None]. *)
Inductive Data := DataNone | DataStr (utf8 : list byte) | DataBytes (b : list byte).

Record Downloader := {
  url : string;
  headers : list (string * string);   (* dict items, in insertion order *)
  data : Data;
  ret_code : option Z;
  error_string : string;
}.

(** The three names the module imports from qgis; [false] stands for the
    [None] the [except ImportError] branch leaves. *)
Record Imports := {
  QgsNetworkAccessManager : bool;
  QNetworkRequest_imported : bool;
  QUrl : bool;
}.

Definition has_qgis_libs (i : Imports) : bool :=
  if negb (QgsNetworkAccessManager i) || negb (QNetworkRequest_imported i) || negb (QUrl i)
  then false
  else true.

Definition __new__ (i : Imports) : cls :=
  if has_qgis_libs i then ClsQGIS else ClsRequests.

Definition __init__ (url : string) (headers : option (list (string * string))) : Downloader :=
  {| url := url;
     headers := match headers with None => [] | Some h => h end;
     data := DataNone;
     ret_code := None;
     error_string := "" |}.

Definition ok (d : Downloader) : bool :=
  match ret_code d with
  | Some c => (c =? 200)%Z
  | None => false
  end.

(** *** The world a download runs in

    Waits are whole seconds, as in the default [range(5, 30, 5)]; [sleep]
    is given no negative wait. *)

Inductive LogMsg :=
  | HttpGetFailed (code : option Z)     (* 'HTTP get failed with code: ..' *)
  | TryingAgain (t : N)                 (* 'Trying again in .. seconds...' *)
  | RetryAttempt (n : Z).               (* 'Retry attempt #..' *)

Inductive Event :=
  | EvGet (req : QNetworkRequest)       (* netman.get(req), until finished *)
  | EvSleep (t : N)                     (* sleep(t) *)
  | EvLog (m : LogMsg)                  (* logger.info(..) *)
  | EvCacheRemove (url : string)        (* ..cache().remove(QUrl(url)) *)
  | EvRequestsGet (url : string) (headers : list (string * string)).

Record State := {
  self : Downloader;
  qsettings : gmap string string;       (* QSettings() *)
  n_get : nat;                          (* replies received so far *)
  trace : list Event;                   (* oldest first *)
}.

Definition userAgent : string := "/qgis/networkAndProxy/userAgent".

Definition with_self (f : Downloader -> Downloader) (s : State) : State :=
  {| self := f (self s); qsettings := qsettings s; n_get := n_get s; trace := trace s |}.

Definition with_qsettings (f : gmap string string -> gmap string string) (s : State) : State :=
  {| self := self s; qsettings := f (qsettings s); n_get := n_get s; trace := trace s |}.

Definition emit (e : Event) : M State unit :=
  modify (fun s =>
    {| self := self s; qsettings := qsettings s; n_get := n_get s; trace := trace s ++ [e] |}).

Definition set_data (x : Data) : M State unit :=
  modify (with_self (fun d =>
    {| url := url d; headers := headers d; data := x;
       ret_code := ret_code d; error_string := error_string d |})).

Definition set_ret_code (c : option Z) : M State unit :=
  modify (with_self (fun d =>
    {| url := url d; headers := headers d; data := data d;
       ret_code := c; error_string := error_string d |})).

Definition set_error_string (e : string) : M State unit :=
  modify (with_self (fun d =>
    {| url := url d; headers := headers d; data := data d;
       ret_code := ret_code d; error_string := e |})).

Definition QSettings_contains (k : string) : M State bool :=
  gets (fun s => bool_decide (is_Some (qsettings s !! k))).

(** [QSettings().value(k)] of a key that is present. *)
Definition QSettings_value (k : string) : M State string :=
  gets (fun s => default "" (qsettings s !! k)).

Definition QSettings_setValue (k v : string) : M State unit :=
  modify (with_qsettings (insert k v)).

Definition QSettings_remove (k : string) : M State unit :=
  modify (with_qsettings (delete k)).

Definition sleep (t : N) : M State unit := emit (EvSleep t).
Definition logger_info (m : LogMsg) : M State unit := emit (EvLog m).

(** [data.decode('utf-8')] *)
Definition decode_utf8 {S} (b : list byte) : M S Data :=
  if Py.utf8_valid b then ret (DataStr b)
  else raise (Exn UnicodeDecodeError "'utf-8' codec can't decode bytes").

(** [retry_interval[try_count]] *)
Definition getitem {S A} (l : list A) (i : Z) : M S A :=
  match Py.index l i with
  | Some x => ret x
  | None => raise (Exn IndexError "list index out of range")
  end.

Definition zip_bytes : list byte := ["z"%byte; "i"%byte; "p"%byte].

(** *** DownloaderQGIS.download *)

Module DownloaderQGIS.

Definition type : string := "QGIS".

Section QGIS.

(** The network: the reply the event loop ends with for the [k]-th GET. *)
Variable net : nat -> QNetworkReply.

Definition netman_get (req : QNetworkRequest) : M State QNetworkReply :=
  fun s =>
    (Ret (net (n_get s)),
     {| self := self s; qsettings := qsettings s;
        n_get := S (n_get s); trace := trace s ++ [EvGet req] |}).

(** The loop over [self.headers.items()]. *)
Fixpoint set_headers (hs : list (string * string)) (req : QNetworkRequest)
    (old_user_agent : option string) : M State (QNetworkRequest * option string) :=
  match hs with
  | [] => ret (req, old_user_agent)
  | (k, v) :: hs' =>
    let req := setRawHeader k v req in
    if String.eqb k "User-Agent" then
      has <- QSettings_contains userAgent ;;
      old <- (if has : bool then
                 v0 <- QSettings_value userAgent ;; ret (Some v0)
               else ret old_user_agent) ;;
      QSettings_setValue userAgent v ;;
      set_headers hs' req old
    else set_headers hs' req old_user_agent
  end.

(** [if old_user_agent:], on [None] or a [str]. *)
Definition old_user_agent_truthy (o : option string) : bool :=
  match o with
  | Some v => Py.truthy v
  | None => false
  end.

Definition restore_user_agent (old_user_agent : option string) : M State unit :=
  if old_user_agent_truthy old_user_agent
  then QSettings_setValue userAgent (default "" old_user_agent)
  else QSettings_remove userAgent.

Section Loop.

Variable req : QNetworkRequest.
Variable old_user_agent : option string.
Variable retry_count : Z.
Variable retry_interval : list N.
Variable validator : option (list byte -> bool).

(** [validator is not None and not validator(data)] *)
Definition rejected (data : list byte) : bool :=
  match validator with
  | Some v => negb (v data)
  | None => false
  end.

(** The [while True] loop; [try_count] and [data] are the values of the
    local variables on entry to an iteration. *)
Fixpoint download_loop (fuel : nat) (try_count : Z) (data : list byte)
    : M State (QNetworkReply * list byte) :=
  match fuel with
  | O => out_of_fuel
  | S fuel' =>
    let try_count := (try_count + 1)%Z in
    reply <- netman_get req ;;
    restore_user_agent old_user_agent ;;
    set_ret_code (attribute_status reply) ;;
    code <- gets (fun s => ret_code (self s)) ;;
    let data := if bool_decide (code = Some 200%Z) then readAll reply else data in
    if negb (bool_decide (code = Some 200%Z)) then
      logger_info (HttpGetFailed code) ;;
      if (try_count <? retry_count)%Z then
        t <- getitem retry_interval try_count ;;
        logger_info (TryingAgain t) ;;
        sleep t ;;
        logger_info (RetryAttempt (try_count + 1)) ;;
        download_loop fuel' try_count data
      else
        set_error_string (errorString reply) ;;
        ret (reply, data)
    else if rejected data then
      if (try_count <? retry_count)%Z then
        t <- getitem retry_interval try_count ;;
        logger_info (TryingAgain t) ;;
        sleep t ;;
        logger_info (RetryAttempt (try_count + 1)) ;;
        u <- gets (fun s => url (self s)) ;;
        emit (EvCacheRemove u) ;;
        download_loop fuel' try_count data
      else
        set_ret_code None ;;
        set_error_string "Downloaded data is invalid or incomplete." ;;
        ret (reply, data)
    else ret (reply, data)
  end.

End Loop.

(** The loop leaves after at most [retry_count + 1] iterations; that much
    fuel is what [download] gives it. *)
Definition loop_fuel (retry_count : Z) : nat := S (Z.to_nat retry_count).

Definition download (retry_count : Z) (retry_interval : list N)
    (validator : option (list byte -> bool)) : M State unit :=
  let old_user_agent := None in
  u <- gets (fun s => url (self s)) ;;
  let req := {| req_url := u; req_raw_headers := ∅ |} in
  hs <- gets (fun s => headers (self s)) ;;
  rq <- set_headers hs req old_user_agent ;;
  let req := rq.1 in
  let old_user_agent := rq.2 in
  let try_count := (-1)%Z in
  let data := [] in
  rd <- download_loop req old_user_agent retry_count retry_interval validator
          (loop_fuel retry_count) try_count data ;;
  let reply := rd.1 in
  let data := rd.2 in
  err <- gets (fun s => error_string (self s)) ;;
  if Py.truthy err then ret tt
  else
    let content_type := rawHeader_content_type reply in
    if negb (Py.bytes_contains zip_bytes content_type) then
      x <- decode_utf8 data ;; set_data x
    else set_data (DataBytes data).

(** The defaults of the signature:
    [retry_count = 5, retry_interval = range(5, 30, 5), validator = None]. *)
Definition default_retry_count : Z := 5.
Definition default_retry_interval : list N := [5; 10; 15; 20; 25]%N.

End QGIS.

End DownloaderQGIS.

(** *** DownloaderRequests.download *)

Module DownloaderRequests.

Definition type : string := "Requests".

Section Requests.

(** What [requests.get(url, headers=headers)] does: a response, or an
    exception for a failure below HTTP. *)
Variable requests_get : string -> list (string * string) -> exn + Response.

Definition do_requests_get (u : string) (hs : list (string * string)) : M State Response :=
  emit (EvRequestsGet u hs) ;;
  match requests_get u hs with
  | inl e => raise e
  | inr r => ret r
  end.

(** ['zip' not in r.headers.get('content-type')] *)
Definition zip_not_in (ct : option string) : M State bool :=
  match ct with
  | Some c => ret (negb (Py.contains "zip" c))
  | None => raise (Exn TypeError "argument of type 'NoneType' is not iterable")
  end.

Definition data_of_content (c : Content) : Data :=
  match c with
  | ContentBytes b => DataBytes b
  | ContentNone => DataNone
  end.

Definition download : M State unit :=
  u <- gets (fun s => url (self s)) ;;
  hs <- gets (fun s => headers (self s)) ;;
  r <- do_requests_get u hs ;;
  set_ret_code (Some (status_code r)) ;;
  if negb (Response_ok r) then
    set_error_string (text r)
  else
    nz <- zip_not_in (headers_get_content_type r) ;;
    match nz, content r with
    | true, ContentBytes b => x <- decode_utf8 b ;; set_data x
    | _, c => set_data (data_of_content c)
    end.

End Requests.

End DownloaderRequests.

(** *** Calling [download] on an instance

    The arguments a caller supplies; [None] is an argument left out.
    [DownloaderQGIS.download] fills the ones left out with its defaults,
    [DownloaderRequests.download] has no parameter besides [self], so that
    a call supplying any raises [TypeError]. *)
Record Args := {
  arg_retry_count : option Z;
  arg_retry_interval : option (list N);
  arg_validator : option (option (list byte -> bool));
}.

Definition no_args : Args :=
  {| arg_retry_count := None; arg_retry_interval := None; arg_validator := None |}.

Definition supplies_any (a : Args) : bool :=
  bool_decide (is_Some (arg_retry_count a))
  || bool_decide (is_Some (arg_retry_interval a))
  || bool_decide (is_Some (arg_validator a)).

Definition call_download (net : nat -> QNetworkReply)
    (requests_get : string -> list (string * string) -> exn + Response)
    (c : cls) (a : Args) : M State unit :=
  match c with
  | ClsQGIS =>
    DownloaderQGIS.download net
      (default DownloaderQGIS.default_retry_count (arg_retry_count a))
      (default DownloaderQGIS.default_retry_interval (arg_retry_interval a))
      (default None (arg_validator a))
  | ClsRequests =>
    if supplies_any a
    then raise (Exn TypeError "download() got an unexpected keyword argument")
    else DownloaderRequests.download requests_get
  end.

(** The state right after [Downloader(url, headers)], in a world with the
    given settings. *)
Definition constructed (u : string) (hs : option (list (string * string)))
    (settings : gmap string string) : State :=
  {| self := __init__ u hs; qsettings := settings; n_get := 0; trace := [] |}.

End Downloader.

(** ** What the two SWMM algorithms see of their host

    The feedback object and the message log of QGIS, the child process and
    the report file. The sink methods ([pushInfo], [pushWarning],
    [reportError], [logMessage]), [isCanceled], [terminate] and [wait] are
    taken not to raise. [Path.exists] answers or raises: pathlib answers
    [False] where the file or a folder on the way to it is missing, and
    lets every other [OSError] of the [stat] call through (permission
    denied, name too long, ..). The [log_tag]
    argument, the same constant in every call, is left out of the events, as
    are the window-hiding creation flags of [Popen]. *)

Module Host.

Inductive Level := Info | Warning | Critical.

Inductive Message :=
  | Text (s : string)
  | RunException (e : exn)
      (* f'Exception thrown running SWMM: {str(e)}\n' and the traceback *)
  | ScanException (e : exn)
      (* f'Unable to scan report for warnings/errors: {str(e)}' *)
  | NonZeroExit (code : Z).
      (* f'SWMM exited with a non-zero exit code: {exit_code}' *)

Inductive Event :=
  | PushInfo (s : string)                      (* feedback.pushInfo *)
  | PushWarning (m : Message)                  (* feedback.pushWarning *)
  | ReportError (m : Message) (fatal : bool)   (* feedback.reportError *)
  | LogMessage (m : Message) (l : Level)       (* QgsMessageLog.logMessage *)
  | FeedbackIsCanceled (answer : bool)         (* feedback.isCanceled() *)
  | TaskIsCanceled (answer : bool)             (* task.isCanceled() *)
  | Popen (args : list string) (cwd : string)  (* subprocess.Popen(..) *)
  | Terminate                                  (* proc.terminate() *)
  | Wait                                       (* proc.wait() *)
  | PopenExit                                  (* leaving the with block *)
  | PathExists (p : string)                    (* Path(p).exists() *)
  | Open (p : string).                         (* open(p, 'r', ..) *)

(** A text stream read line by line: the lines it yields, then the
    exception the read after them raises, if any. *)
Record Stream := {
  lines : list string;
  failure : option exn;
}.

(** A child process: its merged output, and what [wait()] returns when the
    child was left alone ([None]) or terminated after [n] lines were read
    ([Some n]). *)
Record Process := {
  stdout : option Stream;
  wait : option nat -> Z;
}.

(** The value of a cancellation flag at the [k]-th time it is asked. *)
Record Cancellable := { isCanceled : nat -> bool }.

Record State := {
  trace : list Event;       (* oldest first *)
  feedback_polls : nat;
  task_polls : nat;
}.

Definition initial : State :=
  {| trace := []; feedback_polls := 0; task_polls := 0 |}.

Definition emit (e : Event) : M State unit :=
  modify (fun s =>
    {| trace := trace s ++ [e];
       feedback_polls := feedback_polls s; task_polls := task_polls s |}).

Definition feedback_isCanceled (f : Cancellable) : M State bool :=
  fun s =>
    let b := isCanceled f (feedback_polls s) in
    (Ret b,
     {| trace := trace s ++ [FeedbackIsCanceled b];
        feedback_polls := S (feedback_polls s); task_polls := task_polls s |}).

Definition task_isCanceled (t : Cancellable) : M State bool :=
  fun s =>
    let b := isCanceled t (task_polls s) in
    (Ret b,
     {| trace := trace s ++ [TaskIsCanceled b];
        feedback_polls := feedback_polls s; task_polls := S (task_polls s) |}).

(** [if feedback: c] *)
Definition when_feedback (feedback : option Cancellable) (c : M State unit) : M State unit :=
  match feedback with
  | Some _ => c
  | None => ret tt
  end.

(** The operating system and the file system. *)
Record OS := {
  popen : list string -> string -> exn + Process;
  path_exists : string -> exn + bool;      (* Path(p).exists() *)
  open_r : string -> exn + Stream;
  parent : string -> string;               (* str(Path(p).parent) *)
}.

Definition lift {A} (r : exn + A) : M State A :=
  match r with
  | inl e => raise e
  | inr a => ret a
  end.

End Host.

(** ** tuflow/alg/swmm_run_inp_or_gpkg.py *)

Module SwmmRunInpOrGpkg.
Import Host.

Section RunSWMMInp.

Variable os : OS.

Definition max_rpt_messages : nat := 10.

(** The [for line in rpt] loop of [_scan_report]; the result is
    [rpt_truncated]. *)
Fixpoint scan_lines (feedback : option Cancellable) (ls : list string)
    (fail : option exn) (rpt_message_count : nat) : M State bool :=
  match ls with
  | [] => match fail with Some e => raise e | None => ret false end
  | line :: rest =>
    let line_stripped := Py.strip line in
    if negb (Py.truthy line_stripped) then
      scan_lines feedback rest fail rpt_message_count
    else
      let line_upper := Py.upper line_stripped in
      if Py.startswith line_upper "ERROR" || Py.startswith line_upper "WARNING" then
        if (max_rpt_messages <=? rpt_message_count)%nat then ret true
        else
          when_feedback feedback (emit (PushWarning (Text line_stripped))) ;;
          emit (LogMessage (Text line_stripped) Warning) ;;
          scan_lines feedback rest fail (S rpt_message_count)
      else scan_lines feedback rest fail rpt_message_count
  end.

Definition _scan_report (report_file : string) (feedback : option Cancellable)
    : M State unit :=
  emit (PathExists report_file) ;;
  found <- lift (path_exists os report_file) ;;
  if negb found then ret tt
  else
    try_except
      (emit (Open report_file) ;;
       rpt <- lift (open_r os report_file) ;;
       rpt_truncated <- scan_lines feedback (lines rpt) (failure rpt) 0 ;;
       if rpt_truncated : bool then
         when_feedback feedback (emit (PushWarning (Text "..."))) ;;
         emit (LogMessage (Text "...") Warning)
       else ret tt)
      (fun e =>
         when_feedback feedback (emit (PushWarning (ScanException e))) ;;
         emit (LogMessage (ScanException e) Warning)).

(** The nested [is_canceled()]. *)
Definition is_canceled (feedback task : option Cancellable) : M State bool :=
  c <- match feedback with
       | Some f => feedback_isCanceled f
       | None => ret false
       end ;;
  if c : bool then ret true
  else
    c <- match task with
         | Some t => task_isCanceled t
         | None => ret false
         end ;;
    if c : bool then ret true else ret false.

(** The [for line in proc.stdout] loop; [n] lines were read before this
    iteration. The result says after how many lines [terminate()] was
    called, if it was. *)
Fixpoint read_stdout (feedback task : option Cancellable) (n : nat)
    (ls : list string) (fail : option exn) : M State (option nat) :=
  match ls with
  | [] => match fail with Some e => raise e | None => ret None end
  | line :: rest =>
    (if Py.truthy (Py.strip line) then
       when_feedback feedback (emit (PushInfo (Py.rstrip line))) ;;
       emit (LogMessage (Text (Py.rstrip line)) Info)
     else ret tt) ;;
    c <- is_canceled feedback task ;;
    if c : bool then emit Terminate ;; ret (Some (S n))
    else read_stdout feedback task (S n) rest fail
  end.

(** The [try] block: [with subprocess.Popen(..) as proc: ..]. Leaving the
    with block, by its end or by an exception, runs [Popen.__exit__]. *)
Definition subprocess_block (args : list string) (inp_file : string)
    (feedback task : option Cancellable) : M State Z :=
  emit (Popen args (parent os inp_file)) ;;
  proc <- lift (popen os args (parent os inp_file)) ;;
  try_except
    (terminated <- match stdout proc with
                   | Some out => read_stdout feedback task 0 (lines out) (failure out)
                   | None => ret None
                   end ;;
     emit Wait ;;
     let exit_code := wait proc terminated in
     emit PopenExit ;;
     ret exit_code)
    (fun e => emit PopenExit ;; raise e).

Definition _run_swmm_process (args : list string) (inp_file report_file : string)
    (feedback task : option Cancellable) : M State Z :=
  r <- try_except
         (exit_code <- subprocess_block args inp_file feedback task ;;
          ret (Some exit_code))
         (fun e =>
            when_feedback feedback (emit (ReportError (RunException e) false)) ;;
            emit (LogMessage (RunException e) Critical) ;;
            ret None) ;;
  match r with
  | None => ret 1%Z
  | Some exit_code =>
    _scan_report report_file feedback ;;
    ret exit_code
  end.

End RunSWMMInp.

End SwmmRunInpOrGpkg.

(** ** tuflow/alg/swmm_run_inp.py

    [RunSWMMInp.processAlgorithm] from the point where [args], [inp_file]
    and [report_file] are resolved: the child process is run and the report
    is scanned inline, always with [self.feedback]. *)

Module SwmmRunInp.
Import Host.

Section RunSWMMInp.

Variable os : OS.

Definition max_rpt_messages : nat := 10.

(** The [for line in proc.stdout] loop. *)
Fixpoint read_stdout (feedback : Cancellable) (n : nat)
    (ls : list string) (fail : option exn) : M State (option nat) :=
  match ls with
  | [] => match fail with Some e => raise e | None => ret None end
  | line :: rest =>
    (if Py.truthy (Py.strip line) then
       emit (PushInfo (Py.rstrip line)) ;;
       emit (LogMessage (Text (Py.rstrip line)) Info)
     else ret tt) ;;
    c <- feedback_isCanceled feedback ;;
    if c : bool then emit Terminate ;; ret (Some (S n))
    else read_stdout feedback (S n) rest fail
  end.

Definition subprocess_block (args : list string) (inp_file : string)
    (feedback : Cancellable) : M State Z :=
  emit (Popen args (parent os inp_file)) ;;
  proc <- lift (popen os args (parent os inp_file)) ;;
  try_except
    (terminated <- match stdout proc with
                   | Some out => read_stdout feedback 0 (lines out) (failure out)
                   | None => ret None
                   end ;;
     emit Wait ;;
     let exit_code := wait proc terminated in
     emit PopenExit ;;
     ret exit_code)
    (fun e => emit PopenExit ;; raise e).

(** The [for line in rpt] loop; the result is [rpt_truncated]. *)
Fixpoint scan_lines (ls : list string) (fail : option exn)
    (rpt_message_count : nat) : M State bool :=
  match ls with
  | [] => match fail with Some e => raise e | None => ret false end
  | line :: rest =>
    let line_stripped := Py.strip line in
    if negb (Py.truthy line_stripped) then
      scan_lines rest fail rpt_message_count
    else
      let line_upper := Py.upper line_stripped in
      if Py.contains "ERROR" line_upper || Py.contains "WARNING" line_upper then
        if (max_rpt_messages <=? rpt_message_count)%nat then ret true
        else
          emit (PushWarning (Text line_stripped)) ;;
          emit (LogMessage (Text line_stripped) Warning) ;;
          scan_lines rest fail (S rpt_message_count)
      else scan_lines rest fail rpt_message_count
  end.

(** [if Path(report_file).exists(): try: .. except Exception ..] *)
Definition processAlgorithm_scan (report_file : string) : M State unit :=
  emit (PathExists report_file) ;;
  found <- lift (path_exists os report_file) ;;
  if found : bool then
    try_except
      (emit (Open report_file) ;;
       rpt <- lift (open_r os report_file) ;;
       rpt_truncated <- scan_lines (lines rpt) (failure rpt) 0 ;;
       if rpt_truncated : bool then
         emit (PushWarning (Text "...")) ;;
         emit (LogMessage (Text "...") Warning)
       else ret tt)
      (fun e =>
         emit (PushWarning (ScanException e)) ;;
         emit (LogMessage (ScanException e) Warning))
  else ret tt.

Definition processAlgorithm_run (args : list string) (inp_file report_file : string)
    (feedback : Cancellable) : M State unit :=
  exit_code <- try_except
                 (subprocess_block args inp_file feedback)
                 (fun e =>
                    emit (ReportError (RunException e) false) ;;
                    emit (LogMessage (RunException e) Critical) ;;
                    ret 1%Z) ;;
  (if negb (exit_code =? 0)%Z then
     emit (ReportError (NonZeroExit exit_code) true) ;;
     emit (LogMessage (NonZeroExit exit_code) Critical)
   else ret tt) ;;
  processAlgorithm_scan report_file.

End RunSWMMInp.

End SwmmRunInp.

(** ** Vocabulary of the properties *)

(** The lines a report scan hands to its observer: what is logged at
    warning level. *)
Definition diagnostics (t : list Host.Event) : list Host.Message :=
  omap (fun e => match e with
                 | Host.LogMessage m Host.Warning => Some m
                 | _ => None
                 end) t.

(** The two observers of a run: the feedback object of the algorithm and
    the message log of QGIS. *)
Inductive Observer := Feedback | MessageLog.

(** The output lines a run hands to its observers, in order: what it pushes
    to the feedback object as info and what it logs at info level. *)
Definition delivered (t : list Host.Event) : list (Observer * string) :=
  omap (fun e => match e with
                 | Host.PushInfo s => Some (Feedback, s)
                 | Host.LogMessage (Host.Text s) Host.Info => Some (MessageLog, s)
                 | _ => None
                 end) t.

(** How a call that ends with the report scan ends: with [a] when the
    existence test of the report file answers, with the exception of the
    test when it raises. *)
Definition unless_exists_raises {A} (os : Host.OS) (report_file : string) (a : A)
    : outcome A :=
  match Host.path_exists os report_file with
  | inl e => Raise e
  | inr _ => Ret a
  end.

(** The two classifications of a report line. *)
Definition starts_with_keyword (line : string) : bool :=
  let u := Py.upper (Py.strip line) in
  Py.startswith u "ERROR" || Py.startswith u "WARNING".

Definition contains_keyword (line : string) : bool :=
  let u := Py.upper (Py.strip line) in
  Py.contains "ERROR" u || Py.contains "WARNING" u.

Definition nonblank (line : string) : bool := Py.truthy (Py.strip line).

(** What one diagnostic costs the observer: a warning on the feedback
    object when there is one, and a warning in the message log. *)
Definition report_warning (feedback : option Host.Cancellable) (m : Host.Message)
    : list Host.Event :=
  match feedback with
  | Some _ => [Host.PushWarning m]
  | None => []
  end ++ [Host.LogMessage m Host.Warning].

Definition add_events (s : Host.State) (evs : list Host.Event) : Host.State :=
  {| Host.trace := Host.trace s ++ evs;
     Host.feedback_polls := Host.feedback_polls s;
     Host.task_polls := Host.task_polls s |}.

(** A file system whose report file holds the given stream; no child
    process can be launched in it. *)
Definition os_with_report (rpt : Host.Stream) : Host.OS :=
  {| Host.popen := fun _ _ => inl (Exn OSError "no such executable");
     Host.path_exists := fun _ => inr true;
     Host.open_r := fun _ => inr rpt;
     Host.parent := fun p => p |}.

Definition text_file (ls : list string) : Host.Stream :=
  {| Host.lines := ls; Host.failure := None |}.

(** The diagnostics the two scans emit for a report file. *)
Definition scan_report_diagnostics (feedback : option Host.Cancellable)
    (rpt : Host.Stream) : list Host.Message :=
  diagnostics (Host.trace
    (SwmmRunInpOrGpkg._scan_report (os_with_report rpt) "model.rpt" feedback Host.initial).2).

Definition processAlgorithm_diagnostics (rpt : Host.Stream) : list Host.Message :=
  diagnostics (Host.trace
    (SwmmRunInp.processAlgorithm_scan (os_with_report rpt) "model.rpt" Host.initial).2).

(** What a scan shows of the diagnostic lines [diag] of a report: the
    first ten, trimmed. *)
Definition shown (diag : list string) : list Host.Message :=
  map (fun l => Host.Text (Py.strip l)) (take 10 diag).

Definition ellipsis : Host.Message := Host.Text "...".



(** Sample reports. *)
Definition numbered (prefix : string) (ids : list string) : list string :=
  map (fun i => prefix +:+ i +:+ ": see the manual ") ids.

Definition report_12 : list string :=
  ["  EPA STORM WATER MANAGEMENT MODEL"; ""]
  ++ numbered "  ERROR 2" ["01"; "03"; "05"; "07"; "09"; "11"; "13"; "17"; "19"; "21"; "23"; "25"]
  ++ ["  Analysis ended"].

Definition report_3 : list string :=
  ["  EPA STORM WATER MANAGEMENT MODEL"; ""]
  ++ numbered "  warning 0" ["1"; "2"; "4"]
  ++ ["  Analysis ended"].

(** The cancellation signal as [is_canceled()] sees it at its [k]-th call,
    while every earlier call answered no: the feedback flag or the task
    flag, whichever of the two objects there is. *)
Definition signal (feedback task : option Host.Cancellable) (k : nat) : bool :=
  match feedback with Some f => Host.isCanceled f k | None => false end
  || match task with Some t => Host.isCanceled t k | None => false end.

(** How often the signal was polled: the polls of the feedback object, or of
    the task when there is no feedback object. *)
Definition signal_polls (feedback task : option Host.Cancellable) (s : Host.State) : nat :=
  match feedback, task with
  | Some _, _ => Host.feedback_polls s
  | None, Some _ => Host.task_polls s
  | None, None => 0
  end.

(** How often the child was terminated. *)
Definition terminations (t : list Host.Event) : nat :=
  length (List.filter (fun e => match e with Host.Terminate => true | _ => false end) t).

(** Whether, and how often, the report scan was entered: it starts by asking
    whether the report file exists. *)
Definition scans (t : list Host.Event) : nat :=
  length (List.filter (fun e => match e with Host.PathExists _ => true | _ => false end) t).

(** The events of a report scan, after the question it starts with. *)
Definition scan_event (e : Host.Event) : bool :=
  match e with
  | Host.Open _ | Host.PushWarning _ | Host.LogMessage _ Host.Warning => true
  | _ => false
  end.

(** The events of the subprocess block and of its exception handler. *)
Definition run_event (e : Host.Event) : bool :=
  match e with
  | Host.PushInfo _ | Host.ReportError _ _
  | Host.LogMessage _ Host.Info | Host.LogMessage _ Host.Critical
  | Host.FeedbackIsCanceled _ | Host.TaskIsCanceled _
  | Host.Popen _ _ | Host.Terminate | Host.Wait | Host.PopenExit => true
  | _ => false
  end.

(** What the handler of [_run_swmm_process] reports for an exception. *)
Definition report_exception (feedback : option Host.Cancellable) (e : exn)
    : list Host.Event :=
  match feedback with
  | Some _ => [Host.ReportError (Host.RunException e) false]
  | None => []
  end ++ [Host.LogMessage (Host.RunException e) Host.Critical].

(** An operating system in which launching the child gives [r]. *)
Definition os_with_child (r : exn + Host.Process) (os : Host.OS) : Host.OS :=
  {| Host.popen := fun _ _ => r;
     Host.path_exists := Host.path_exists os;
     Host.open_r := Host.open_r os;
     Host.parent := Host.parent os |}.

(** What one output line of the child costs the observer. *)
Definition line_events (feedback : option Host.Cancellable) (line : string)
    : list Host.Event :=
  if nonblank line then
    match feedback with
    | Some _ => [Host.PushInfo (Py.rstrip line)]
    | None => []
    end ++ [Host.LogMessage (Host.Text (Py.rstrip line)) Host.Info]
  else [].

(** What the observers are to receive of the output lines [ls]: the
    non-blank ones, without their trailing white space, each handed to the
    feedback object, when there is one, and then to the message log. *)
Definition relayed (feedback : option Host.Cancellable) (ls : list string)
    : list (Observer * string) :=
  flat_map (fun l =>
              match feedback with
              | Some _ => [(Feedback, Py.rstrip l)]
              | None => []
              end ++ [(MessageLog, Py.rstrip l)])
    (List.filter nonblank ls).

(** The polls of the two cancellation flags in a trace. *)
Definition feedback_poll_count (t : list Host.Event) : nat :=
  length (List.filter (fun e => match e with Host.FeedbackIsCanceled _ => true | _ => false end) t).

Definition task_poll_count (t : list Host.Event) : nat :=
  length (List.filter (fun e => match e with Host.TaskIsCanceled _ => true | _ => false end) t).

(** A computation on the host state that ends (it returns or raises), adds
    to the trace only events of the kind [P], and advances the poll counters
    by the polls it adds to the trace. *)
Definition emits_only (P : Host.Event -> bool) {A} (c : M Host.State A) : Prop :=
  forall s, exists o s' evs,
    c s = (o, s') /\ o <> OutOfFuel
    /\ Host.trace s' = Host.trace s ++ evs /\ forallb P evs = true
    /\ Host.feedback_polls s' = (Host.feedback_polls s + feedback_poll_count evs)%nat
    /\ Host.task_polls s' = (Host.task_polls s + task_poll_count evs)%nat.

Definition poll_event (e : Host.Event) : bool :=
  match e with
  | Host.FeedbackIsCanceled _ | Host.TaskIsCanceled _ => true
  | _ => false
  end.

(** A sample run: a child that prints four lines, the second one blank,
    and exits with 0, or with 15 when terminated; a feedback object whose
    flag is found set from its second poll on. *)
Definition sample_child : Host.Process :=
  {| Host.stdout := Some {| Host.lines := ["A  "; "   "; "B"; "C"]; Host.failure := None |};
     Host.wait := fun terminated => match terminated with Some _ => 15%Z | None => 0%Z end |}.

Definition sample_os : Host.OS :=
  {| Host.popen := fun _ _ => inr sample_child;
     Host.path_exists := fun _ => inr false;
     Host.open_r := fun _ => inl (Exn OSError "No such file or directory");
     Host.parent := fun _ => "." |}.

Definition sample_feedback : Host.Cancellable :=
  {| Host.isCanceled := fun k => (1 <=? k)%nat |}.

(** An operating system in which the existence test of a path answers
    [r]. *)
Definition os_with_exists (r : exn + bool) (os : Host.OS) : Host.OS :=
  {| Host.popen := Host.popen os;
     Host.path_exists := fun _ => r;
     Host.open_r := Host.open_r os;
     Host.parent := Host.parent os |}.

(** The sample run with its report in a folder that may not be searched:
    [stat] fails with [EACCES], which [Path.exists] lets through. *)
Definition permission_denied : exn := Exn OSError "[Errno 13] Permission denied: 'm.rpt'".

Definition locked_os : Host.OS := os_with_exists (inl permission_denied) sample_os.

(** What a download does on the network, in order: GET attempts and the
    pauses between them. *)
Inductive Step := Attempt | Pause (t : N).

Definition steps (t : list Downloader.Event) : list Step :=
  omap (fun e => match e with
                 | Downloader.EvGet _ => Some Attempt
                 | Downloader.EvSleep t => Some (Pause t)
                 | _ => None
                 end) t.

(** One attempt, and one more after each of the given waits. *)
Definition retry_steps (waits : list N) : list Step :=
  Attempt :: flat_map (fun t => [Pause t; Attempt]) waits.

(** An attempt that the loop of [DownloaderQGIS.download] does not accept:
    the status is not 200, or the validator rejects the body. *)
Definition fails (validator : option (list byte -> bool)) (q : Downloader.QNetworkReply) : bool :=
  negb (bool_decide (Downloader.attribute_status q = Some 200%Z))
  || Downloader.DownloaderQGIS.rejected validator (Downloader.readAll q).

Definition invalid_or_incomplete : string := "Downloaded data is invalid or incomplete.".

(** Sample replies and a sample validator. *)
Definition reply_404 : Downloader.QNetworkReply :=
  {| Downloader.attribute_status := Some 404%Z;
     Downloader.readAll := [];
     Downloader.device_error := "server replied: Not Found";
     Downloader.rawHeader_content_type := [] |}.

Definition reply_200 (body content_type : list byte) : Downloader.QNetworkReply :=
  {| Downloader.attribute_status := Some 200%Z;
     Downloader.readAll := body;
     Downloader.device_error := "";
     Downloader.rawHeader_content_type := content_type |}.

Definition rejects_all : option (list byte -> bool) := Some (fun _ => false).

(** Headers without a [User-Agent] entry. *)
Definition no_user_agent (hs : list (string * string)) : bool :=
  forallb (fun kv => negb (String.eqb kv.1 "User-Agent")) hs.

(** A Downloader whose status code is 200 only with an empty error string. *)
Definition consistent (d : Downloader.Downloader) : Prop :=
  Downloader.ret_code d = Some 200%Z -> Downloader.error_string d = "".


Definition response_200 (body : list byte) (content_type : option string)
    : Downloader.Response :=
  {| Downloader.status_code := 200;
     Downloader.text := "";
     Downloader.content := Downloader.ContentBytes body;
     Downloader.headers_get_content_type := content_type |}.

(** A header value as the bytes Qt hands out. *)
Definition encode (s : string) : list byte :=
  map byte_of_ascii (String.list_ascii_of_string s).

(** The two transports were given the same HTTP response: same status,
    same body, same declared content type. *)
Definition same_response (q : Downloader.QNetworkReply) (r : Downloader.Response) : Prop :=
  Downloader.attribute_status q = Some (Downloader.status_code r)
  /\ Downloader.content r = Downloader.ContentBytes (Downloader.readAll q)
  /\ exists ct, Downloader.headers_get_content_type r = Some ct
               /\ Downloader.rawHeader_content_type q = encode ct.

(** A server that is unavailable once and then answers with JSON, as the
    two transports see it. *)
Definition reply_503 : Downloader.QNetworkReply :=
  {| Downloader.attribute_status := Some 503%Z;
     Downloader.readAll := [];
     Downloader.device_error := "server replied: Service Unavailable";
     Downloader.rawHeader_content_type := encode "text/html" |}.

Definition flaky_net (k : nat) : Downloader.QNetworkReply :=
  match k with
  | O => reply_503
  | _ => reply_200 ["{"%byte; "}"%byte] (encode "application/json")
  end.

Definition flaky_requests_get (_ : string) (_ : list (string * string))
    : exn + Downloader.Response :=
  inr {| Downloader.status_code := 503;
         Downloader.text := "<html>Service Unavailable</html>";
         Downloader.content := Downloader.ContentBytes [];
         Downloader.headers_get_content_type := Some "text/html" |}.

(** A server that answers 404 while a first download with the default
    policy makes its six attempts, and 200 with JSON from then on. *)
Definition recovering_net (k : nat) : Downloader.QNetworkReply :=
  if (k <? 6)%nat then reply_404
  else reply_200 ["{"%byte; "}"%byte] (encode "application/json").

Definition json_net (_ : nat) : Downloader.QNetworkReply :=
  reply_200 ["{"%byte; "}"%byte] (encode "application/json").

Definition json_requests_get (_ : string) (_ : list (string * string))
    : exn + Downloader.Response :=
  inr (response_200 ["{"%byte; "}"%byte] (Some "application/json")).

Definition policy (n : Z) (waits : list N) (v : option (list byte -> bool))
    : Downloader.Args :=
  {| Downloader.arg_retry_count := Some n;
     Downloader.arg_retry_interval := Some waits;
     Downloader.arg_validator := Some v |}.

(** How a download of an accepted body ends, and the data it stores: the
    bytes for a zip content type, else the text when the body decodes. *)
Definition fetched_outcome (zip : bool) (body : list byte) : outcome unit :=
  if zip then Ret tt
  else if Py.utf8_valid body then Ret tt
  else Raise (Exn UnicodeDecodeError "'utf-8' codec can't decode bytes").

Definition fetched_data (zip : bool) (body : list byte) : Downloader.Data :=
  if zip then Downloader.DataBytes body
  else if Py.utf8_valid body then Downloader.DataStr body
  else Downloader.DataNone.

(** The poll counters are in step with the lines read. *)
Definition in_step (feedback task : option Host.Cancellable) (s : Host.State) (n : nat) : Prop :=
  (is_Some feedback -> Host.feedback_polls s = n)
  /\ (is_Some task -> Host.task_polls s = n).

(** ** More vocabulary for the downloader *)

(** The cache entries a download invalidated, in order. *)
Definition cache_removals (t : list Downloader.Event) : list string :=
  omap (fun e => match e with
                 | Downloader.EvCacheRemove u => Some u
                 | _ => None
                 end) t.

(** The requests a download put on the network, in order. *)
Definition requests_sent (t : list Downloader.Event) : list Downloader.QNetworkRequest :=
  omap (fun e => match e with
                 | Downloader.EvGet req => Some req
                 | _ => None
                 end) t.

(** Among the [d] replies from the [g]-th on, those with status 200. *)
Fixpoint count_200 (net : nat -> Downloader.QNetworkReply) (g d : nat) : nat :=
  match d with
  | O => O
  | S d' =>
    ((if bool_decide (Downloader.attribute_status (net g) = Some 200%Z) then 1 else 0)
     + count_200 net (S g) d')%nat
  end.

(** The request [DownloaderQGIS.download] builds from the url and the
    headers. *)
Definition request_of (u : string) (hs : list (string * string))
    : Downloader.QNetworkRequest :=
  foldl (fun req kv => Downloader.setRawHeader kv.1 kv.2 req)
    {| Downloader.req_url := u; Downloader.req_raw_headers := ∅ |} hs.

(** How a download ends whose last reply is [q], after the loop kept
    [body] as its data: as an accepted fetch when the reply is accepted,
    else by returning the failure. *)
Definition final_outcome (validator : option (list byte -> bool))
    (q : Downloader.QNetworkReply) : outcome unit :=
  if fails validator q then Ret tt
  else fetched_outcome
         (Py.bytes_contains Downloader.zip_bytes (Downloader.rawHeader_content_type q))
         (Downloader.readAll q).

Definition final_data (validator : option (list byte -> bool))
    (q : Downloader.QNetworkReply) : Downloader.Data :=
  if fails validator q then Downloader.DataNone
  else fetched_data
         (Py.bytes_contains Downloader.zip_bytes (Downloader.rawHeader_content_type q))
         (Downloader.readAll q).

Definition final_ret_code (validator : option (list byte -> bool))
    (q : Downloader.QNetworkReply) : option Z :=
  if bool_decide (Downloader.attribute_status q = Some 200%Z) then
    if fails validator q then None else Some 200%Z
  else Downloader.attribute_status q.

Definition final_error_string (validator : option (list byte -> bool))
    (q : Downloader.QNetworkReply) : string :=
  if bool_decide (Downloader.attribute_status q = Some 200%Z) then
    if fails validator q then invalid_or_incomplete else ""
  else Downloader.errorString q.




Definition refused_requests_get (_ : string) (_ : list (string * string))
    : exn + Downloader.Response :=
  inl (Exn RequestException "Connection refused").


(** The requests on the network are copies of one request, one for each
    reply received. *)
Definition one_request (req : Downloader.QNetworkRequest) (s : Downloader.State) : Prop :=
  requests_sent (Downloader.trace s) = replicate (Downloader.n_get s) req.

(** ** tuflow/alg/swmm_run_inp_or_gpkg.py: the run in the foreground

    [RunSWMMInp.processAlgorithm] of swmm_run_inp_or_gpkg.py from the call
    of [_run_swmm_process] on, when [RUN_AS_TASK] is off: the exit code is
    looked at after the run, scan included. *)

Module SwmmRunInpOrGpkgForeground.
Import Host.

Section RunSWMMInp.

Variable os : OS.

Definition processAlgorithm_run (args : list string) (inp_file report_file : string)
    (feedback : Cancellable) : M State unit :=
  exit_code <- SwmmRunInpOrGpkg._run_swmm_process os args inp_file report_file
                 (Some feedback) None ;;
  if negb (exit_code =? 0)%Z then
    emit (ReportError (NonZeroExit exit_code) true) ;;
    emit (LogMessage (NonZeroExit exit_code) Critical)
  else ret tt.

End RunSWMMInp.

End SwmmRunInpOrGpkgForeground.

(** What both algorithms report for an exit code. *)
Definition non_zero_exit (code : Z) : list Host.Event :=
  if (code =? 0)%Z then []
  else [Host.ReportError (Host.NonZeroExit code) true;
        Host.LogMessage (Host.NonZeroExit code) Host.Critical].

(** ** [RunSWMMInp._find_runswmm_exe]

    The method is the same text in swmm_run_inp.py and in
    swmm_run_inp_or_gpkg.py. A path is kept as its [str]; what the code asks
    of the environment and of the file system are the fields of [Files]:
    [os.environ.get], [Path(root).glob] (which may raise), the [/] of
    pathlib and [Path.exists] (taken not to raise). Characters are code
    points below 256, digit runs are taken to be within the length [int]
    accepts. *)

From Stdlib Require Import Sorting.Sorted.

Module FindExe.

(** [str.lower] (code points below 256). *)
Definition lower_char (c : ascii) : ascii :=
  let n := N_of_ascii c in
  if ((65 <=? n) && (n <=? 90) || (192 <=? n) && (n <=? 222) && negb (n =? 215))%N
  then ascii_of_N (n + 32) else c.

Fixpoint lower (s : string) : string :=
  match s with
  | EmptyString => EmptyString
  | String c s' => String (lower_char c) (lower s')
  end.

(** [\d] on one character. *)
Definition isdigit (c : ascii) : bool :=
  let n := N_of_ascii c in ((48 <=? n) && (n <=? 57))%N.

(** [int(x)] on a run of digits, read from the left on top of [acc]. *)
Fixpoint int_from (acc : N) (x : string) : N :=
  match x with
  | EmptyString => acc
  | String c x' => int_from (10 * acc + (N_of_ascii c - 48)) x'
  end.

Definition int (x : string) : N := int_from 0 x.

(** What a greedy [\d+] takes at the start of [s], and what follows it. *)
Fixpoint digits (s : string) : string * string :=
  match s with
  | EmptyString => (EmptyString, EmptyString)
  | String c s' =>
    if isdigit c then (String c (digits s').1, (digits s').2)
    else (EmptyString, s)
  end.

(** A match of [(\d+)\.(\d+)\.(\d+)] that starts at the start of [s]: its
    three groups. A shorter first or second group is followed by a digit,
    not by the dot, so that backtracking finds nothing more. *)
Definition match_here (s : string) : option (string * string * string) :=
  let g1 := digits s in
  if negb (Py.truthy g1.1) then None
  else
    match g1.2 with
    | String "."%char s2 =>
      let g2 := digits s2 in
      if negb (Py.truthy g2.1) then None
      else
        match g2.2 with
        | String "."%char s3 =>
          let g3 := digits s3 in
          if negb (Py.truthy g3.1) then None
          else Some (g1.1, g2.1, g3.1)
        | _ => None
        end
    | _ => None
    end.

(** [re.search(r'(\d+)\.(\d+)\.(\d+)', s)]: the leftmost match. *)
Fixpoint re_search (s : string) : option (string * string * string) :=
  match match_here s with
  | Some groups => Some groups
  | None =>
    match s with
    | EmptyString => None
    | String _ s' => re_search s'
    end
  end.

Definition version_key (path : string) : N * N * N :=
  match re_search path with
  | Some (x1, x2, x3) => (int x1, int x2, int x3)
  | None => (0, 0, 0)%N
  end.

(** [<] on the sort keys: tuples compare by their first differing items,
    strings by code points. *)
Definition version_lt (v w : N * N * N) : bool :=
  match v, w with
  | (a, b, c), (a', b', c') =>
    if negb (a =? a')%N then (a <? a')%N
    else if negb (b =? b')%N then (b <? b')%N
    else (c <? c')%N
  end.

Definition version_eqb (v w : N * N * N) : bool :=
  match v, w with
  | (a, b, c), (a', b', c') => (a =? a')%N && (b =? b')%N && (c =? c')%N
  end.

Definition key_lt (k1 k2 : (N * N * N) * string) : bool :=
  if negb (version_eqb k1.1 k2.1) then version_lt k1.1 k2.1
  else String.ltb k1.2 k2.2.

(** [list.sort(key=..)]: a stable sort that compares keys with [<]. *)
Fixpoint insert_sorted {A K} (lt : K -> K -> bool) (key : A -> K) (x : A) (l : list A)
    : list A :=
  match l with
  | [] => [x]
  | y :: l' =>
    if lt (key y) (key x) then y :: insert_sorted lt key x l'
    else x :: y :: l'
  end.

Definition sort {A K} (lt : K -> K -> bool) (key : A -> K) (l : list A) : list A :=
  foldr (insert_sorted lt key) [] l.

Record Files := {
  environ_get : string -> option string;
  glob : string -> string -> exn + list string;
  joinpath : string -> string -> string;
  exists_ : string -> bool;
}.

Section RunSWMMInp.

Variable fs : Files.

(** [for swmm_dir in swmm_dirs: ..] *)
Fixpoint scan_dirs (swmm_dirs candidates : list string) : list string :=
  match swmm_dirs with
  | [] => candidates
  | swmm_dir :: rest =>
    let exe_path := joinpath fs swmm_dir "runswmm.exe" in
    if exists_ fs exe_path then scan_dirs rest (candidates ++ [exe_path])
    else scan_dirs rest candidates
  end.

(** [for root in roots: ..] *)
Fixpoint scan_roots (roots candidates : list string) : list string :=
  match roots with
  | [] => candidates
  | root :: rest =>
    match glob fs root "EPA SWMM*" with
    | inl _ => scan_roots rest candidates
    | inr swmm_dirs => scan_roots rest (scan_dirs swmm_dirs candidates)
    end
  end.

Definition program_files : list (option string) :=
  [environ_get fs "ProgramFiles"; environ_get fs "ProgramFiles(x86)"].

(** [[Path(p) for p in program_files if p]] *)
Definition roots : list string :=
  omap (fun p => match p with
                 | Some p' => if Py.truthy p' then Some p' else None
                 | None => None
                 end) program_files.

Definition sort_key (p : string) : (N * N * N) * string := (version_key p, lower p).

Definition _find_runswmm_exe : option string :=
  let candidates := scan_roots roots [] in
  match candidates with
  | [] => None
  | _ => last (sort key_lt sort_key candidates)
  end.

End RunSWMMInp.

End FindExe.

(** The environment variables that name the folders of installed
    programs. *)
Definition program_folder (var : string) : Prop :=
  var = "ProgramFiles" \/ var = "ProgramFiles(x86)".

(** An install of SWMM: [runswmm.exe] in a directory that matches
    [EPA SWMM*] in the listing of a program folder, the value of one of the
    two variables when it is set and not empty. *)
Definition installed (fs : FindExe.Files) (exe_path : string) : Prop :=
  exists var root swmm_dirs swmm_dir,
    program_folder var
    /\ FindExe.environ_get fs var = Some root
    /\ root <> ""
    /\ FindExe.glob fs root "EPA SWMM*" = inr swmm_dirs
    /\ swmm_dir ∈ swmm_dirs
    /\ exe_path = FindExe.joinpath fs swmm_dir "runswmm.exe"
    /\ FindExe.exists_ fs exe_path = true.

(** A string of decimal digits. *)
Definition all_digits (s : string) : bool :=
  forallb FindExe.isdigit (String.list_ascii_of_string s).

Definition no_dot (s : string) : bool :=
  forallb (fun c => negb (Ascii.eqb c "."%char)) (String.list_ascii_of_string s).

Definition ends_with_digit (s : string) : bool :=
  match last (String.list_ascii_of_string s) with
  | Some c => FindExe.isdigit c
  | None => false
  end.

Definition starts_with_digit (s : string) : bool :=
  match s with
  | String c _ => FindExe.isdigit c
  | EmptyString => false
  end.

(** A machine with two installs under the first root and one, without a
    version in its name, under the second. *)
Definition sample_files : FindExe.Files :=
  {| FindExe.environ_get := fun k =>
       if String.eqb k "ProgramFiles" then Some "C:\Program Files"
       else if String.eqb k "ProgramFiles(x86)" then Some "C:\Program Files (x86)"
       else None;
     FindExe.glob := fun root _ =>
       if String.eqb root "C:\Program Files" then
         inr ["C:\Program Files\EPA SWMM 5.10.0"; "C:\Program Files\EPA SWMM 5.9.12";
              "C:\Program Files\EPA SWMM 5.2.4 (64-bit)"]
       else inr ["C:\Program Files (x86)\EPA SWMM"];
     FindExe.joinpath := fun d f => d +:+ "\" +:+ f;
     FindExe.exists_ := fun p =>
       negb (String.eqb p "C:\Program Files\EPA SWMM 5.2.4 (64-bit)\runswmm.exe") |}.

(** ** [RunSWMMInp._apply_date_overrides] of swmm_run_inp_or_gpkg.py

    The file is seen through two oracles: what
    [open(inp_file, 'r', ..).read().splitlines(True)] gives, the lines with
    their ends kept, or the exception of the [try] block; and whether
    [open(inp_file, 'w', ..)] with [writelines(lines)] raises.
    [QgsMessageLog.logMessage] is taken not to raise. On code points below
    256 [str.upper] differs from [Py.upper] only where it gives a string that
    is none of the keywords compared with here. *)

Module DateOverrides.

Definition LF : ascii := "010"%char.
Definition CR : ascii := "013"%char.
Definition TAB : ascii := "009"%char.

Definition lf : string := String LF EmptyString.
Definition crlf : string := String CR (String LF EmptyString).
Definition tab : string := String TAB EmptyString.

(** [s.endswith(suffix)] *)
Definition endswith (s suffix : string) : bool :=
  String.prefix (String.rev suffix) (String.rev s).

(** [s.split()]: the words between runs of white space; [word] is the word
    being read, if any. *)
Fixpoint split_from (word : option string) (s : string) : list string :=
  match s with
  | EmptyString => match word with Some w => [w] | None => [] end
  | String c s' =>
    if Py.isspace c then
      match word with
      | Some w => w :: split_from None s'
      | None => split_from None s'
      end
    else split_from (Some (default EmptyString word +:+ String c EmptyString)) s'
  end.

Definition split (s : string) : list string := split_from None s.

(** [l.insert(i, x)] for [i >= 0]: past the end it appends. *)
Definition list_insert {A} (i : nat) (x : A) (l : list A) : list A :=
  take i l ++ x :: drop i l.

Inductive Message :=
  | UnableToRead (e : exn)      (* f'Unable to read inp for date overrides: {e}' *)
  | UnableToWrite (e : exn).    (* f'Unable to write inp date overrides: {e}' *)

Inductive Event :=
  | Read (inp_file : string)                          (* open(.., 'r', ..) and read() *)
  | Writelines (inp_file : string) (lines : list string)  (* open(.., 'w', ..), writelines *)
  | LogWarning (m : Message).                         (* logMessage(.., level=Qgis.Warning) *)

Record Files := {
  read_splitlines : string -> exn + list string;
  writelines : string -> list string -> exn + unit;
}.

Definition State := list Event.

Definition emit (e : Event) : M State unit := modify (fun t => t ++ [e]).

(** The first loop: ['\r\n'] when a line ends with it. *)
Fixpoint detect_newline (lines : list string) : string :=
  match lines with
  | [] => lf
  | line :: rest => if endswith line crlf then crlf else detect_newline rest
  end.

(** The second loop, from line [i] on: [(section_start, section_end)]. *)
Fixpoint find_section (lines : list string) (i : nat) (section_start : option nat)
    : option nat * option nat :=
  match lines with
  | [] => (section_start, None)
  | line :: rest =>
    let text := Py.strip line in
    if String.eqb (Py.upper text) "[OPTIONS]" then find_section rest (S i) (Some i)
    else if bool_decide (is_Some section_start)
            && Py.startswith text "[" && endswith text "]"
    then (section_start, Some i)
    else find_section rest (S i) section_start
  end.

Definition key_to_value (start_date start_time end_date end_time : string)
    : list (string * string) :=
  (if Py.truthy start_date then [("START_DATE", start_date)] else [])
  ++ (if Py.truthy start_time then [("START_TIME", start_time)] else [])
  ++ (if Py.truthy end_date then [("END_DATE", end_date)] else [])
  ++ (if Py.truthy end_time then [("END_TIME", end_time)] else []).

(** [for i in range(i, i + n): ..], filling [option_line_index]. *)
Fixpoint index_options (lines : list string) (i n : nat)
    (option_line_index : gmap string nat) : M State (gmap string nat) :=
  match n with
  | O => ret option_line_index
  | S n' =>
    line <- Downloader.getitem lines (Z.of_nat i) ;;
    let text := Py.strip line in
    if negb (Py.truthy text) || Py.startswith text ";" then
      index_options lines (S i) n' option_line_index
    else
      let parts := split text in
      match parts with
      | [] => index_options lines (S i) n' option_line_index
      | part0 :: _ =>
        index_options lines (S i) n' (<[Py.upper part0 := i]> option_line_index)
      end
  end.

Definition _format_option_line (newline key value : string)
    (existing_line : option string) : string :=
  match existing_line with
  | None => key +:+ "    " +:+ value +:+ newline
  | Some existing_line =>
    let leading :=
      String.substring 0
        (String.length existing_line - String.length (Py.lstrip existing_line))
        existing_line in
    let sep := if Py.contains tab existing_line then tab else "    " in
    leading +:+ key +:+ sep +:+ value +:+ newline
  end.

(** [for key, value in key_to_value.items(): ..] *)
Fixpoint apply_overrides (newline : string) (option_line_index : gmap string nat)
    (key_to_value : list (string * string)) (lines : list string) (section_end : nat)
    : M State (list string) :=
  match key_to_value with
  | [] => ret lines
  | (key, value) :: rest =>
    match option_line_index !! key with
    | Some idx =>
      existing_line <- Downloader.getitem lines (Z.of_nat idx) ;;
      apply_overrides newline option_line_index rest
        (<[idx := _format_option_line newline key value (Some existing_line)]> lines)
        section_end
    | None =>
      apply_overrides newline option_line_index rest
        (list_insert section_end (_format_option_line newline key value None) lines)
        (S section_end)
    end
  end.

Section RunSWMMInp.

Variable fs : Files.

Definition _apply_date_overrides (inp_file start_date start_time end_date end_time : string)
    : M State unit :=
  emit (Read inp_file) ;;
  match read_splitlines fs inp_file with
  | inl e => emit (LogWarning (UnableToRead e))
  | inr lines =>
    let newline := detect_newline lines in
    let found := find_section lines 0 None in
    let located :=
      match found.1 with
      | None => (lines ++ ["[OPTIONS]" +:+ newline], length lines, S (length lines))
      | Some section_start =>
        (lines, section_start, default (length lines) found.2)
      end in
    let lines := located.1.1 in
    let section_start := located.1.2 in
    let section_end := located.2 in
    let key_to_value := key_to_value start_date start_time end_date end_time in
    option_line_index <- index_options lines (S section_start)
                           (section_end - S section_start) ∅ ;;
    lines <- apply_overrides newline option_line_index key_to_value lines section_end ;;
    emit (Writelines inp_file lines) ;;
    match writelines fs inp_file lines with
    | inl e => emit (LogWarning (UnableToWrite e))
    | inr _ => ret tt
    end
  end.

End RunSWMMInp.

End DateOverrides.

(** A line that opens the options section, and one that opens any
    section. *)
Definition is_options (line : string) : bool :=
  String.eqb (Py.upper (Py.strip line)) "[OPTIONS]".

Definition is_header (line : string) : bool :=
  Py.startswith (Py.strip line) "[" && DateOverrides.endswith (Py.strip line) "]".

(** The option a line of the section sets: its first word in upper case;
    none for a blank line or a comment. *)
Definition option_key (line : string) : option string :=
  let text := Py.strip line in
  if negb (Py.truthy text) || Py.startswith text ";" then None
  else head (Py.upper <$> DateOverrides.split text).

(** The place of the last line of [body] that sets [key]. *)
Fixpoint last_pos (key : string) (body : list string) : option nat :=
  match body with
  | [] => None
  | line :: rest =>
    match last_pos key rest with
    | Some j => Some (S j)
    | None => if bool_decide (option_key line = Some key) then Some 0%nat else None
    end
  end.

(** The value supplied for a key. *)
Fixpoint supplied (key : string) (key_to_value : list (string * string)) : option string :=
  match key_to_value with
  | [] => None
  | (k, v) :: rest => if String.eqb k key then Some v else supplied key rest
  end.

(** What becomes of line [j] of the section: the last line that sets an
    option with a supplied value is written anew, any other line is kept. *)
Definition override_line (newline : string) (key_to_value : list (string * string))
    (body : list string) (j : nat) (line : string) : string :=
  match option_key line with
  | Some key =>
    match supplied key key_to_value with
    | Some value =>
      if bool_decide (last_pos key body = Some j)
      then DateOverrides._format_option_line newline key value (Some line)
      else line
    | None => line
    end
  | None => line
  end.

(** The lines added for the supplied options that the section does not
    set. *)
Definition added_lines (newline : string) (key_to_value : list (string * string))
    (body : list string) : list string :=
  omap (fun kv => match last_pos kv.1 body with
                  | Some _ => None
                  | None => Some (DateOverrides._format_option_line newline kv.1 kv.2 None)
                  end) key_to_value.

(** A sample input file. *)
Definition sample_inp : list string :=
  let nl := DateOverrides.lf in
  ["[TITLE]" +:+ nl;
   "[OPTIONS]" +:+ nl;
   "FLOW_UNITS           CMS" +:+ nl;
   "  start_date" +:+ DateOverrides.tab +:+ "01/01/2000" +:+ nl;
   ";;END_DATE 01/02/2000" +:+ nl;
   nl;
   "[RAINGAGES]" +:+ nl;
   "RG1 INTENSITY 0:05" +:+ nl].

(** The index the third loop builds from the lines [body] of the section,
    the first of them being line [i] of the file. *)
Fixpoint index_body (body : list string) (i : nat) (option_line_index : gmap string nat)
    : gmap string nat :=
  match body with
  | [] => option_line_index
  | line :: rest =>
    index_body rest (S i)
      match option_key line with
      | Some key => <[key := i]> option_line_index
      | None => option_line_index
      end
  end.

(** The line end the overrides are written with. *)
Definition newline_of (lines : list string) : string :=
  if existsb (fun line => DateOverrides.endswith line DateOverrides.crlf) lines
  then DateOverrides.crlf else DateOverrides.lf.

(** A file system in which the input file holds the given lines and can be
    written. *)
Definition inp_with (lines : list string) : DateOverrides.Files :=
  {| DateOverrides.read_splitlines := fun _ => inr lines;
     DateOverrides.writelines := fun _ _ => inr tt |}.

(** A string of white space only. *)
Definition all_space (s : string) : bool :=
  forallb Py.isspace (String.list_ascii_of_string s).

Definition starts_with_space (s : string) : bool :=
  match s with
  | String c _ => Py.isspace c
  | EmptyString => false
  end.

(** ** [RunSWMMInp.processAlgorithm] of swmm_run_inp_or_gpkg.py, up to the
    ['Running SWMM'] message

    The part of the method before the child is run: the input is checked
    and converted or copied, the executable is looked for, the names of the
    report and output files are made, their folders created and the dates
    written into the input file. The parameters are the values
    [parameterAsFile] gives and the four strings the date parameters are
    formatted to (empty for a date that is not valid). [gis_to_swmm] is not
    part of the files at hand and, like the pathlib arithmetic of
    [_resolve_output_inp_file] and [_copy_inp_if_needed], it is an oracle
    that returns or raises; what it tells the feedback object is not seen.
    [Path.exists], [Path.suffix], [with_suffix] and [shutil.which] are taken
    not to raise, [reportError] and [pushInfo] neither: a fatal error that
    is reported does not end the method. *)

Module SwmmRunInpOrGpkgPrepare.

(** What the method can end with besides a result: an exception its callees
    raised, or an unbound local variable. *)
Inductive error :=
  | Exception (e : exn)
  | UnboundLocalError (name : string)
  | NoFuel.

Inductive Message :=
  | InputDoesNotExist (input_file : string)   (* 'SWMM input file does not exist: ..' *)
  | ConversionException (e : error)   (* 'Exception thrown converting GeoPackage to SWMM: ..' *)
  | UnsupportedInputType (suffix : string)    (* 'Unsupported input type: ..' *)
  | ExecutableDoesNotExist (swmm_exe : string)  (* 'SWMM executable does not exist: ..' *)
  | ExecutableNotFound   (* 'SWMM executable not provided and swmm5 was not found on PATH.' *)
  | RunningSWMM (args : list string).         (* 'Running SWMM: ' and " ".join(args) *)

Inductive Event :=
  | ReportError (m : Message) (fatal : bool)  (* feedback.reportError *)
  | LogCritical (m : Message)                 (* logMessage(.., level=Qgis.Critical) *)
  | PushInfo (m : Message)                    (* feedback.pushInfo *)
  | GisToSwmm (gpkg_file inp_file : string)   (* gis_to_swmm(..) *)
  | CopyInpIfNeeded (inp_file : string)       (* self._copy_inp_if_needed(..) *)
  | Mkdir (of_file : string)                  (* Path(of_file).parent.mkdir(..) *)
  | Dates (e : DateOverrides.Event).          (* inside _apply_date_overrides *)

Definition R (A : Type) : Type := list Event -> (error + A) * list Event.

Definition ok {A} (a : A) : R A := fun t => (inr a, t).
Definition fail {A} (e : error) : R A := fun t => (inl e, t).
Definition and_then {A B} (c : R A) (k : A -> R B) : R B :=
  fun t =>
    match c t with
    | (inr a, t') => k a t'
    | (inl e, t') => (inl e, t')
    end.
Definition emit (e : Event) : R unit := fun t => (inr tt, t ++ [e]).

(** [try: c except Exception as e: h e] *)
Definition try_ {A} (c : R A) (h : error -> R A) : R A :=
  fun t =>
    match c t with
    | (inl e, t') => h e t'
    | r => r
    end.

Declare Scope alg_scope.
Notation "x <- c ;; k" := (and_then c (fun x => k))
  (at level 100, c at next level, right associativity) : alg_scope.
Notation "c ;; k" := (and_then c (fun _ => k))
  (at level 100, right associativity) : alg_scope.
Local Open Scope alg_scope.

Definition lift {A} (r : exn + A) : R A :=
  match r with
  | inl e => fail (Exception e)
  | inr a => ok a
  end.

Definition lift_raise (r : option exn) : R unit :=
  match r with
  | Some e => fail (Exception e)
  | None => ok tt
  end.

(** A call of [_apply_date_overrides], its events put into the trace. *)
Definition lift_dates (c : M DateOverrides.State unit) : R unit :=
  fun t =>
    match c [] with
    | (Ret _, evs) => (inr tt, t ++ map Dates evs)
    | (Raise e, evs) => (inl (Exception e), t ++ map Dates evs)
    | (OutOfFuel, evs) => (inl NoFuel, t ++ map Dates evs)
    end.

(** Reading a local variable that may not have been assigned. *)
Definition read_local {A} (name : string) (v : option A) : R A :=
  match v with
  | Some a => ok a
  | None => fail (UnboundLocalError name)
  end.

Record World := {
  path_exists : string -> bool;                  (* Path(p).exists() *)
  suffix : string -> string;                     (* Path(p).suffix *)
  with_suffix : string -> string -> string;      (* str(Path(p).with_suffix(s)) *)
  _resolve_output_inp_file : string -> exn + string;
  gis_to_swmm : string -> string -> option exn;
  _copy_inp_if_needed : string -> exn + string;
  exe_files : FindExe.Files;
  which : string -> option string;               (* shutil.which *)
  mkdir_parent : string -> option exn;           (* Path(p).parent.mkdir(..) *)
  inp_files : DateOverrides.Files;
}.

Record Parameters := {
  INPUT_FILE : string;
  SWMM_EXE : string;
  START_DATE : string;
  START_TIME : string;
  END_DATE : string;
  END_TIME : string;
}.

Record Prepared := {
  args : list string;
  inp_file : string;
  report_file : string;
  output_file : string;
}.

(** [x or y] on values that are [None] or a [str]. *)
Definition or_ (x y : option string) : option string :=
  match x with
  | Some s => if Py.truthy s then Some s else y
  | None => y
  end.

Definition truthy_opt (x : option string) : bool :=
  match x with
  | Some s => Py.truthy s
  | None => false
  end.

Section RunSWMMInp.

Variable w : World.
Variable p : Parameters.

Definition report_fatal (m : Message) : R unit :=
  emit (ReportError m true) ;; emit (LogCritical m).

(** The [if .. elif .. else] on the suffix; the result is the local
    variable [inp_file], [None] while it is not assigned. *)
Definition convert_or_copy (input_file : string) : R (option string) :=
  let suffix_lower := FindExe.lower (suffix w input_file) in
  if String.eqb suffix_lower ".gpkg" then
    try_
      (target_inp_file <- lift (_resolve_output_inp_file w input_file) ;;
       emit (GisToSwmm input_file target_inp_file) ;;
       lift_raise (gis_to_swmm w input_file target_inp_file) ;;
       ok (Some target_inp_file))
      (fun e => report_fatal (ConversionException e) ;; ok None)
  else if String.eqb suffix_lower ".inp" then
    emit (CopyInpIfNeeded input_file) ;;
    inp_file <- lift (_copy_inp_if_needed w input_file) ;;
    ok (Some inp_file)
  else
    report_fatal (UnsupportedInputType (suffix w input_file)) ;;
    ok None.

(** The executable: the parameter, or the one found; [None] when there is
    none. *)
Definition find_executable : R (option string) :=
  let swmm_exe := SWMM_EXE p in
  if Py.truthy swmm_exe then
    (if negb (path_exists w swmm_exe)
     then report_fatal (ExecutableDoesNotExist swmm_exe) else ok tt) ;;
    ok (Some swmm_exe)
  else
    let swmm_exe :=
      or_ (FindExe._find_runswmm_exe (exe_files w)) (which w "runswmm.exe") in
    (if negb (truthy_opt swmm_exe) then report_fatal ExecutableNotFound else ok tt) ;;
    ok swmm_exe.

Definition processAlgorithm_prepare : R Prepared :=
  let input_file := INPUT_FILE p in
  (if negb (Py.truthy input_file) || negb (path_exists w input_file)
   then report_fatal (InputDoesNotExist input_file) else ok tt) ;;
  inp_file_var <- convert_or_copy input_file ;;
  swmm_exe <- find_executable ;;
  inp_file <- read_local "inp_file" inp_file_var ;;
  let report_file := with_suffix w inp_file ".rpt" in
  let output_file := with_suffix w inp_file ".out" in
  emit (Mkdir report_file) ;;
  lift_raise (mkdir_parent w report_file) ;;
  emit (Mkdir output_file) ;;
  lift_raise (mkdir_parent w output_file) ;;
  (if Py.truthy (START_DATE p) || Py.truthy (START_TIME p)
      || Py.truthy (END_DATE p) || Py.truthy (END_TIME p)
   then lift_dates (DateOverrides._apply_date_overrides (inp_files w) inp_file
                      (START_DATE p) (START_TIME p) (END_DATE p) (END_TIME p))
   else ok tt) ;;
  match swmm_exe with
  | None =>
    fail (Exception (Exn TypeError "sequence item 0: expected str instance, NoneType found"))
  | Some swmm_exe =>
    let args := [swmm_exe; inp_file; report_file; output_file] in
    emit (PushInfo (RunningSWMM args)) ;;
    ok {| args := args; inp_file := inp_file;
          report_file := report_file; output_file := output_file |}
  end.

End RunSWMMInp.

End SwmmRunInpOrGpkgPrepare.




(** A machine without SWMM, with an input file [model.inp] of one line. *)
Definition world_without_swmm : SwmmRunInpOrGpkgPrepare.World :=
  {| SwmmRunInpOrGpkgPrepare.path_exists := fun f => String.eqb f "model.inp";
     SwmmRunInpOrGpkgPrepare.suffix := fun f =>
       if String.eqb f "model.inp" then ".inp"
       else if String.eqb f "model.gpkg" then ".gpkg"
       else if String.eqb f "model.INP.txt" then ".txt"
       else "";
     SwmmRunInpOrGpkgPrepare.with_suffix := fun f s => "model" +:+ s;
     SwmmRunInpOrGpkgPrepare._resolve_output_inp_file := fun _ => inr "model.inp";
     SwmmRunInpOrGpkgPrepare.gis_to_swmm := fun _ _ =>
       Some (Exn OSError "unable to open database file");
     SwmmRunInpOrGpkgPrepare._copy_inp_if_needed := fun f => inr f;
     SwmmRunInpOrGpkgPrepare.exe_files :=
       {| FindExe.environ_get := fun _ => None;
          FindExe.glob := fun _ _ => inr [];
          FindExe.joinpath := fun d f => d +:+ "\" +:+ f;
          FindExe.exists_ := fun _ => false |};
     SwmmRunInpOrGpkgPrepare.which := fun _ => None;
     SwmmRunInpOrGpkgPrepare.mkdir_parent := fun _ => None;
     SwmmRunInpOrGpkgPrepare.inp_files := inp_with ["[TITLE]" +:+ DateOverrides.lf] |}.

Definition parameters_of (input_file swmm_exe start_date : string)
    : SwmmRunInpOrGpkgPrepare.Parameters :=
  {| SwmmRunInpOrGpkgPrepare.INPUT_FILE := input_file;
     SwmmRunInpOrGpkgPrepare.SWMM_EXE := swmm_exe;
     SwmmRunInpOrGpkgPrepare.START_DATE := start_date;
     SwmmRunInpOrGpkgPrepare.START_TIME := "";
     SwmmRunInpOrGpkgPrepare.END_DATE := "";
     SwmmRunInpOrGpkgPrepare.END_TIME := "" |}.

(** * Properties *)

(** ** The monad *)

Section Monad.
Context {S : Type}.

Lemma bind_ret {A B} (a : A) (k : A -> M S B) s : (x <- ret a ;; k x) s = k a s.
Proof. reflexivity. Qed.

Lemma bind_gets {A B} (f : S -> A) (k : A -> M S B) s : (x <- gets f ;; k x) s = k (f s) s.
Proof. reflexivity. Qed.

Lemma bind_run {A B} (c : M S A) (k : A -> M S B) s a s' :
  c s = (Ret a, s') -> (x <- c ;; k x) s = k a s'.
Proof. intros H. unfold bind. by rewrite H. Qed.

Lemma bind_raise {A B} (c : M S A) (k : A -> M S B) s e s' :
  c s = (Raise e, s') -> (x <- c ;; k x) s = (Raise e, s').
Proof. intros H. unfold bind. by rewrite H. Qed.

Lemma bind_assoc {A B C} (c : M S A) (k : A -> M S B) (h : B -> M S C) s :
  (y <- (x <- c ;; k x) ;; h y) s = (x <- c ;; y <- k x ;; h y) s.
Proof. unfold bind. destruct (c s) as [[a| |] s']; reflexivity. Qed.

Lemma try_except_run {A} (c : M S A) h s a s' :
  c s = (Ret a, s') -> try_except c h s = (Ret a, s').
Proof. intros H. unfold try_except. by rewrite H. Qed.

Lemma try_except_raise {A} (c : M S A) h s e s' :
  c s = (Raise e, s') -> try_except c h s = h e s'.
Proof. intros H. unfold try_except. by rewrite H. Qed.

End Monad.

(** ** The monad on the host state *)

Section HostMonad.
Import Host.

Lemma add_events_nil s : add_events s [] = s.
Proof. destruct s; unfold add_events; simpl. by rewrite app_nil_r. Qed.

Lemma add_events_app s a b :
  add_events (add_events s a) b = add_events s (a ++ b).
Proof. unfold add_events; simpl. by rewrite app_assoc. Qed.

Lemma emit_run e s : emit e s = (Ret tt, add_events s [e]).
Proof. reflexivity. Qed.

Lemma bind_emit {A} e (k : M State A) s : (emit e ;; k) s = k (add_events s [e]).
Proof. reflexivity. Qed.

Lemma when_feedback_run fb e s :
  when_feedback fb (emit e) s
  = (Ret tt, add_events s (match fb with Some _ => [e] | None => [] end)).
Proof. destruct fb; [done|]. unfold when_feedback, ret. by rewrite add_events_nil. Qed.

Lemma when_feedback_emit_run {A} fb e (k : M State A) s :
  (when_feedback fb (emit (PushWarning e)) ;; emit (LogMessage e Warning) ;; k) s
  = k (add_events s (report_warning fb e)).
Proof.
  destruct fb; unfold bind, when_feedback, report_warning, add_events; simpl;
    rewrite <- ?app_assoc; reflexivity.
Qed.

Lemma report_warning_run fb e s :
  (when_feedback fb (emit (PushWarning e)) ;; emit (LogMessage e Warning)) s
  = (Ret tt, add_events s (report_warning fb e)).
Proof.
  destruct fb; unfold bind, when_feedback, report_warning, add_events, emit, modify;
    simpl; rewrite <- ?app_assoc; reflexivity.
Qed.

Lemma diagnostics_app a b : diagnostics (a ++ b) = diagnostics a ++ diagnostics b.
Proof. unfold diagnostics. apply omap_app. Qed.

Lemma diagnostics_report_warning fb m :
  diagnostics (report_warning fb m) = [m].
Proof. by destruct fb. Qed.

End HostMonad.

(** ** The report scan *)

Section Scan.
Import Host.

Lemma blank_no_keyword line :
  Py.truthy (Py.strip line) = false ->
  starts_with_keyword line = false /\ contains_keyword line = false.
Proof.
  unfold starts_with_keyword, contains_keyword.
  destruct (Py.strip line); [done | discriminate].
Qed.

(** The events of the loop of [_scan_report] on a stream that does not
    fail: one report per diagnostic line, for the first
    [max_rpt_messages - rpt_message_count] of them. *)
Lemma scan_lines_or_gpkg fb ls : forall c s,
  SwmmRunInpOrGpkg.scan_lines fb ls None c s
  = (Ret (10 - c <? length (List.filter starts_with_keyword ls))%nat,
     add_events s
       (flat_map (fun l => report_warning fb (Text (Py.strip l)))
          (take (10 - c) (List.filter starts_with_keyword ls)))).
Proof.
  induction ls as [|line rest IH]; intros c s.
  - simpl. rewrite take_nil. simpl. by rewrite add_events_nil.
  - cbn [SwmmRunInpOrGpkg.scan_lines List.filter].
    destruct (Py.truthy (Py.strip line)) eqn:Hb; cbn [negb].
    + fold (starts_with_keyword line).
      destruct (starts_with_keyword line) eqn:Hk; [|apply IH].
      unfold SwmmRunInpOrGpkg.max_rpt_messages.
      destruct (10 <=? c)%nat eqn:Hc.
      * apply Nat.leb_le in Hc. replace (10 - c)%nat with 0%nat by lia.
        simpl. by rewrite add_events_nil.
      * apply Nat.leb_gt in Hc. rewrite when_feedback_emit_run, IH.
        replace (10 - c)%nat with (S (10 - S c)) by lia.
        rewrite add_events_app. simpl. reflexivity.
    + destruct (blank_no_keyword line Hb) as [-> _]. apply IH.
Qed.

Lemma scan_lines_inp ls : forall c s,
  SwmmRunInp.scan_lines ls None c s
  = (Ret (10 - c <? length (List.filter contains_keyword ls))%nat,
     add_events s
       (flat_map (fun l => report_warning (Some {| isCanceled := fun _ => false |})
                             (Text (Py.strip l)))
          (take (10 - c) (List.filter contains_keyword ls)))).
Proof.
  induction ls as [|line rest IH]; intros c s.
  - simpl. rewrite take_nil. simpl. by rewrite add_events_nil.
  - cbn [SwmmRunInp.scan_lines List.filter].
    destruct (Py.truthy (Py.strip line)) eqn:Hb; cbn [negb].
    + fold (contains_keyword line).
      destruct (contains_keyword line) eqn:Hk; [|apply IH].
      unfold SwmmRunInp.max_rpt_messages.
      destruct (10 <=? c)%nat eqn:Hc.
      * apply Nat.leb_le in Hc. replace (10 - c)%nat with 0%nat by lia.
        simpl. by rewrite add_events_nil.
      * apply Nat.leb_gt in Hc.
        unfold bind at 1 2. rewrite !emit_run, IH.
        replace (10 - c)%nat with (S (10 - S c)) by lia.
        rewrite !add_events_app. simpl. reflexivity.
    + destruct (blank_no_keyword line Hb) as [_ ->]. apply IH.
Qed.

(** The loop of [_scan_report] on any stream: the first
    [max_rpt_messages - rpt_message_count] diagnostic lines are reported;
    the loop ends truncated at the next one, or else as the stream does. *)
Lemma scan_lines_or_gpkg_stream fb ls fail : forall c s,
  SwmmRunInpOrGpkg.scan_lines fb ls fail c s
  = (if (10 - c <? length (List.filter starts_with_keyword ls))%nat then Ret true
     else match fail with Some e => Raise e | None => Ret false end,
     add_events s
       (flat_map (fun l => report_warning fb (Text (Py.strip l)))
          (take (10 - c) (List.filter starts_with_keyword ls)))).
Proof.
  induction ls as [|line rest IH]; intros c s.
  - simpl. rewrite take_nil. simpl. rewrite add_events_nil. by destruct fail.
  - cbn [SwmmRunInpOrGpkg.scan_lines List.filter].
    destruct (Py.truthy (Py.strip line)) eqn:Hb; cbn [negb].
    + fold (starts_with_keyword line).
      destruct (starts_with_keyword line) eqn:Hk; [|apply IH].
      unfold SwmmRunInpOrGpkg.max_rpt_messages.
      destruct (10 <=? c)%nat eqn:Hc.
      * apply Nat.leb_le in Hc. replace (10 - c)%nat with 0%nat by lia.
        simpl. by rewrite add_events_nil.
      * apply Nat.leb_gt in Hc. rewrite when_feedback_emit_run, IH.
        replace (10 - c)%nat with (S (10 - S c)) by lia.
        rewrite add_events_app. simpl. reflexivity.
    + destruct (blank_no_keyword line Hb) as [-> _]. apply IH.
Qed.

Lemma scan_lines_inp_stream ls fail : forall c s,
  SwmmRunInp.scan_lines ls fail c s
  = (if (10 - c <? length (List.filter contains_keyword ls))%nat then Ret true
     else match fail with Some e => Raise e | None => Ret false end,
     add_events s
       (flat_map (fun l => [PushWarning (Text (Py.strip l));
                            LogMessage (Text (Py.strip l)) Warning])
          (take (10 - c) (List.filter contains_keyword ls)))).
Proof.
  induction ls as [|line rest IH]; intros c s.
  - simpl. rewrite take_nil. simpl. rewrite add_events_nil. by destruct fail.
  - cbn [SwmmRunInp.scan_lines List.filter].
    destruct (Py.truthy (Py.strip line)) eqn:Hb; cbn [negb].
    + fold (contains_keyword line).
      destruct (contains_keyword line) eqn:Hk; [|apply IH].
      unfold SwmmRunInp.max_rpt_messages.
      destruct (10 <=? c)%nat eqn:Hc.
      * apply Nat.leb_le in Hc. replace (10 - c)%nat with 0%nat by lia.
        simpl. by rewrite add_events_nil.
      * apply Nat.leb_gt in Hc.
        unfold bind at 1 2. rewrite !emit_run, IH.
        replace (10 - c)%nat with (S (10 - S c)) by lia.
        rewrite !add_events_app. simpl. reflexivity.
    + destruct (blank_no_keyword line Hb) as [_ ->]. apply IH.
Qed.

End Scan.

Section ScanReport.
Import Host.

Lemma scan_lines_or_gpkg_app fb pre more fail : forall c s,
  (c + length (List.filter starts_with_keyword pre) <= 10)%nat ->
  SwmmRunInpOrGpkg.scan_lines fb (pre ++ more) fail c s
  = SwmmRunInpOrGpkg.scan_lines fb more fail
      (c + length (List.filter starts_with_keyword pre))
      (add_events s
         (flat_map (fun l => report_warning fb (Text (Py.strip l)))
            (List.filter starts_with_keyword pre))).
Proof.
  induction pre as [|line rest IH]; intros c s Hc.
  - simpl. by rewrite Nat.add_0_r, add_events_nil.
  - cbn [app SwmmRunInpOrGpkg.scan_lines List.filter] in *.
    destruct (Py.truthy (Py.strip line)) eqn:Hb; cbn [negb].
    + fold (starts_with_keyword line).
      destruct (starts_with_keyword line) eqn:Hk; [|by apply IH].
      cbn [length] in Hc. unfold SwmmRunInpOrGpkg.max_rpt_messages.
      destruct (10 <=? c)%nat eqn:H10; [apply Nat.leb_le in H10; lia|].
      rewrite when_feedback_emit_run, IH by lia.
      rewrite add_events_app. cbn [length flat_map].
      by replace (S c + length (List.filter starts_with_keyword rest))%nat
        with (c + S (length (List.filter starts_with_keyword rest)))%nat by lia.
    + destruct (blank_no_keyword line Hb) as [Hk _]. rewrite Hk in *. by apply IH.
Qed.

Lemma scan_lines_inp_app pre more fail : forall c s,
  (c + length (List.filter contains_keyword pre) <= 10)%nat ->
  SwmmRunInp.scan_lines (pre ++ more) fail c s
  = SwmmRunInp.scan_lines more fail
      (c + length (List.filter contains_keyword pre))
      (add_events s
         (flat_map (fun l => report_warning (Some {| isCanceled := fun _ => false |})
                               (Text (Py.strip l)))
            (List.filter contains_keyword pre))).
Proof.
  induction pre as [|line rest IH]; intros c s Hc.
  - simpl. by rewrite Nat.add_0_r, add_events_nil.
  - cbn [app SwmmRunInp.scan_lines List.filter] in *.
    destruct (Py.truthy (Py.strip line)) eqn:Hb; cbn [negb].
    + fold (contains_keyword line).
      destruct (contains_keyword line) eqn:Hk; [|by apply IH].
      cbn [length] in Hc. unfold SwmmRunInp.max_rpt_messages.
      destruct (10 <=? c)%nat eqn:H10; [apply Nat.leb_le in H10; lia|].
      unfold bind at 1 2. rewrite !emit_run, IH by lia.
      rewrite !add_events_app. cbn [length flat_map].
      by replace (S c + length (List.filter contains_keyword rest))%nat
        with (c + S (length (List.filter contains_keyword rest)))%nat by lia.
    + destruct (blank_no_keyword line Hb) as [_ Hk]. rewrite Hk in *. by apply IH.
Qed.

Lemma diagnostics_flat_map fb (ls : list string) :
  diagnostics (flat_map (fun l => report_warning fb (Text (Py.strip l))) ls)
  = map (fun l => Text (Py.strip l)) ls.
Proof.
  induction ls as [|l ls IH]; [done|].
  cbn [flat_map map]. rewrite diagnostics_app, diagnostics_report_warning, IH. done.
Qed.

(** [_scan_report] on a report that reads without error. *)
Lemma scan_report_text fb ls p s :
  SwmmRunInpOrGpkg._scan_report (os_with_report (text_file ls)) p fb s
  = (Ret tt,
     add_events s
       ([PathExists p; Open p]
        ++ flat_map (fun l => report_warning fb (Text (Py.strip l)))
             (take 10 (List.filter starts_with_keyword ls))
        ++ (if (10 <? length (List.filter starts_with_keyword ls))%nat
            then report_warning fb ellipsis else []))).
Proof.
  unfold SwmmRunInpOrGpkg._scan_report.
  rewrite bind_emit. cbn [os_with_report path_exists lift]. rewrite bind_ret. cbn [negb].
  erewrite try_except_run; [reflexivity|].
  rewrite bind_emit. cbn [os_with_report open_r lift text_file]. rewrite bind_ret.
  cbn [lines failure].
  erewrite bind_run by apply scan_lines_or_gpkg.
  replace (10 - 0)%nat with 10%nat by done.
  destruct (10 <? _)%nat.
  - rewrite report_warning_run, !add_events_app. reflexivity.
  - unfold ret. rewrite !add_events_app, app_nil_r. reflexivity.
Qed.

Lemma processAlgorithm_scan_text ls p s :
  SwmmRunInp.processAlgorithm_scan (os_with_report (text_file ls)) p s
  = (Ret tt,
     add_events s
       ([PathExists p; Open p]
        ++ flat_map (fun l => report_warning (Some {| isCanceled := fun _ => false |})
                                (Text (Py.strip l)))
             (take 10 (List.filter contains_keyword ls))
        ++ (if (10 <? length (List.filter contains_keyword ls))%nat
            then report_warning (Some {| isCanceled := fun _ => false |}) ellipsis
            else []))).
Proof.
  unfold SwmmRunInp.processAlgorithm_scan.
  rewrite bind_emit. cbn [os_with_report path_exists lift]. rewrite bind_ret. cbn [negb].
  erewrite try_except_run; [reflexivity|].
  rewrite bind_emit. cbn [os_with_report open_r lift text_file]. rewrite bind_ret.
  cbn [lines failure].
  erewrite bind_run by apply scan_lines_inp.
  replace (10 - 0)%nat with 10%nat by done.
  destruct (10 <? _)%nat.
  - rewrite bind_emit, emit_run, !add_events_app. reflexivity.
  - unfold ret. rewrite !add_events_app, app_nil_r. reflexivity.
Qed.

(** What the two scans emit for a report that reads without error. *)
Lemma scan_report_diagnostics_text fb ls :
  scan_report_diagnostics fb (text_file ls)
  = shown (List.filter starts_with_keyword ls)
    ++ (if (10 <? length (List.filter starts_with_keyword ls))%nat then [ellipsis] else []).
Proof.
  unfold scan_report_diagnostics. rewrite scan_report_text.
  cbn [snd add_events trace initial app]. unfold shown.
  change (PathExists "model.rpt" :: Open "model.rpt" :: ?l)
    with ([PathExists "model.rpt"; Open "model.rpt"] ++ l).
  rewrite !diagnostics_app, diagnostics_flat_map.
  destruct (10 <? _)%nat; [by rewrite diagnostics_report_warning|done].
Qed.

Lemma processAlgorithm_diagnostics_text ls :
  processAlgorithm_diagnostics (text_file ls)
  = shown (List.filter contains_keyword ls)
    ++ (if (10 <? length (List.filter contains_keyword ls))%nat then [ellipsis] else []).
Proof.
  unfold processAlgorithm_diagnostics. rewrite processAlgorithm_scan_text.
  cbn [snd add_events trace initial app]. unfold shown.
  change (PathExists "model.rpt" :: Open "model.rpt" :: ?l)
    with ([PathExists "model.rpt"; Open "model.rpt"] ++ l).
  rewrite !diagnostics_app, diagnostics_flat_map.
  destruct (10 <? _)%nat; [by rewrite diagnostics_report_warning|done].
Qed.

End ScanReport.

Section ScanClaims.
Import Host.

Lemma keyword_nonblank line :
  starts_with_keyword line = true \/ contains_keyword line = true ->
  Py.truthy (Py.strip line) = true.
Proof.
  intros H. destruct (Py.truthy (Py.strip line)) eqn:Hb; [done|].
  destruct (blank_no_keyword line Hb) as [H1 H2]. rewrite H1, H2 in H.
  by destruct H.
Qed.

(** Once ten diagnostics are out, the next diagnostic line ends the scan of
    [_scan_report]: whatever follows it in the file is not looked at. *)
Lemma scan_report_truncated fb pre d rest fail p s :
  length (List.filter starts_with_keyword pre) = 10%nat ->
  starts_with_keyword d = true ->
  SwmmRunInpOrGpkg._scan_report
    (os_with_report {| lines := pre ++ d :: rest; failure := fail |}) p fb s
  = (Ret tt,
     add_events s
       ([PathExists p; Open p]
        ++ flat_map (fun l => report_warning fb (Text (Py.strip l)))
             (List.filter starts_with_keyword pre)
        ++ report_warning fb ellipsis)).
Proof.
  intros Hpre Hd. unfold SwmmRunInpOrGpkg._scan_report.
  rewrite bind_emit. cbn [os_with_report path_exists lift]. rewrite bind_ret. cbn [negb].
  erewrite try_except_run; [reflexivity|].
  rewrite bind_emit. cbn [os_with_report open_r lift]. rewrite bind_ret.
  cbn [lines failure].
  erewrite bind_run; cycle 1.
  { rewrite scan_lines_or_gpkg_app by (rewrite Hpre; lia).
    rewrite Hpre. cbn [SwmmRunInpOrGpkg.scan_lines].
    rewrite (keyword_nonblank d) by auto. cbn [negb].
    fold (starts_with_keyword d). rewrite Hd. reflexivity. }
  cbn beta iota. rewrite report_warning_run, !add_events_app. reflexivity.
Qed.

Lemma processAlgorithm_scan_truncated pre d rest fail p s :
  length (List.filter contains_keyword pre) = 10%nat ->
  contains_keyword d = true ->
  SwmmRunInp.processAlgorithm_scan
    (os_with_report {| lines := pre ++ d :: rest; failure := fail |}) p s
  = (Ret tt,
     add_events s
       ([PathExists p; Open p]
        ++ flat_map (fun l => report_warning (Some {| isCanceled := fun _ => false |})
                                (Text (Py.strip l)))
             (List.filter contains_keyword pre)
        ++ report_warning (Some {| isCanceled := fun _ => false |}) ellipsis)).
Proof.
  intros Hpre Hd. unfold SwmmRunInp.processAlgorithm_scan.
  rewrite bind_emit. cbn [os_with_report path_exists lift]. rewrite bind_ret. cbn [negb].
  erewrite try_except_run; [reflexivity|].
  rewrite bind_emit. cbn [os_with_report open_r lift]. rewrite bind_ret.
  cbn [lines failure].
  erewrite bind_run; cycle 1.
  { rewrite scan_lines_inp_app by (rewrite Hpre; lia).
    rewrite Hpre. cbn [SwmmRunInp.scan_lines].
    rewrite (keyword_nonblank d) by auto. cbn [negb].
    fold (contains_keyword d). rewrite Hd. reflexivity. }
  cbn beta iota. rewrite bind_emit, emit_run, !add_events_app. reflexivity.
Qed.

(** What [_scan_report] does, by the answers of the file system: the
    existence test raises, or says no, or says yes; the file then cannot be
    opened, or is read up to the eleventh diagnostic line, a read error or
    its end. *)
Lemma scan_report_cases os p fb s :
  SwmmRunInpOrGpkg._scan_report os p fb s
  = match path_exists os p with
    | inl e => (Raise e, add_events s [PathExists p])
    | inr false => (Ret tt, add_events s [PathExists p])
    | inr true =>
      (Ret tt,
       add_events s
         ([PathExists p; Open p]
          ++ match open_r os p with
             | inl e => report_warning fb (ScanException e)
             | inr rpt =>
               let diag := List.filter starts_with_keyword (lines rpt) in
               flat_map (fun l => report_warning fb (Text (Py.strip l))) (take 10 diag)
               ++ (if (10 <? length diag)%nat then report_warning fb ellipsis
                   else match failure rpt with
                        | Some e => report_warning fb (ScanException e)
                        | None => []
                        end)
             end))
    end.
Proof.
  unfold SwmmRunInpOrGpkg._scan_report. rewrite bind_emit.
  destruct (path_exists os p) as [e|[|]]; cbn [lift];
    [done|rewrite bind_ret; cbn [negb]|done].
  destruct (open_r os p) as [e|[ls fail]].
  - erewrite try_except_raise by (rewrite bind_emit; reflexivity).
    rewrite report_warning_run. by rewrite !add_events_app.
  - cbv zeta. cbn [lines failure].
    pose proof (scan_lines_or_gpkg_stream fb ls fail 0
                  (add_events (add_events s [PathExists p]) [Open p])) as Hscan.
    replace (10 - 0)%nat with 10%nat in Hscan by done.
    destruct (10 <? length (List.filter starts_with_keyword ls))%nat.
    + erewrite try_except_run; cycle 1.
      { rewrite bind_emit. cbn [lift]. rewrite bind_ret. cbn [lines failure].
        erewrite bind_run by exact Hscan. cbn beta iota.
        apply report_warning_run. }
      by rewrite !add_events_app.
    + destruct fail as [e|].
      * erewrite try_except_raise; cycle 1.
        { rewrite bind_emit. cbn [lift]. rewrite bind_ret. cbn [lines failure].
          erewrite bind_raise by exact Hscan. reflexivity. }
        rewrite report_warning_run. by rewrite !add_events_app.
      * erewrite try_except_run; cycle 1.
        { rewrite bind_emit. cbn [lift]. rewrite bind_ret. cbn [lines failure].
          erewrite bind_run by exact Hscan. reflexivity. }
        by rewrite !add_events_app, app_nil_r.
Qed.

(** The same for the inline scan of swmm_run_inp.py, which always has the
    feedback object. *)
Lemma processAlgorithm_scan_cases os p s :
  let warn m := [PushWarning m; LogMessage m Warning] in
  SwmmRunInp.processAlgorithm_scan os p s
  = match path_exists os p with
    | inl e => (Raise e, add_events s [PathExists p])
    | inr false => (Ret tt, add_events s [PathExists p])
    | inr true =>
      (Ret tt,
       add_events s
         ([PathExists p; Open p]
          ++ match open_r os p with
             | inl e => warn (ScanException e)
             | inr rpt =>
               let diag := List.filter contains_keyword (lines rpt) in
               flat_map (fun l => warn (Text (Py.strip l))) (take 10 diag)
               ++ (if (10 <? length diag)%nat then warn ellipsis
                   else match failure rpt with
                        | Some e => warn (ScanException e)
                        | None => []
                        end)
             end))
    end.
Proof.
  cbv zeta.
  assert (Hwarn : forall m s0,
             (emit (PushWarning m) ;; emit (LogMessage m Warning)) s0
             = (Ret tt, add_events s0 [PushWarning m; LogMessage m Warning])).
  { intros m s0. rewrite bind_emit, emit_run. by rewrite add_events_app. }
  unfold SwmmRunInp.processAlgorithm_scan. rewrite bind_emit.
  destruct (path_exists os p) as [e|[|]]; cbn [lift];
    [done|rewrite bind_ret; cbn beta iota|done].
  destruct (open_r os p) as [e|[ls fail]].
  - erewrite try_except_raise by (rewrite bind_emit; reflexivity).
    rewrite Hwarn. by rewrite !add_events_app.
  - cbn [lines failure].
    pose proof (scan_lines_inp_stream ls fail 0
                  (add_events (add_events s [PathExists p]) [Open p])) as Hscan.
    replace (10 - 0)%nat with 10%nat in Hscan by done.
    destruct (10 <? length (List.filter contains_keyword ls))%nat.
    + erewrite try_except_run; cycle 1.
      { rewrite bind_emit. cbn [lift]. rewrite bind_ret. cbn [lines failure].
        erewrite bind_run by exact Hscan. cbn beta iota.
        apply Hwarn. }
      by rewrite !add_events_app.
    + destruct fail as [e|].
      * erewrite try_except_raise; cycle 1.
        { rewrite bind_emit. cbn [lift]. rewrite bind_ret. cbn [lines failure].
          erewrite bind_raise by exact Hscan. reflexivity. }
        rewrite Hwarn. by rewrite !add_events_app.
      * erewrite try_except_run; cycle 1.
        { rewrite bind_emit. cbn [lift]. rewrite bind_ret. cbn [lines failure].
          erewrite bind_run by exact Hscan. reflexivity. }
        by rewrite !add_events_app, app_nil_r.
Qed.

Lemma shown_length diag : (length (shown diag) <= 10)%nat.
Proof. unfold shown. rewrite length_map, length_take. lia. Qed.

Lemma shown_all diag :
  (length diag <= 10)%nat -> shown diag = map (fun l => Text (Py.strip l)) diag.
Proof. intros H. unfold shown. by rewrite take_ge. Qed.

End ScanClaims.

Section C8.
Import Host.

(** C8. Both report scans emit at most ten diagnostic lines: the first ten
    of the file, trimmed, then one ["..."] marker exactly when the file has
    more. With twelve diagnostic lines that is the first ten and the marker,
    with three it is the three and no marker. The diagnostic line after the
    tenth ends the scan: what follows it in the file, even a read error,
    changes nothing. This holds for [_scan_report] of
    swmm_run_inp_or_gpkg.py, with and without a feedback object, and for the
    inline scan of swmm_run_inp.py, each with its own notion of diagnostic
    line. *)
Theorem C8_report_scan_ceiling (fb : option Cancellable) (ls : list string) :
  let diag := List.filter starts_with_keyword ls in
  let diag' := List.filter contains_keyword ls in
  let trimmed := map (fun l => Text (Py.strip l)) in
  ((length (shown diag) <= 10)%nat
   /\ scan_report_diagnostics fb (text_file ls)
      = shown diag ++ (if (10 <? length diag)%nat then [ellipsis] else [])
   /\ (length diag = 12%nat ->
       scan_report_diagnostics fb (text_file ls) = trimmed (take 10 diag) ++ [ellipsis])
   /\ (length diag = 3%nat ->
       scan_report_diagnostics fb (text_file ls) = trimmed diag)
   /\ (forall pre d rest rest' fail,
         ls = pre ++ d :: rest ->
         length (List.filter starts_with_keyword pre) = 10%nat ->
         starts_with_keyword d = true ->
         scan_report_diagnostics fb {| lines := pre ++ d :: rest'; failure := fail |}
         = scan_report_diagnostics fb (text_file ls)))
  /\
  ((length (shown diag') <= 10)%nat
   /\ processAlgorithm_diagnostics (text_file ls)
      = shown diag' ++ (if (10 <? length diag')%nat then [ellipsis] else [])
   /\ (length diag' = 12%nat ->
       processAlgorithm_diagnostics (text_file ls) = trimmed (take 10 diag') ++ [ellipsis])
   /\ (length diag' = 3%nat ->
       processAlgorithm_diagnostics (text_file ls) = trimmed diag')
   /\ (forall pre d rest rest' fail,
         ls = pre ++ d :: rest ->
         length (List.filter contains_keyword pre) = 10%nat ->
         contains_keyword d = true ->
         processAlgorithm_diagnostics {| lines := pre ++ d :: rest'; failure := fail |}
         = processAlgorithm_diagnostics (text_file ls))).
Proof.
  cbv zeta. split.
  - split; [apply shown_length|]. split; [apply scan_report_diagnostics_text|].
    split; [|split].
    + intros H. rewrite scan_report_diagnostics_text, H. reflexivity.
    + intros H. rewrite scan_report_diagnostics_text, H, shown_all by lia.
      by rewrite app_nil_r.
    + intros pre d rest rest' fail -> Hpre Hd.
      unfold scan_report_diagnostics, text_file.
      by rewrite !scan_report_truncated.
  - split; [apply shown_length|]. split; [apply processAlgorithm_diagnostics_text|].
    split; [|split].
    + intros H. rewrite processAlgorithm_diagnostics_text, H. reflexivity.
    + intros H. rewrite processAlgorithm_diagnostics_text, H, shown_all by lia.
      by rewrite app_nil_r.
    + intros pre d rest rest' fail -> Hpre Hd.
      unfold processAlgorithm_diagnostics, text_file.
      by rewrite !processAlgorithm_scan_truncated.
Qed.

(** The theorem at a report with twelve [ERROR] lines, cut short by a read
    error after the eleventh, and at a report with three [warning] lines. *)
Lemma C8_report_scan_ceiling_witness :
  let trimmed := map (fun l => Text (Py.strip l)) in
  (scan_report_diagnostics None (text_file report_12)
   = trimmed (take 10 (List.filter starts_with_keyword report_12)) ++ [ellipsis]
   /\ scan_report_diagnostics None
        {| lines := take 12 report_12 ++ [nth 12 report_12 ""];
           failure := Some (Exn OSError "read error") |}
      = scan_report_diagnostics None (text_file report_12)
   /\ scan_report_diagnostics None (text_file report_3)
      = trimmed (List.filter starts_with_keyword report_3))
  /\
  (processAlgorithm_diagnostics (text_file report_12)
   = trimmed (take 10 (List.filter contains_keyword report_12)) ++ [ellipsis]
   /\ processAlgorithm_diagnostics
        {| lines := take 12 report_12 ++ [nth 12 report_12 ""];
           failure := Some (Exn OSError "read error") |}
      = processAlgorithm_diagnostics (text_file report_12)
   /\ processAlgorithm_diagnostics (text_file report_3)
      = trimmed (List.filter contains_keyword report_3)).
Proof.
  cbv zeta.
  pose proof (C8_report_scan_ceiling None report_12) as H12.
  pose proof (C8_report_scan_ceiling None report_3) as H3.
  cbv zeta in H12, H3.
  destruct H12 as [(_ & _ & Ha & _ & Hb) (_ & _ & Ha' & _ & Hb')].
  destruct H3 as [(_ & _ & _ & Hc & _) (_ & _ & _ & Hc' & _)].
  split; (split; [|split]).
  - apply Ha. vm_compute; reflexivity.
  - apply (Hb (take 12 report_12) (nth 12 report_12 "") (drop 13 report_12) []);
      vm_compute; reflexivity.
  - apply Hc. vm_compute; reflexivity.
  - apply Ha'. vm_compute; reflexivity.
  - apply (Hb' (take 12 report_12) (nth 12 report_12 "") (drop 13 report_12) []);
      vm_compute; reflexivity.
  - apply Hc'. vm_compute; reflexivity.
Defined.

End C8.

Section C9.
Import Host.







End C9.

(** ** Running the child process *)

Section Run.
Import Host.

Implicit Types (fb task : option Cancellable) (s : State).

Lemma delivered_app a b : delivered (a ++ b) = delivered a ++ delivered b.
Proof. apply omap_app. Qed.

Lemma terminations_app a b : terminations (a ++ b) = (terminations a + terminations b)%nat.
Proof. unfold terminations. by rewrite List.filter_app, length_app. Qed.

Lemma scans_app a b : scans (a ++ b) = (scans a + scans b)%nat.
Proof. unfold scans. by rewrite List.filter_app, length_app. Qed.

Lemma in_step_add_events fb task s n evs :
  in_step fb task s n -> in_step fb task (add_events s evs) n.
Proof. done. Qed.

(** One call of [is_canceled()]: it answers with the signal, polls the flag
    once, and delivers and terminates nothing. *)
Lemma is_canceled_run fb task s n :
  in_step fb task s n ->
  exists s',
    SwmmRunInpOrGpkg.is_canceled fb task s = (Ret (signal fb task n), s')
    /\ delivered (trace s') = delivered (trace s)
    /\ terminations (trace s') = terminations (trace s)
    /\ scans (trace s') = scans (trace s)
    /\ signal_polls fb task s'
       = match fb, task with None, None => 0%nat | _, _ => S n end
    /\ (signal fb task n = false -> in_step fb task s' (S n)).
Proof.
  intros [Hf Ht]. unfold SwmmRunInpOrGpkg.is_canceled, signal, signal_polls, in_step.
  destruct fb as [f|], task as [t|];
    unfold bind, feedback_isCanceled, task_isCanceled, ret;
    cbn [trace feedback_polls task_polls];
    rewrite ?Hf, ?Ht by eauto;
    repeat (match goal with
            | |- context [isCanceled ?c n] => destruct (isCanceled c n) eqn:?
            end;
            cbn [orb trace feedback_polls task_polls];
            rewrite ?Hf, ?Ht by eauto);
    (eexists; split; [reflexivity|]);
    cbn [trace feedback_polls task_polls];
    rewrite ?delivered_app, ?terminations_app, ?scans_app, ?Hf, ?Ht by eauto;
    cbn [delivered terminations scans omap list_omap List.filter length];
    rewrite ?app_nil_r, ?Nat.add_0_r;
    repeat split; try done; try (by intros [? ?]).
Qed.

Lemma line_events_run fb line s :
  (if Py.truthy (Py.strip line) then
     when_feedback fb (emit (PushInfo (Py.rstrip line))) ;;
     emit (LogMessage (Text (Py.rstrip line)) Info)
   else ret tt) s
  = (Ret tt, add_events s (line_events fb line)).
Proof.
  unfold line_events, nonblank. destruct (Py.truthy (Py.strip line)).
  - destruct fb; unfold bind, when_feedback, emit, modify, ret, add_events; simpl;
      rewrite <- ?app_assoc; reflexivity.
  - unfold ret. by rewrite add_events_nil.
Qed.

Lemma line_events_facts fb line :
  delivered (line_events fb line) = relayed fb [line]
  /\ terminations (line_events fb line) = 0%nat
  /\ scans (line_events fb line) = 0%nat.
Proof.
  unfold line_events, relayed. cbn [List.filter].
  destruct (nonblank line), fb; done.
Qed.

Lemma relayed_cons fb line ls :
  relayed fb (line :: ls) = relayed fb [line] ++ relayed fb ls.
Proof.
  unfold relayed. cbn [List.filter].
  destruct (nonblank line); cbn [flat_map]; by rewrite ?app_nil_r.
Qed.

(** The read loop when the signal stays unset for every line: all lines are
    relayed, each followed by one poll, and the child is left alone; the
    loop ends as the stream does, by its end or by its read error. *)
Lemma read_stdout_all fb task fail ls : forall n s,
  in_step fb task s n ->
  (forall k, (k < length ls)%nat -> signal fb task (n + k) = false) ->
  exists s',
    SwmmRunInpOrGpkg.read_stdout fb task n ls fail s
    = (match fail with Some e => Raise e | None => Ret None end, s')
    /\ delivered (trace s') = delivered (trace s) ++ relayed fb ls
    /\ terminations (trace s') = terminations (trace s)
    /\ scans (trace s') = scans (trace s)
    /\ in_step fb task s' (n + length ls).
Proof.
  induction ls as [|line rest IH]; intros n s Hs Hq.
  - exists s. cbn. rewrite app_nil_r, Nat.add_0_r. by destruct fail.
  - cbn [SwmmRunInpOrGpkg.read_stdout].
    erewrite bind_run by apply line_events_run.
    destruct (is_canceled_run fb task (add_events s (line_events fb line)) n)
      as (s1 & Hrun & Hd & Ht & Hsc & _ & Hstep); [done|].
    erewrite bind_run by exact Hrun.
    pose proof (Hq 0%nat ltac:(cbn; lia)) as H0.
    rewrite Nat.add_0_r in H0. rewrite H0 in *.
    destruct (IH (S n) s1) as (s2 & Hrun2 & Hd2 & Ht2 & Hsc2 & Hstep2).
    { by apply Hstep. }
    { intros k Hk. replace (S n + k)%nat with (n + S k)%nat by lia.
      apply Hq. cbn. lia. }
    exists s2. split; [exact Hrun2|].
    destruct (line_events_facts fb line) as (Hl1 & Hl2 & Hl3).
    rewrite Hd2, Ht2, Hsc2, Hd, Ht, Hsc. cbn [add_events trace].
    rewrite delivered_app, terminations_app, scans_app, Hl1, Hl2, Hl3.
    rewrite (relayed_cons fb line rest), <- app_assoc.
    repeat split; try lia; try done.
    all: replace (n + length (line :: rest))%nat with (S n + length rest)%nat
           by (cbn; lia); by apply Hstep2.
Qed.

(** The read loop when the signal is first seen set at the poll after line
    [j]: the lines up to that one are relayed, the child is terminated once,
    and nothing after line [j] is read, not even a failing read. *)
Lemma read_stdout_cancel fb task fail : forall j ls n s,
  in_step fb task s n ->
  (j < length ls)%nat ->
  (forall k, (k < j)%nat -> signal fb task (n + k) = false) ->
  signal fb task (n + j) = true ->
  exists s',
    SwmmRunInpOrGpkg.read_stdout fb task n ls fail s = (Ret (Some (n + S j)%nat), s')
    /\ delivered (trace s') = delivered (trace s) ++ relayed fb (take (S j) ls)
    /\ terminations (trace s') = S (terminations (trace s))
    /\ scans (trace s') = scans (trace s)
    /\ signal_polls fb task s' = (n + S j)%nat.
Proof.
  induction j as [|j IH]; intros ls n s Hs Hj Hq Hc;
    (destruct ls as [|line rest]; [cbn in Hj; lia|]);
    cbn [SwmmRunInpOrGpkg.read_stdout];
    erewrite bind_run by apply line_events_run;
    destruct (is_canceled_run fb task (add_events s (line_events fb line)) n)
      as (s1 & Hrun & Hd & Ht & Hsc & Hp & Hstep); try done;
    erewrite bind_run by exact Hrun;
    destruct (line_events_facts fb line) as (Hl1 & Hl2 & Hl3).
  - rewrite Nat.add_0_r in Hc. rewrite Hc. rewrite bind_emit. unfold ret.
    eexists; split; [by rewrite Nat.add_1_r|].
    cbn [add_events trace].
    rewrite delivered_app, terminations_app, scans_app, Hd, Ht, Hsc.
    cbn [add_events trace].
    rewrite delivered_app, terminations_app, scans_app, Hl1, Hl2, Hl3.
    cbn [take]. rewrite take_0.
    repeat split; cbn; rewrite ?app_nil_r; try lia; try done.
    unfold signal_polls in *. cbn [add_events feedback_polls task_polls].
    rewrite Hp. unfold signal in Hc. destruct fb, task; try lia.
  - pose proof (Hq 0%nat ltac:(lia)) as H0.
    rewrite Nat.add_0_r in H0. rewrite H0 in *.
    destruct (IH rest (S n) s1) as (s2 & Hrun2 & Hd2 & Ht2 & Hsc2 & Hp2).
    { by apply Hstep. }
    { cbn in Hj. lia. }
    { intros k Hk. replace (S n + k)%nat with (n + S k)%nat by lia. apply Hq. lia. }
    { by replace (S n + j)%nat with (n + S j)%nat by lia. }
    exists s2. split; [rewrite Hrun2; do 3 f_equal; lia|].
    rewrite Hd2, Ht2, Hsc2, Hp2, Hd, Ht, Hsc. cbn [add_events trace].
    rewrite delivered_app, terminations_app, scans_app, Hl1, Hl2, Hl3.
    change (take (S (S j)) (line :: rest)) with (line :: take (S j) rest).
    rewrite (relayed_cons fb line (take (S j) rest)), <- app_assoc.
    repeat split; try lia; done.
Qed.

End Run.

(** ** What the subprocess block and the report scan add to the trace *)

Section Frame.
Import Host.

Variable P : Event -> bool.

Lemma feedback_poll_count_app a b :
  feedback_poll_count (a ++ b) = (feedback_poll_count a + feedback_poll_count b)%nat.
Proof. unfold feedback_poll_count. by rewrite List.filter_app, length_app. Qed.

Lemma task_poll_count_app a b :
  task_poll_count (a ++ b) = (task_poll_count a + task_poll_count b)%nat.
Proof. unfold task_poll_count. by rewrite List.filter_app, length_app. Qed.

Lemma emits_only_ret {A} (a : A) : emits_only P (ret a).
Proof. intros s. exists (Ret a), s, []. rewrite app_nil_r. cbn. repeat split; try done; lia. Qed.

Lemma emits_only_raise {A} e : emits_only P (raise e : M State A).
Proof. intros s. exists (Raise e), s, []. rewrite app_nil_r. cbn. repeat split; try done; lia. Qed.

Lemma emits_only_lift {A} (r : exn + A) : emits_only P (lift r).
Proof. destruct r; [apply emits_only_raise|apply emits_only_ret]. Qed.

Lemma emits_only_emit e : P e = true -> poll_event e = false -> emits_only P (emit e).
Proof.
  intros He Hp s. exists (Ret tt), (add_events s [e]), [e].
  cbn. rewrite He. destruct e; try discriminate Hp; cbn; repeat split; try done; lia.
Qed.

Lemma emits_only_when_feedback fb e :
  P e = true -> poll_event e = false -> emits_only P (when_feedback fb (emit e)).
Proof. destruct fb; [apply emits_only_emit|intros _ _; apply emits_only_ret]. Qed.

Lemma emits_only_bind {A B} (c : M State A) (k : A -> M State B) :
  emits_only P c -> (forall a, emits_only P (k a)) -> emits_only P (x <- c ;; k x).
Proof.
  intros Hc Hk s. destruct (Hc s) as (o & s1 & evs & Hrun & Ho & Ht & Hp & Hf & Hk1).
  unfold bind. rewrite Hrun. destruct o as [a|e|]; [|by exists (Raise e), s1, evs|done].
  destruct (Hk a s1) as (o2 & s2 & evs2 & Hrun2 & Ho2 & Ht2 & Hp2 & Hf2 & Hk2).
  exists o2, s2, (evs ++ evs2).
  rewrite Hrun2, Ht2, Ht, forallb_app, Hp, Hp2, app_assoc, Hf2, Hk2, Hf, Hk1,
    feedback_poll_count_app, task_poll_count_app.
  repeat split; try done; lia.
Qed.

Lemma emits_only_try_except {A} (c : M State A) h :
  emits_only P c -> (forall e, emits_only P (h e)) -> emits_only P (try_except c h).
Proof.
  intros Hc Hh s. destruct (Hc s) as (o & s1 & evs & Hrun & Ho & Ht & Hp & Hf & Hk1).
  unfold try_except. rewrite Hrun. destruct o as [a|e|]; [by exists (Ret a), s1, evs| |done].
  destruct (Hh e s1) as (o2 & s2 & evs2 & Hrun2 & Ho2 & Ht2 & Hp2 & Hf2 & Hk2).
  exists o2, s2, (evs ++ evs2).
  rewrite Hrun2, Ht2, Ht, forallb_app, Hp, Hp2, app_assoc, Hf2, Hk2, Hf, Hk1,
    feedback_poll_count_app, task_poll_count_app.
  repeat split; try done; lia.
Qed.

Lemma emits_only_if {A} (b : bool) (c1 c2 : M State A) :
  emits_only P c1 -> emits_only P c2 -> emits_only P (if b then c1 else c2).
Proof. by destruct b. Qed.

End Frame.

Create HintDb frame.
#[local] Hint Resolve emits_only_ret emits_only_raise emits_only_lift emits_only_emit
  emits_only_when_feedback emits_only_bind emits_only_try_except emits_only_if : frame.

Section FrameOfTheCode.
Import Host.

Lemma emits_only_feedback_isCanceled f : emits_only run_event (feedback_isCanceled f).
Proof.
  intros s. eexists _, _, [_]. unfold feedback_isCanceled. split; [reflexivity|].
  unfold feedback_poll_count, task_poll_count. cbn. repeat split; try done; cbn [length]; lia.
Qed.

Lemma emits_only_task_isCanceled t : emits_only run_event (task_isCanceled t).
Proof.
  intros s. eexists _, _, [_]. unfold task_isCanceled. split; [reflexivity|].
  unfold feedback_poll_count, task_poll_count. cbn. repeat split; try done; cbn [length]; lia.
Qed.

Lemma emits_only_is_canceled fb task :
  emits_only run_event (SwmmRunInpOrGpkg.is_canceled fb task).
Proof.
  unfold SwmmRunInpOrGpkg.is_canceled.
  apply emits_only_bind.
  - destruct fb; [apply emits_only_feedback_isCanceled|apply emits_only_ret].
  - intros [|]; [apply emits_only_ret|].
    apply emits_only_bind.
    + destruct task; [apply emits_only_task_isCanceled|apply emits_only_ret].
    + intros [|]; apply emits_only_ret.
Qed.

Lemma emits_only_read_stdout fb task ls fail : forall n,
  emits_only run_event (SwmmRunInpOrGpkg.read_stdout fb task n ls fail).
Proof.
  induction ls as [|line rest IH]; intros n; cbn [SwmmRunInpOrGpkg.read_stdout].
  - destruct fail; auto with frame.
  - apply emits_only_bind; [auto 10 with frame|]. intros _.
    apply emits_only_bind; [apply emits_only_is_canceled|].
    intros [|]; [auto 10 with frame|apply IH].
Qed.

Lemma emits_only_subprocess_block os args inp fb task :
  emits_only run_event (SwmmRunInpOrGpkg.subprocess_block os args inp fb task).
Proof.
  unfold SwmmRunInpOrGpkg.subprocess_block.
  apply emits_only_bind; [auto with frame|]. intros _.
  apply emits_only_bind; [auto with frame|]. intros proc.
  apply emits_only_try_except; [|auto 10 with frame].
  apply emits_only_bind; [|auto 10 with frame].
  destruct (stdout proc); [apply emits_only_read_stdout|auto with frame].
Qed.

Lemma emits_only_scan_lines fb ls fail : forall c,
  emits_only scan_event (SwmmRunInpOrGpkg.scan_lines fb ls fail c).
Proof.
  induction ls as [|line rest IH]; intros c; cbn [SwmmRunInpOrGpkg.scan_lines].
  - destruct fail; auto with frame.
  - repeat apply emits_only_if; auto 10 with frame.
Qed.

(** The [try] block of [_scan_report]. *)
Lemma emits_only_scan_report_try os p fb :
  emits_only scan_event
    (emit (Open p) ;;
     rpt <- lift (open_r os p) ;;
     rpt_truncated <- SwmmRunInpOrGpkg.scan_lines fb (lines rpt) (failure rpt) 0 ;;
     if rpt_truncated : bool then
       when_feedback fb (emit (PushWarning (Text "..."))) ;;
       emit (LogMessage (Text "...") Warning)
     else ret tt).
Proof.
  apply emits_only_bind; [auto with frame|]. intros _.
  apply emits_only_bind; [auto with frame|]. intros rpt.
  apply emits_only_bind; [apply emits_only_scan_lines|].
  intros [|]; auto 10 with frame.
Qed.

Lemma scan_events_facts evs :
  forallb scan_event evs = true ->
  delivered evs = [] /\ terminations evs = 0%nat /\ scans evs = 0%nat
  /\ feedback_poll_count evs = 0%nat /\ task_poll_count evs = 0%nat.
Proof.
  induction evs as [|e evs IH]; [done|].
  cbn [forallb]. intros [He Hevs]%andb_true_iff.
  destruct (IH Hevs) as (H1 & H2 & H3 & H4 & H5).
  change (e :: evs) with ([e] ++ evs).
  rewrite delivered_app, terminations_app, scans_app, feedback_poll_count_app,
    task_poll_count_app, H1, H2, H3, H4, H5.
  destruct e as [| | |m l| | | | | | | |]; try discriminate He;
    try (destruct l; try discriminate He); try destruct m; repeat split; reflexivity.
Qed.

Lemma run_events_facts evs :
  forallb run_event evs = true -> scans evs = 0%nat /\ diagnostics evs = [].
Proof.
  induction evs as [|e evs IH]; [done|].
  cbn [forallb]. intros [He Hevs]%andb_true_iff.
  destruct (IH Hevs) as (H1 & H2).
  change (e :: evs) with ([e] ++ evs).
  rewrite scans_app, diagnostics_app, H1, H2.
  destruct e as [| | |m l| | | | | | | |]; try discriminate He;
    try (destruct l; try discriminate He); try destruct m; repeat split; reflexivity.
Qed.

(** [_scan_report] returns unless the existence test raises: it asks
    whether the report exists, then adds scan events only, and leaves the
    poll counters alone. *)
Lemma scan_report_run os p fb s :
  exists s' evs,
    SwmmRunInpOrGpkg._scan_report os p fb s = (unless_exists_raises os p tt, s')
    /\ trace s' = trace s ++ PathExists p :: evs
    /\ forallb scan_event evs = true
    /\ feedback_polls s' = feedback_polls s
    /\ task_polls s' = task_polls s.
Proof.
  unfold SwmmRunInpOrGpkg._scan_report, unless_exists_raises. rewrite bind_emit.
  destruct (path_exists os p) as [e|[|]]; cbn [lift];
    [by exists (add_events s [PathExists p]), []|rewrite bind_ret..]; cbn [negb].
  - destruct (emits_only_scan_report_try os p fb (add_events s [PathExists p]))
      as (o & s1 & evs & Hrun & Ho & Ht & Hp & Hf & Hk).
    destruct (scan_events_facts evs Hp) as (_ & _ & _ & Hf0 & Hk0).
    unfold try_except. rewrite Hrun.
    destruct o as [[]|e|]; [| |done].
    + exists s1, evs. rewrite Ht, Hf, Hk, Hf0, Hk0. cbn.
      rewrite <- app_assoc. repeat split; try done; lia.
    + rewrite report_warning_run.
      exists (add_events s1 (report_warning fb (ScanException e))),
        (evs ++ report_warning fb (ScanException e)).
      cbn [add_events trace feedback_polls task_polls].
      rewrite Ht, Hf, Hk, Hf0, Hk0, forallb_app, Hp. cbn [add_events trace].
      rewrite <- !app_assoc. repeat split; try done; try lia. by destruct fb.
  - exists (add_events s [PathExists p]), []. done.
Qed.

End FrameOfTheCode.

(** ** [_run_swmm_process] *)

Section RunProcess.
Import Host.

Variable os : OS.
Variables (args : list string) (inp report : string).
Variables (fb task : option Cancellable).

Abbreviation block := (SwmmRunInpOrGpkg.subprocess_block os args inp fb task).
Abbreviation run := (SwmmRunInpOrGpkg._run_swmm_process os args inp report fb task).

(** When the block returns, the report is scanned, and the exit code
    returned unless the existence test of the scan raises. *)
Lemma run_block_returns s code s1 :
  block s = (Ret code, s1) ->
  run s = (unless_exists_raises os report code,
           (SwmmRunInpOrGpkg._scan_report os report fb s1).2).
Proof.
  intros H. unfold SwmmRunInpOrGpkg._run_swmm_process.
  erewrite bind_run; cycle 1.
  { apply try_except_run. erewrite bind_run by exact H. reflexivity. }
  cbn beta iota.
  destruct (scan_report_run os report fb s1) as (s2 & evs & Hrun & _).
  unfold bind. rewrite Hrun. unfold unless_exists_raises.
  by destruct (path_exists os report).
Qed.

(** When the block raises, the exception is reported and 1 returned. *)
Lemma run_block_raises s e s1 :
  block s = (Raise e, s1) ->
  run s = (Ret 1%Z, add_events s1 (report_exception fb e)).
Proof.
  intros H. unfold SwmmRunInpOrGpkg._run_swmm_process.
  erewrite bind_run; cycle 1.
  { erewrite try_except_raise by (erewrite bind_raise by exact H; reflexivity).
    instantiate (1 := add_events s1 (report_exception fb e)). instantiate (1 := None).
    destruct fb; unfold report_exception, bind, when_feedback, emit, modify, ret, add_events;
      simpl; rewrite <- ?app_assoc; reflexivity. }
  reflexivity.
Qed.

Lemma block_launch_fails s e :
  popen os args (parent os inp) = inl e ->
  block s = (Raise e, add_events s [Popen args (parent os inp)]).
Proof.
  intros H. unfold SwmmRunInpOrGpkg.subprocess_block.
  rewrite bind_emit, H. reflexivity.
Qed.

Lemma block_reads s proc ls fail :
  popen os args (parent os inp) = inr proc ->
  stdout proc = Some {| lines := ls; failure := fail |} ->
  block s
  = match SwmmRunInpOrGpkg.read_stdout fb task 0 ls fail
            (add_events s [Popen args (parent os inp)]) with
    | (Ret terminated, s1) => (Ret (wait proc terminated), add_events s1 [Wait; PopenExit])
    | (Raise e, s1) => (Raise e, add_events s1 [PopenExit])
    | (OutOfFuel, s1) => (OutOfFuel, s1)
    end.
Proof.
  intros H Hout. unfold SwmmRunInpOrGpkg.subprocess_block.
  rewrite bind_emit, H. cbn [lift]. rewrite bind_ret, Hout. cbn [lines failure].
  unfold try_except, bind.
  destruct (SwmmRunInpOrGpkg.read_stdout _ _ _ _ _ _) as [[t|e|] s1]; cbn;
    rewrite <- ?app_assoc; reflexivity.
Qed.

End RunProcess.

Section C7.
Import Host.

Lemma in_step_initial fb task evs : in_step fb task (add_events initial evs) 0.
Proof. done. Qed.

(** C7, as stated, fails in its last part: in the sample run the signal
    is found set at the poll after the second line and the child is
    terminated, but the report lies where its existence cannot be tested,
    and the run does not return: the [OSError] of [Path.exists], called
    before the [try] block of the scan, leaves [_run_swmm_process]. *)
Lemma C7_counterexample :
  let run := SwmmRunInpOrGpkg._run_swmm_process locked_os
               ["runswmm.exe"; "m.inp"; "m.rpt"; "m.out"]
               "m.inp" "m.rpt" (Some sample_feedback) None initial in
  signal (Some sample_feedback) None 0 = false
  /\ signal (Some sample_feedback) None 1 = true
  /\ terminations (trace run.2) = 1%nat
  /\ run.1 = Raise permission_denied
  /\ ~ exists code, run.1 = Ret code.
Proof.
  cbv zeta. repeat split; try reflexivity.
  intros [code H]. vm_compute in H. discriminate H.
Qed.

(** C7, amended. In a run of [_run_swmm_process] whose child was launched
    and prints the lines [ls], the cancellation signal is polled once per
    line read. When the poll after line [j] is the first to find it set, the
    child is terminated once and the observers, the feedback object and the
    message log, have received the non-blank lines up to line [j] and no
    later one; the run then ends with the report scan: it returns the exit
    code of the terminated child when the existence test of the report file
    answers, and raises what that test raises otherwise. When no poll finds
    the signal set, every non-blank line is delivered and the child is never
    terminated. A child that prints nothing is not polled for and not
    terminated, whatever the signal. *)
Theorem C7_cancellation_polled_per_line
    (os : OS) (args : list string) (inp report : string)
    (fb task : option Cancellable) (proc : Process)
    (ls : list string) (fail : option exn) :
  popen os args (parent os inp) = inr proc ->
  stdout proc = Some {| lines := ls; failure := fail |} ->
  let run := SwmmRunInpOrGpkg._run_swmm_process os args inp report fb task initial in
  (forall j,
     (j < length ls)%nat ->
     (forall k, (k < j)%nat -> signal fb task k = false) ->
     signal fb task j = true ->
     run.1 = unless_exists_raises os report (wait proc (Some (S j)))
     /\ delivered (trace run.2) = relayed fb (take (S j) ls)
     /\ terminations (trace run.2) = 1%nat
     /\ signal_polls fb task run.2 = S j)
  /\ (fail = None ->
      (forall k, (k < length ls)%nat -> signal fb task k = false) ->
      run.1 = unless_exists_raises os report (wait proc None)
      /\ delivered (trace run.2) = relayed fb ls
      /\ terminations (trace run.2) = 0%nat
      /\ (is_Some fb \/ is_Some task -> signal_polls fb task run.2 = length ls))
  /\ (ls = [] -> fail = None ->
      run.1 = unless_exists_raises os report (wait proc None)
      /\ delivered (trace run.2) = []
      /\ terminations (trace run.2) = 0%nat
      /\ feedback_polls run.2 = 0%nat /\ task_polls run.2 = 0%nat).
Proof.
  intros Hpopen Hout. cbv zeta.
  pose proof (block_reads os args inp fb task initial proc ls fail Hpopen Hout) as Hblock.
  split; [|split].
  - intros j Hj Hq Hc.
    destruct (read_stdout_cancel fb task fail j ls 0
                (add_events initial [Popen args (parent os inp)]))
      as (s1 & Hread & Hd & Ht & _ & Hp); try done.
    rewrite Hread in Hblock.
    rewrite (run_block_returns _ _ _ _ _ _ _ _ _ Hblock).
    destruct (scan_report_run os report fb (add_events s1 [Wait; PopenExit]))
      as (s2 & evs & Hscan & Htr & Hev & Hf & Hk).
    rewrite Hscan. cbn [fst snd].
    destruct (scan_events_facts evs Hev) as (He1 & He2 & _).
    rewrite Htr. cbn [add_events trace].
    change (PathExists report :: evs) with ([PathExists report] ++ evs).
    rewrite !delivered_app, !terminations_app, Hd, Ht, He1, He2.
    cbn. rewrite !app_nil_r.
    repeat split; try done.
    unfold signal_polls in *. rewrite Hf, Hk. exact Hp.
  - intros -> Hq.
    destruct (read_stdout_all fb task None ls 0
                (add_events initial [Popen args (parent os inp)]))
      as (s1 & Hread & Hd & Ht & _ & Hp); try done.
    rewrite Hread in Hblock.
    rewrite (run_block_returns _ _ _ _ _ _ _ _ _ Hblock).
    destruct (scan_report_run os report fb (add_events s1 [Wait; PopenExit]))
      as (s2 & evs & Hscan & Htr & Hev & Hf & Hk).
    rewrite Hscan. cbn [fst snd].
    destruct (scan_events_facts evs Hev) as (He1 & He2 & _).
    rewrite Htr. cbn [add_events trace].
    change (PathExists report :: evs) with ([PathExists report] ++ evs).
    rewrite !delivered_app, !terminations_app, Hd, Ht, He1, He2.
    cbn. rewrite !app_nil_r.
    repeat split; try done.
    destruct Hp as [Hp1 Hp2]. unfold signal_polls. rewrite Hf, Hk.
    intros [H|H]; destruct fb, task; try (by destruct H); auto.
  - intros -> ->. cbn [SwmmRunInpOrGpkg.read_stdout] in Hblock. unfold ret in Hblock.
    rewrite (run_block_returns _ _ _ _ _ _ _ _ _ Hblock).
    destruct (scan_report_run os report fb
                (add_events (add_events initial [Popen args (parent os inp)]) [Wait; PopenExit]))
      as (s2 & evs & Hscan & Htr & Hev & Hf & Hk).
    rewrite Hscan. cbn [fst snd].
    destruct (scan_events_facts evs Hev) as (He1 & He2 & _).
    rewrite Htr, Hf, Hk. cbn [add_events trace].
    change (PathExists report :: evs) with ([PathExists report] ++ evs).
    rewrite !delivered_app, !terminations_app, He1, He2. done.
Qed.

(** The theorem at the sample run: the signal is found set at the poll
    after the second line, so that only ["A"] is delivered, to the feedback
    object and to the log; the report does not exist and the run returns. *)
Lemma C7_cancellation_polled_per_line_witness :
  let run := SwmmRunInpOrGpkg._run_swmm_process sample_os ["runswmm.exe"; "m.inp"; "m.rpt"; "m.out"]
               "m.inp" "m.rpt" (Some sample_feedback) None initial in
  run.1 = Ret 15%Z
  /\ delivered (trace run.2) = [(Feedback, "A"); (MessageLog, "A")]
  /\ terminations (trace run.2) = 1%nat
  /\ signal_polls (Some sample_feedback) None run.2 = 2%nat.
Proof.
  cbv zeta.
  pose proof (C7_cancellation_polled_per_line sample_os
                ["runswmm.exe"; "m.inp"; "m.rpt"; "m.out"] "m.inp" "m.rpt"
                (Some sample_feedback) None sample_child
                ["A  "; "   "; "B"; "C"] None eq_refl eq_refl) as H.
  cbv zeta in H. destruct H as [H _].
  apply (H 1%nat).
  - cbn. lia.
  - intros k Hk. assert (k = 0%nat) as -> by lia. reflexivity.
  - reflexivity.
Defined.

End C7.

Section C10.
Import Host.

Lemma scans_report_exception fb e : scans (report_exception fb e) = 0%nat.
Proof. by destruct fb. Qed.

(** C10. In swmm_run_inp_or_gpkg.py the report scan is entered exactly
    when the subprocess block completes without raising. The block itself
    never scans. When it returns an exit code, whatever the code and also
    after a cancellation, [_run_swmm_process] scans the report once and
    returns that code (the scan starts with the existence test of the
    report file, and an exception of that test ends the run in its place);
    when it raises, [_run_swmm_process] reports the exception, returns 1 and
    does not scan. The block raises when the child cannot be launched and
    when reading its output fails; it returns when the output ends or the
    run is cancelled. *)
Theorem C10_scan_exactly_when_block_completes
    (os : OS) (args : list string) (inp report : string) (fb task : option Cancellable) :
  let blk := SwmmRunInpOrGpkg.subprocess_block os args inp fb task initial in
  let run := SwmmRunInpOrGpkg._run_swmm_process os args inp report fb task initial in
  scans (trace blk.2) = 0%nat
  /\ match blk.1 with
     | Ret code =>
       run.1 = unless_exists_raises os report code /\ scans (trace run.2) = 1%nat
       /\ run.2 = (SwmmRunInpOrGpkg._scan_report os report fb blk.2).2
     | Raise e =>
       run.1 = Ret 1%Z /\ scans (trace run.2) = 0%nat
       /\ run.2 = add_events blk.2 (report_exception fb e)
     | OutOfFuel => False
     end
  /\ (forall e, popen os args (parent os inp) = inl e -> blk.1 = Raise e)
  /\ (forall proc ls e,
        popen os args (parent os inp) = inr proc ->
        stdout proc = Some {| lines := ls; failure := Some e |} ->
        (forall k, (k < length ls)%nat -> signal fb task k = false) ->
        blk.1 = Raise e)
  /\ (forall proc ls,
        popen os args (parent os inp) = inr proc ->
        stdout proc = Some {| lines := ls; failure := None |} ->
        (forall k, (k < length ls)%nat -> signal fb task k = false) ->
        blk.1 = Ret (wait proc None))
  /\ (forall proc ls fail j,
        popen os args (parent os inp) = inr proc ->
        stdout proc = Some {| lines := ls; failure := fail |} ->
        (j < length ls)%nat ->
        (forall k, (k < j)%nat -> signal fb task k = false) ->
        signal fb task j = true ->
        blk.1 = Ret (wait proc (Some (S j)))).
Proof.
  cbv zeta. split; [|split; [|split; [|split; [|split]]]].
  - destruct (emits_only_subprocess_block os args inp fb task initial)
      as (o & s1 & evs & Hrun & Ho & Ht & Hp & _).
    rewrite Hrun. cbn [snd]. rewrite Ht. cbn. by apply run_events_facts.
  - destruct (emits_only_subprocess_block os args inp fb task initial)
      as (o & s1 & evs & Hrun & Ho & Ht & Hp & _).
    destruct (run_events_facts evs Hp) as [Hsc _].
    rewrite Hrun. cbn [fst snd]. destruct o as [code|e|]; [| |done].
    + rewrite (run_block_returns _ _ _ _ _ _ _ _ _ Hrun). cbn [fst snd].
      destruct (scan_report_run os report fb s1) as (s2 & evs2 & Hscan & Htr & Hev & _).
      destruct (scan_events_facts evs2 Hev) as (_ & _ & Hsc2 & _).
      rewrite Hscan. cbn [snd]. rewrite Htr, Ht. cbn [initial trace app].
      change (PathExists report :: evs2) with ([PathExists report] ++ evs2).
      rewrite !scans_app, Hsc, Hsc2. done.
    + rewrite (run_block_raises _ _ _ _ _ _ _ _ _ Hrun). cbn [fst snd add_events trace].
      rewrite Ht. cbn [initial trace app].
      rewrite scans_app, Hsc, scans_report_exception. done.
  - intros e He. by rewrite (block_launch_fails _ _ _ _ _ _ _ He).
  - intros proc ls e Hpopen Hout Hq.
    rewrite (block_reads _ _ _ _ _ _ _ _ _ Hpopen Hout).
    destruct (read_stdout_all fb task (Some e) ls 0
                (add_events initial [Popen args (parent os inp)]))
      as (s1 & Hread & _); try done.
    by rewrite Hread.
  - intros proc ls Hpopen Hout Hq.
    rewrite (block_reads _ _ _ _ _ _ _ _ _ Hpopen Hout).
    destruct (read_stdout_all fb task None ls 0
                (add_events initial [Popen args (parent os inp)]))
      as (s1 & Hread & _); try done.
    by rewrite Hread.
  - intros proc ls fail j Hpopen Hout Hj Hq Hc.
    rewrite (block_reads _ _ _ _ _ _ _ _ _ Hpopen Hout).
    destruct (read_stdout_cancel fb task fail j ls 0
                (add_events initial [Popen args (parent os inp)]))
      as (s1 & Hread & _); try done.
    by rewrite Hread.
Qed.

(** The theorem at a launch that fails, at a child whose output cannot be
    decoded after its first line, at the sample child left alone and at the
    sample child cancelled after its second line. *)
Lemma C10_scan_exactly_when_block_completes_witness :
  let no_exe := os_with_child (inl (Exn OSError "[WinError 2] file not found")) sample_os in
  let garbled :=
    os_with_child
      (inr {| stdout := Some {| lines := ["A"];
                                failure := Some (Exn UnicodeDecodeError "invalid start byte") |};
              wait := fun _ => 0%Z |}) sample_os in
  (SwmmRunInpOrGpkg.subprocess_block no_exe ["runswmm.exe"] "m.inp" None None initial).1
  = Raise (Exn OSError "[WinError 2] file not found")
  /\ (SwmmRunInpOrGpkg.subprocess_block garbled ["runswmm.exe"] "m.inp" None None initial).1
     = Raise (Exn UnicodeDecodeError "invalid start byte")
  /\ (SwmmRunInpOrGpkg.subprocess_block sample_os ["runswmm.exe"] "m.inp" None None initial).1
     = Ret 0%Z
  /\ (SwmmRunInpOrGpkg.subprocess_block sample_os ["runswmm.exe"] "m.inp"
        None (Some sample_feedback) initial).1
     = Ret 15%Z.
Proof.
  cbv zeta. split; [|split; [|split]].
  - apply (C10_scan_exactly_when_block_completes
             (os_with_child (inl (Exn OSError "[WinError 2] file not found")) sample_os)
             ["runswmm.exe"] "m.inp" "m.rpt" None None).
    reflexivity.
  - eapply (C10_scan_exactly_when_block_completes
              (os_with_child
                 (inr {| stdout := Some {| lines := ["A"];
                                           failure := Some (Exn UnicodeDecodeError "invalid start byte") |};
                         wait := fun _ => 0%Z |}) sample_os)
              ["runswmm.exe"] "m.inp" "m.rpt" None None).
    + reflexivity.
    + reflexivity.
    + intros k Hk. reflexivity.
  - pose proof (C10_scan_exactly_when_block_completes sample_os
                  ["runswmm.exe"] "m.inp" "m.rpt" None None) as H.
    cbv zeta in H. destruct H as (_ & _ & _ & _ & H & _).
    apply (H sample_child ["A  "; "   "; "B"; "C"]).
    + reflexivity.
    + reflexivity.
    + intros k Hk. reflexivity.
  - pose proof (C10_scan_exactly_when_block_completes sample_os
                  ["runswmm.exe"] "m.inp" "m.rpt" None (Some sample_feedback)) as H.
    cbv zeta in H. destruct H as (_ & _ & _ & _ & _ & H).
    apply (H sample_child ["A  "; "   "; "B"; "C"] None 1%nat).
    + reflexivity.
    + reflexivity.
    + cbn. lia.
    + intros k Hk. assert (k = 0%nat) as -> by lia. reflexivity.
    + reflexivity.
Defined.

End C10.

(** ** The loop of [DownloaderQGIS.download] *)

Section DownloadLoop.
Import Downloader Downloader.DownloaderQGIS.

Variable net : nat -> QNetworkReply.
Variable req : QNetworkRequest.
Variable old : option string.
Variable retry_count : Z.
Variable retry_interval : list N.
Variable validator : option (list byte -> bool).

Abbreviation loop := (download_loop net req old retry_count retry_interval validator).

(** One iteration, evaluated on a symbolic state. *)
Ltac iteration :=
  cbn [download_loop];
  unfold bind, netman_get, restore_user_agent, set_ret_code, set_error_string,
    gets, modify, logger_info, sleep, emit, getitem, ret, raise, out_of_fuel,
    with_self, QSettings_setValue, QSettings_remove, with_qsettings;
  cbn -[insert delete Z.ltb Z.add download_loop].

Ltac branches :=
  repeat match goal with
         | |- context [old_user_agent_truthy ?o] =>
           destruct (old_user_agent_truthy o);
           cbn -[insert delete Z.ltb Z.add download_loop]
         | |- context [bool_decide (?a = Some 200%Z)] =>
           destruct (bool_decide_reflect (a = Some 200%Z));
           cbn -[insert delete Z.ltb Z.add download_loop]
         | |- context [rejected ?v ?d] =>
           destruct (rejected v d) eqn:?;
           cbn -[insert delete Z.ltb Z.add download_loop]
         | |- context [(?a <? ?b)%Z] =>
           destruct (Z.ltb_spec a b);
           cbn -[insert delete Z.ltb Z.add download_loop]
         | |- context [Py.index ?l ?i] =>
           destruct (Py.index l i) eqn:?;
           cbn -[insert delete Z.ltb Z.add download_loop]
         end.

Lemma steps_app a b : steps (a ++ b) = steps a ++ steps b.
Proof. apply omap_app. Qed.

Lemma index_nat {A} (l : list A) (i : nat) : Py.index l (Z.of_nat i) = l !! i.
Proof.
  unfold Py.index. destruct (Z.ltb_spec (Z.of_nat i) 0); [lia|].
  by rewrite Nat2Z.id.
Qed.

(** The result is ok only with an empty error string: the loop sets the
    error string only where it leaves with a status that is not 200. *)
Lemma loop_ok_invariant : forall fuel try_count data s,
  error_string (self s) = "" ->
  ret_code (self (loop fuel try_count data s).2) = Some 200%Z ->
  error_string (self (loop fuel try_count data s).2) = "".
Proof.
  induction fuel as [|fuel IH]; intros try_count data s Hs; [done|].
  iteration. branches; try done; try (apply IH; done).
Qed.


(** When every attempt fails, by its status or by the validator, and the
    schedule covers the retries, the loop makes the first attempt and then
    one more after each wait of the schedule, up to [retry_count] retries,
    and leaves with the last reply. Here [i] retries were made before and
    [d] are left. *)
Lemma loop_all_fail : forall d i fuel dat s,
  (i + d = Z.to_nat retry_count)%nat ->
  (Z.to_nat retry_count <= length retry_interval)%nat ->
  (d < fuel)%nat ->
  (forall k, fails validator (net k) = true) ->
  let last := net (n_get s + d) in
  exists data' s',
    loop fuel (Z.of_nat i - 1) dat s = (Ret (last, data'), s')
    /\ n_get s' = (n_get s + d + 1)%nat
    /\ steps (trace s') = steps (trace s) ++ retry_steps (take d (drop i retry_interval))
    /\ url (self s') = url (self s)
    /\ headers (self s') = headers (self s)
    /\ data (self s') = data (self s)
    /\ ret_code (self s')
       = (if bool_decide (attribute_status last = Some 200%Z) then None
          else attribute_status last)
    /\ error_string (self s')
       = (if bool_decide (attribute_status last = Some 200%Z) then invalid_or_incomplete
          else errorString last).
Proof.
  induction d as [|d IH]; intros i fuel dat s Hi Hcover Hfuel Hfail; cbv zeta;
    (destruct fuel as [|fuel]; [lia|]);
    iteration; replace (Z.of_nat i - 1 + 1)%Z with (Z.of_nat i) by lia;
    pose proof (Hfail (n_get s)) as Hq; unfold fails in Hq.
  - rewrite Nat.add_0_r.
    branches; try lia;
      try (rewrite bool_decide_eq_true_2 in Hq by done; cbn in Hq; congruence);
      eexists _, _; (split; [reflexivity|]); cbn;
      rewrite ?bool_decide_eq_true_2, ?bool_decide_eq_false_2 by done;
      rewrite !steps_app; cbn; rewrite ?app_nil_r;
      repeat split; try done; lia.
  - assert (Hlook : is_Some (retry_interval !! i)) by (apply lookup_lt_is_Some; lia).
    destruct Hlook as [t Ht].
    rewrite index_nat, Ht.
    rewrite (drop_S _ _ _ Ht). cbn [take].
    branches; try lia;
      try (rewrite bool_decide_eq_true_2 in Hq by done; cbn in Hq; congruence);
      replace (Z.of_nat i) with (Z.of_nat (S i) - 1)%Z by lia;
      (edestruct (IH (S i) fuel) as (d' & s' & -> & Hn & Hst & Hu & Hh & Hd & Hr & He);
       [lia|exact Hcover|lia|exact Hfail|]);
      cbn [n_get] in *;
      replace (S (n_get s) + d)%nat with (n_get s + S d)%nat in * by lia;
      eexists _, _; (split; [reflexivity|]);
      rewrite Hn, Hst, Hu, Hh, Hd, Hr, He; cbn;
      rewrite !steps_app; cbn; rewrite ?app_nil_r, <- ?app_assoc;
      repeat split; try done; try lia;
      by rewrite ?bool_decide_eq_true_2, ?bool_decide_eq_false_2 by done.
Qed.

(** The fuel [download] gives the loop is never used up: each iteration
    that goes on has a retry left. *)
Lemma loop_fuel_suffices : forall fuel i dat s,
  (Z.to_nat retry_count - i < fuel)%nat ->
  (loop fuel (Z.of_nat i - 1) dat s).1 <> OutOfFuel.
Proof.
  induction fuel as [|fuel IH]; intros i dat s Hfuel; [lia|].
  iteration. replace (Z.of_nat i - 1 + 1)%Z with (Z.of_nat i) by lia.
  branches; try done;
    replace (Z.of_nat i) with (Z.of_nat (S i) - 1)%Z by lia; apply IH; lia.
Qed.

(** A first attempt that is answered with 200 and accepted ends the loop. *)
Lemma loop_first_success fuel try_count dat s :
  attribute_status (net (n_get s)) = Some 200%Z ->
  rejected validator (readAll (net (n_get s))) = false ->
  exists s',
    loop (S fuel) try_count dat s = (Ret (net (n_get s), readAll (net (n_get s))), s')
    /\ self s' = {| url := url (self s); headers := headers (self s);
                    data := Downloader.data (self s);
                    ret_code := Some 200%Z; error_string := error_string (self s) |}
    /\ n_get s' = S (n_get s)
    /\ steps (trace s') = steps (trace s) ++ [Attempt].
Proof.
  intros Hst Hrej. iteration. rewrite Hst.
  rewrite bool_decide_eq_true_2 by done. cbn -[insert delete]. rewrite Hrej.
  destruct (old_user_agent_truthy old); cbn -[insert delete];
    (eexists; split; [reflexivity|]); cbn; rewrite steps_app; done.
Qed.

(** Every iteration puts the user agent setting back the same way, so one
    iteration decides what the loop leaves in the settings. *)
Lemma loop_settings_kept : forall fuel try_count dat s m,
  qsettings s = (if old_user_agent_truthy old then <[userAgent := default "" old]> m
                 else delete userAgent m) ->
  qsettings (loop fuel try_count dat s).2 = qsettings s.
Proof.
  destruct (old_user_agent_truthy old) eqn:Hold;
    (induction fuel as [|fuel IH]; intros try_count dat s m Hs; [done|]);
    iteration; rewrite Hold; cbn -[insert delete Z.ltb Z.add download_loop];
    branches; cbn -[insert delete download_loop];
    try (etrans; [apply (IH _ _ _ m); cbn -[insert delete]|]; cbn -[insert delete]);
    rewrite Hs; first [apply insert_insert_eq | apply delete_delete_eq].
Qed.

Lemma loop_settings fuel try_count dat s :
  qsettings (loop (S fuel) try_count dat s).2
  = (if old_user_agent_truthy old then <[userAgent := default "" old]> (qsettings s)
     else delete userAgent (qsettings s)).
Proof.
  iteration.
  destruct (old_user_agent_truthy old) eqn:Hold;
    cbn -[insert delete Z.ltb Z.add download_loop];
    branches; cbn -[insert delete download_loop]; try reflexivity;
    (etrans; [eapply loop_settings_kept; rewrite Hold; cbn -[insert delete]; reflexivity|]);
    reflexivity.
Qed.

End DownloadLoop.

(** ** [DownloaderQGIS.download] *)

Section Download.
Import Downloader Downloader.DownloaderQGIS.

Variable net : nat -> QNetworkReply.

Lemma errorString_truthy q : Py.truthy (errorString q) = true.
Proof. unfold errorString. by destruct (Py.truthy (device_error q)) eqn:H. Qed.

Lemma truthy_nonempty x : Py.truthy x = true -> x <> "".
Proof. by destruct x. Qed.

Lemma ok_iff d : ok d = true <-> ret_code d = Some 200%Z.
Proof.
  unfold ok. destruct (ret_code d) as [c|]; [|done].
  rewrite Z.eqb_eq. split; [by intros ->|by intros [= ->]].
Qed.

(** The loop over the headers only touches the settings. *)
Lemma set_headers_run hs : forall req old s,
  exists req' old' s',
    set_headers hs req old s = (Ret (req', old'), s')
    /\ self s' = self s /\ n_get s' = n_get s /\ trace s' = trace s.
Proof.
  induction hs as [|[k v] hs IH]; intros req old s; cbn [set_headers].
  - by exists req, old, s.
  - destruct (String.eqb k "User-Agent"); [|apply IH].
    unfold bind at 1, QSettings_contains, gets.
    destruct (bool_decide _);
      unfold bind, QSettings_value, QSettings_setValue, gets, modify, ret;
      edestruct IH as (req' & old' & s' & -> & Hs & Hn & Ht);
      by exists req', old', s'.
Qed.

(** A download all of whose attempts fail. *)
Lemma download_all_fail retry_count retry_interval validator u hs settings :
  (Z.to_nat retry_count <= length retry_interval)%nat ->
  (forall k, fails validator (net k) = true) ->
  let last := net (Z.to_nat retry_count) in
  let r := download net retry_count retry_interval validator (constructed u hs settings) in
  r.1 = Ret tt
  /\ n_get r.2 = (Z.to_nat retry_count + 1)%nat
  /\ steps (trace r.2) = retry_steps (take (Z.to_nat retry_count) retry_interval)
  /\ Downloader.data (self r.2) = DataNone
  /\ ret_code (self r.2)
     = (if bool_decide (attribute_status last = Some 200%Z) then None
        else attribute_status last)
  /\ error_string (self r.2)
     = (if bool_decide (attribute_status last = Some 200%Z) then invalid_or_incomplete
        else errorString last).
Proof.
  intros Hcover Hfail. cbv zeta. unfold download.
  rewrite !bind_gets.
  destruct (set_headers_run (headers (self (constructed u hs settings)))
              {| req_url := url (self (constructed u hs settings)); req_raw_headers := ∅ |}
              None (constructed u hs settings))
    as (req' & old' & s1 & Hrun & Hself & Hn & Htr).
  erewrite bind_run by exact Hrun. cbn [fst snd].
  destruct (loop_all_fail net req' old' retry_count retry_interval validator
              (Z.to_nat retry_count) 0 (loop_fuel retry_count) [] s1)
    as (d' & s2 & Hloop & Hn2 & Hst & _ & _ & Hd & Hr & He);
    [lia|exact Hcover|unfold loop_fuel; lia|exact Hfail|].
  change (Z.of_nat 0 - 1)%Z with (-1)%Z in Hloop.
  erewrite bind_run by exact Hloop. cbn [fst snd].
  rewrite bind_gets.
  rewrite Hn in *. rewrite Htr, drop_0 in Hst. rewrite Hself in Hd.
  cbn [constructed n_get trace self __init__ Downloader.data] in *.
  rewrite Nat.add_0_l in *.
  assert (Py.truthy (error_string (self s2)) = true) as ->.
  { rewrite He. destruct (bool_decide _); [done|apply errorString_truthy]. }
  unfold ret. cbn [fst snd]. by rewrite Hn2, Hst, Hd, Hr, He.
Qed.

End Download.

Section C1.
Import Downloader Downloader.DownloaderQGIS.

(** C1. With a maximum of [N >= 0] retries and a wait schedule of at least
    [N] entries, a download all of whose attempts end with a status other
    than 200 makes exactly [N + 1] GET attempts, sleeps the [k]-th wait of
    the schedule after the [k]-th failed attempt, and returns with a result
    that is not ok and whose error string, the error description of the
    last reply, is not empty. *)
Theorem C1_always_failing_fetch
    (net : nat -> QNetworkReply) (N : Z) (schedule : list N.t)
    (validator : option (list byte -> bool))
    (u : string) (hs : option (list (string * string))) (settings : gmap string string) :
  (0 <= N)%Z ->
  (Z.to_nat N <= length schedule)%nat ->
  (forall k, attribute_status (net k) <> Some 200%Z) ->
  let r := download net N schedule validator (constructed u hs settings) in
  r.1 = Ret tt
  /\ n_get r.2 = (Z.to_nat N + 1)%nat
  /\ steps (trace r.2) = retry_steps (take (Z.to_nat N) schedule)
  /\ ok (self r.2) = false
  /\ error_string (self r.2) = errorString (net (Z.to_nat N))
  /\ error_string (self r.2) <> "".
Proof.
  intros HN Hcover Hstatus. cbv zeta.
  destruct (download_all_fail net N schedule validator u hs settings Hcover)
    as (Hret & Hn & Hst & _ & Hr & He).
  { intros k. unfold fails. by rewrite bool_decide_eq_false_2. }
  rewrite bool_decide_eq_false_2 in Hr, He by done.
  repeat split; try done.
  - destruct (ok _) eqn:Hok; [|done].
    apply ok_iff in Hok. rewrite Hr in Hok. by destruct (Hstatus (Z.to_nat N)).
  - rewrite He. apply truthy_nonempty, errorString_truthy.
Qed.

(** The theorem at two retries with waits of 5 and 10 seconds against a
    server that answers 404. *)
Lemma C1_always_failing_fetch_witness :
  let r := download (fun _ => reply_404) 2 [5; 10; 15]%N None
             (constructed "https://data.arr-software.org" None ∅) in
  r.1 = Ret tt
  /\ n_get r.2 = 3%nat
  /\ steps (trace r.2) = [Attempt; Pause 5; Attempt; Pause 10; Attempt]
  /\ ok (self r.2) = false
  /\ error_string (self r.2) = "server replied: Not Found"
  /\ error_string (self r.2) <> "".
Proof.
  cbv zeta.
  apply (C1_always_failing_fetch (fun _ => reply_404) 2 [5; 10; 15]%N None
           "https://data.arr-software.org" None ∅).
  - lia.
  - cbn. lia.
  - intros k. discriminate.
Defined.

End C1.

Section C4.
Import Downloader Downloader.DownloaderQGIS.

(** C4, as stated, fails: with a validator that rejects every payload and a
    schedule that covers the one retry allowed, a server that answers 404
    leaves the status code 404 and the error description of the reply in
    the result; the validator is not consulted for a reply without
    status 200. *)
Lemma C4_counterexample :
  let r := download (fun _ => reply_404) 1 [5]%N rejects_all
             (constructed "https://data.arr-software.org" None ∅) in
  r.1 = Ret tt
  /\ ret_code (self r.2) = Some 404%Z
  /\ error_string (self r.2) = "server replied: Not Found"
  /\ ~ (ret_code (self r.2) = None /\ error_string (self r.2) = invalid_or_incomplete).
Proof.
  cbv zeta. vm_compute. repeat split; try reflexivity. intros [H _]. discriminate H.
Qed.

(** C4, amended. With a schedule that covers the maximum retry count and a
    validator that rejects every payload, a download whose last attempt is
    answered with status 200 ends, after the first attempt and all retries,
    with no status code and the error string
    ["Downloaded data is invalid or incomplete."]; the result is not ok. *)
Theorem C4_validator_rejects_all
    (net : nat -> QNetworkReply) (N : Z) (schedule : list N.t)
    (validator : list byte -> bool)
    (u : string) (hs : option (list (string * string))) (settings : gmap string string) :
  (Z.to_nat N <= length schedule)%nat ->
  (forall payload, validator payload = false) ->
  attribute_status (net (Z.to_nat N)) = Some 200%Z ->
  let r := download net N schedule (Some validator) (constructed u hs settings) in
  r.1 = Ret tt
  /\ n_get r.2 = (Z.to_nat N + 1)%nat
  /\ ret_code (self r.2) = None
  /\ error_string (self r.2) = "Downloaded data is invalid or incomplete."
  /\ ok (self r.2) = false.
Proof.
  intros Hcover Hrej Hlast. cbv zeta.
  destruct (download_all_fail net N schedule (Some validator) u hs settings Hcover)
    as (Hret & Hn & _ & _ & Hr & He).
  { intros k. unfold fails, rejected. rewrite Hrej. apply orb_true_r. }
  rewrite bool_decide_eq_true_2 in Hr, He by done.
  repeat split; try done. unfold ok. by rewrite Hr.
Qed.

(** The theorem at one retry against a server that answers 200. *)
Lemma C4_validator_rejects_all_witness :
  let r := download (fun _ => reply_200 ["{"%byte] []) 1 [5]%N rejects_all
             (constructed "https://data.arr-software.org" None ∅) in
  r.1 = Ret tt
  /\ n_get r.2 = 2%nat
  /\ ret_code (self r.2) = None
  /\ error_string (self r.2) = "Downloaded data is invalid or incomplete."
  /\ ok (self r.2) = false.
Proof.
  cbv zeta.
  apply (C4_validator_rejects_all (fun _ => reply_200 ["{"%byte] []) 1 [5]%N
           (fun _ => false) "https://data.arr-software.org" None ∅).
  - cbn. lia.
  - reflexivity.
  - reflexivity.
Defined.

End C4.

Section C5.
Import Downloader Downloader.DownloaderQGIS.

Lemma set_headers_no_user_agent hs : forall req old s,
  no_user_agent hs = true ->
  exists req', set_headers hs req old s = (Ret (req', old), s).
Proof.
  induction hs as [|[k v] hs IH]; intros req old s H; cbn [set_headers].
  - by exists req.
  - cbn in H. apply andb_true_iff in H as [Hk H].
    destruct (String.eqb k "User-Agent"); [done|]. by apply IH.
Qed.

Lemma set_data_settings x s : qsettings (set_data x s).2 = qsettings s.
Proof. reflexivity. Qed.

(** A download without a [User-Agent] header removes the user agent
    setting, whatever it was and however the download ends. *)
Lemma download_without_user_agent (net : nat -> QNetworkReply) N schedule validator u hs settings :
  no_user_agent (default [] hs) = true ->
  qsettings (download net N schedule validator (constructed u hs settings)).2
  = delete userAgent settings.
Proof.
  intros Hhs. unfold download. rewrite !bind_gets.
  destruct (set_headers_no_user_agent (headers (self (constructed u hs settings)))
              {| req_url := url (self (constructed u hs settings)); req_raw_headers := ∅ |}
              None (constructed u hs settings)) as (req' & Hrun).
  { by destruct hs. }
  erewrite bind_run by exact Hrun. cbn [fst snd].
  pose proof (loop_settings net req' None N schedule validator (Z.to_nat N) (-1) []
                (constructed u hs settings)) as Hset.
  fold (loop_fuel N) in Hset. cbn [old_user_agent_truthy constructed qsettings] in Hset.
  unfold bind at 1.
  destruct (download_loop _ _ _ _ _ _ _ _ _ _) as [[[q d]| |] s2]; cbn [snd] in Hset;
    [|done|done].
  cbn [fst snd]. rewrite bind_gets.
  destruct (Py.truthy _); [done|].
  destruct (negb _); [|by rewrite set_data_settings].
  unfold bind, decode_utf8. destruct (Py.utf8_valid d); [|done].
  unfold ret. by rewrite set_data_settings.
Qed.

(** C5 on the failing inputs. A download without headers, in a process
    whose user agent setting holds a value, ends with the setting removed,
    not restored, whatever the server answers and whatever the policy; so
    does a download with a [User-Agent] header when the setting held the
    empty string. (With a header and a non-empty earlier value the value is
    put back.) *)
Theorem C5_user_agent_not_restored :
  (forall (net : nat -> QNetworkReply) N schedule validator u prior settings,
     let before : gmap string string := <[userAgent := prior]> settings in
     let r := download net N schedule validator (constructed u None before) in
     before !! userAgent = Some prior /\ qsettings r.2 !! userAgent = None)
  /\
  let before : gmap string string := {[ userAgent := "Mozilla/5.0 QGIS/33400" ]} in
  let net := fun _ : nat => reply_200 ["o"%byte; "k"%byte] [] in
  let plain := download net 5 [5; 10; 15; 20; 25]%N None
                 (constructed "https://data.arr-software.org" None before) in
  let empty_before : gmap string string := {[ userAgent := "" ]} in
  let with_header := download net 5 [5; 10; 15; 20; 25]%N None
                 (constructed "https://data.arr-software.org"
                    (Some [("User-Agent", "tuflow")]) empty_before) in
  let restored := download net 5 [5; 10; 15; 20; 25]%N None
                 (constructed "https://data.arr-software.org"
                    (Some [("User-Agent", "tuflow")]) before) in
  (before !! userAgent = Some "Mozilla/5.0 QGIS/33400"
   /\ plain.1 = Ret tt /\ ok (self plain.2) = true
   /\ qsettings plain.2 !! userAgent = None)
  /\ (empty_before !! userAgent = Some ""
      /\ with_header.1 = Ret tt
      /\ qsettings with_header.2 !! userAgent = None)
  /\ qsettings restored.2 !! userAgent = Some "Mozilla/5.0 QGIS/33400".
Proof.
  split.
  - intros net N schedule validator u prior settings. cbv zeta.
    split; [apply lookup_insert_eq|].
    rewrite download_without_user_agent by reflexivity.
    apply lookup_delete_eq.
  - cbv zeta. vm_compute. repeat split; reflexivity.
Qed.

End C5.

Section C6.
Import Downloader.

Lemma set_data_self x s :
  ret_code (self (set_data x s).2) = ret_code (self s)
  /\ error_string (self (set_data x s).2) = error_string (self s).
Proof. done. Qed.

(** [DownloaderQGIS.download] keeps the error string empty where it leaves
    the status code 200, however it ends. *)
Lemma download_qgis_consistent (net : nat -> QNetworkReply) N schedule validator s :
  error_string (self s) = "" ->
  consistent (self (DownloaderQGIS.download net N schedule validator s).2).
Proof.
  intros Hs. unfold DownloaderQGIS.download. rewrite !bind_gets.
  destruct (set_headers_run (headers (self s))
              {| req_url := url (self s); req_raw_headers := ∅ |} None s)
    as (req' & old' & s1 & Hrun & Hself & _).
  erewrite bind_run by exact Hrun. cbn [fst snd].
  pose proof (loop_ok_invariant net req' old' N schedule validator
                (DownloaderQGIS.loop_fuel N) (-1) [] s1) as Hinv.
  rewrite Hself in Hinv. specialize (Hinv Hs).
  unfold bind at 1.
  destruct (DownloaderQGIS.download_loop _ _ _ _ _ _ _ _ _ _) as [[[q d]| |] s2];
    cbn [fst snd] in *; [|exact Hinv|exact Hinv].
  rewrite bind_gets.
  destruct (Py.truthy _); [exact Hinv|].
  destruct (negb _); [|exact Hinv].
  unfold bind, decode_utf8. destruct (Py.utf8_valid d); exact Hinv.
Qed.

(** Both downloads end: they return or raise. *)
Lemma download_qgis_ends (net : nat -> QNetworkReply) N schedule validator s :
  (DownloaderQGIS.download net N schedule validator s).1 <> OutOfFuel.
Proof.
  unfold DownloaderQGIS.download. rewrite !bind_gets.
  destruct (set_headers_run (headers (self s))
              {| req_url := url (self s); req_raw_headers := ∅ |} None s)
    as (req' & old' & s1 & Hrun & _).
  erewrite bind_run by exact Hrun. cbn [fst snd].
  pose proof (loop_fuel_suffices net req' old' N schedule validator
                (DownloaderQGIS.loop_fuel N) 0 [] s1) as Hfuel.
  change (Z.of_nat 0 - 1)%Z with (-1)%Z in Hfuel.
  unfold bind at 1.
  destruct (DownloaderQGIS.download_loop _ _ _ _ _ _ _ _ _ _) as [[[q d]| |] s2];
    cbn [fst snd] in *;
    [|done|exfalso; apply Hfuel; [unfold DownloaderQGIS.loop_fuel; lia|reflexivity]].
  rewrite bind_gets.
  destruct (Py.truthy _); [done|].
  destruct (negb _); [|done].
  unfold bind, decode_utf8. by destruct (Py.utf8_valid d).
Qed.

Lemma download_requests_ends requests_get s :
  (DownloaderRequests.download requests_get s).1 <> OutOfFuel.
Proof.
  unfold DownloaderRequests.download, DownloaderRequests.do_requests_get,
    DownloaderRequests.zip_not_in, bind, gets, emit, modify, ret, raise,
    set_ret_code, set_error_string, set_data, decode_utf8.
  cbn [fst snd].
  destruct (requests_get _ _) as [e|r]; [done|].
  destruct (Response_ok r); cbn [negb]; [|done].
  destruct (headers_get_content_type r); [|done].
  destruct (negb _), (content r); cbn; try done.
  unfold bind, ret. by destruct (Py.utf8_valid _).
Qed.

Lemma response_ok_200 r : status_code r = 200%Z -> Response_ok r = true.
Proof. unfold Response_ok. by intros ->. Qed.

Lemma download_requests_consistent requests_get s :
  error_string (self s) = "" ->
  consistent (self (DownloaderRequests.download requests_get s).2).
Proof.
  intros Hs. unfold DownloaderRequests.download, DownloaderRequests.do_requests_get.
  rewrite !bind_gets. unfold bind at 1. unfold bind at 1.
  unfold emit, modify. cbn [fst snd].
  destruct (requests_get _ _) as [e|r]; [by intros _|].
  unfold ret. unfold bind at 1. unfold set_ret_code, modify.
  destruct (Response_ok r) eqn:Hok; cbn [negb].
  - unfold bind, DownloaderRequests.zip_not_in.
    destruct (headers_get_content_type r); [|by intros _].
    unfold ret. destruct (negb _), (content r); cbn; try (by intros _).
    unfold decode_utf8. by destruct (Py.utf8_valid _); intros _.
  - cbn. intros [= H]. by rewrite (response_ok_200 r H) in Hok.
Qed.

Lemma nonempty_truthy x : x <> "" -> Py.truthy x = true.
Proof. by destruct x. Qed.

(** A call of [download] that starts with an empty error string, as the
    first one on an instance does, ends, and ends with a result that is ok
    exactly when the status code is 200 and the error string is empty. *)
Lemma download_from_empty_error_string
    (net : nat -> QNetworkReply)
    (requests_get : string -> list (string * string) -> exn + Response)
    (c : cls) (a : Args) (s : State) :
  error_string (self s) = "" ->
  let d := self (call_download net requests_get c a s).2 in
  (call_download net requests_get c a s).1 <> OutOfFuel
  /\ (ok d = true <-> ret_code d = Some 200%Z /\ error_string d = "").
Proof.
  intros Hs. cbv zeta. split.
  { unfold call_download. destruct c; [apply download_qgis_ends|].
    destruct (supplies_any a); [done|apply download_requests_ends]. }
  rewrite ok_iff. split; [|by intros []].
  intros H. split; [done|]. revert H. unfold call_download.
  destruct c.
  - by apply download_qgis_consistent.
  - destruct (supplies_any a); [intros _; exact Hs|].
    by apply download_requests_consistent.
Qed.

(** [DownloaderQGIS.download] on an instance that holds an error string,
    answered at once with a 200 that is accepted: the early return on
    [self.error_string] is taken, and only the status code changes. *)
Lemma download_qgis_after_failure (net : nat -> QNetworkReply) N schedule validator s :
  error_string (self s) <> "" ->
  attribute_status (net (n_get s)) = Some 200%Z ->
  DownloaderQGIS.rejected validator (readAll (net (n_get s))) = false ->
  exists s',
    DownloaderQGIS.download net N schedule validator s = (Ret tt, s')
    /\ self s' = {| url := url (self s); headers := headers (self s);
                    data := data (self s);
                    ret_code := Some 200%Z; error_string := error_string (self s) |}.
Proof.
  intros Hne Hst Hrej. unfold DownloaderQGIS.download. rewrite !bind_gets.
  destruct (set_headers_run (headers (self s))
              {| req_url := url (self s); req_raw_headers := ∅ |} None s)
    as (req' & old' & s1 & Hrun & Hself & Hn & _).
  erewrite bind_run by exact Hrun. cbn [fst snd].
  destruct (loop_first_success net req' old' N schedule validator
              (Z.to_nat N) (-1) [] s1) as (s2 & Hloop & Hself2 & _);
    [by rewrite Hn..|].
  fold (DownloaderQGIS.loop_fuel N) in Hloop.
  erewrite bind_run by exact Hloop. cbn [fst snd]. rewrite bind_gets.
  rewrite Hself2. cbn [error_string]. rewrite Hself, (nonempty_truthy _ Hne).
  exists s2. by rewrite Hself2, Hself.
Qed.

(** [DownloaderRequests.download] answered with status 200 leaves the
    error string it found. *)
Lemma download_requests_after_failure requests_get s resp :
  requests_get (url (self s)) (headers (self s)) = inr resp ->
  status_code resp = 200%Z ->
  let r := DownloaderRequests.download requests_get s in
  ret_code (self r.2) = Some 200%Z /\ error_string (self r.2) = error_string (self s).
Proof.
  intros Hget Hst. cbv zeta.
  unfold DownloaderRequests.download, DownloaderRequests.do_requests_get,
    DownloaderRequests.zip_not_in, bind, gets, emit, modify, ret, raise,
    set_ret_code, set_error_string, set_data, decode_utf8.
  cbn [fst snd]. rewrite Hget, (response_ok_200 resp Hst), Hst. cbn [negb].
  destruct (headers_get_content_type resp); [|done].
  destruct (negb _), (content resp); cbn; try done.
  unfold bind, ret. by destruct (Py.utf8_valid _).
Qed.

(** C6. The invariant holds of the first [download] on an instance, not
    of every state calls of [download] reach: only [__init__] sets
    [error_string] to the empty string, and [download] never resets it. A
    call that starts with an empty error string ends, by returning or by an
    exception, with a result that is ok exactly when the status code is 200
    and the error string is empty. A call that starts with the error string
    of an earlier failed download and is answered at once with an accepted
    200 ends ok beside that old error string: on the host transport it
    returns through the early exit on [self.error_string] and stores no
    payload, on the standalone transport it stores the status code 200
    and leaves the error string. *)
Theorem C6_ok_beside_stale_error_string
    (net : nat -> QNetworkReply)
    (requests_get : string -> list (string * string) -> exn + Response)
    (c : cls) (a : Args) (N : Z) (schedule : list N.t)
    (validator : option (list byte -> bool))
    (s : State) :
  let d := self (call_download net requests_get c a s).2 in
  let q := DownloaderQGIS.download net N schedule validator s in
  let r := DownloaderRequests.download requests_get s in
  (error_string (self s) = "" ->
   (call_download net requests_get c a s).1 <> OutOfFuel
   /\ (ok d = true <-> ret_code d = Some 200%Z /\ error_string d = ""))
  /\ (error_string (self s) <> "" ->
      attribute_status (net (n_get s)) = Some 200%Z ->
      DownloaderQGIS.rejected validator (readAll (net (n_get s))) = false ->
      q.1 = Ret tt
      /\ ok (self q.2) = true
      /\ error_string (self q.2) = error_string (self s)
      /\ data (self q.2) = data (self s)
      /\ ~ (ok (self q.2) = true
            <-> ret_code (self q.2) = Some 200%Z /\ error_string (self q.2) = ""))
  /\ (error_string (self s) <> "" ->
      forall resp,
        requests_get (url (self s)) (headers (self s)) = inr resp ->
        status_code resp = 200%Z ->
        ok (self r.2) = true
        /\ error_string (self r.2) = error_string (self s)
        /\ ~ (ok (self r.2) = true
              <-> ret_code (self r.2) = Some 200%Z /\ error_string (self r.2) = "")).
Proof.
  cbv zeta. split; [apply download_from_empty_error_string|]. split.
  - intros Hne Hst Hrej.
    destruct (download_qgis_after_failure net N schedule validator s Hne Hst Hrej)
      as (s' & -> & Hself).
    cbn [fst snd]. rewrite Hself. cbn [ok ret_code error_string data].
    repeat split; try done. by intros [[_ H] _].
  - intros Hne resp Hget Hst.
    destruct (download_requests_after_failure requests_get s resp Hget Hst) as [Hc He].
    apply ok_iff in Hc as Hok. rewrite He, Hok.
    repeat split; try done. by intros [[_ H] _].
Qed.

(** The theorem at an instance whose first download, with the default
    policy, was answered with 404 six times and whose second one is answered
    with 200 and JSON: the second call leaves [ok()] true, the error string
    of the 404 and no data. *)
Lemma C6_ok_beside_stale_error_string_witness :
  let first := DownloaderQGIS.download recovering_net
                 DownloaderQGIS.default_retry_count DownloaderQGIS.default_retry_interval None
                 (constructed "https://data.arr-software.org" None ∅) in
  let second := DownloaderQGIS.download recovering_net
                  DownloaderQGIS.default_retry_count DownloaderQGIS.default_retry_interval None
                  first.2 in
  first.1 = Ret tt /\ ok (self first.2) = false
  /\ second.1 = Ret tt
  /\ ok (self second.2) = true
  /\ ret_code (self second.2) = Some 200%Z
  /\ error_string (self second.2) = "server replied: Not Found"
  /\ data (self second.2) = DataNone.
Proof.
  cbv zeta.
  set (first := DownloaderQGIS.download recovering_net
                  DownloaderQGIS.default_retry_count DownloaderQGIS.default_retry_interval None
                  (constructed "https://data.arr-software.org" None ∅)).
  destruct (C6_ok_beside_stale_error_string recovering_net flaky_requests_get ClsQGIS no_args
              DownloaderQGIS.default_retry_count DownloaderQGIS.default_retry_interval None
              first.2) as (_ & H & _).
  cbv zeta in H.
  destruct H as (H1 & H2 & H3 & H4 & _);
    [vm_compute; discriminate|reflexivity|reflexivity|].
  split; [reflexivity|]. split; [reflexivity|].
  split; [exact H1|]. split; [exact H2|].
  split; [by apply ok_iff|].
  split; [exact (eq_trans H3 eq_refl)|exact (eq_trans H4 eq_refl)].
Defined.

End C6.

Section C2.
Import Downloader Host.







End C2.

Section C3.
Import Downloader.

Lemma byte_eqb_of_ascii a b :
  Byte.eqb (byte_of_ascii a) (byte_of_ascii b) = (if ascii_dec a b then true else false).
Proof.
  destruct (ascii_dec a b) as [->|Hne].
  - by apply Byte.byte_dec_lb.
  - destruct (Byte.eqb _ _) eqn:H; [|done].
    apply Byte.byte_dec_bl in H. destruct Hne.
    by rewrite <- (ascii_of_byte_of_ascii a), H, ascii_of_byte_of_ascii.
Qed.

Lemma prefix_encode p : forall s,
  String.prefix p s = Py.bytes_prefix (encode p) (encode s).
Proof.
  induction p as [|a p IH]; intros [|b s]; try done.
  cbn. rewrite byte_eqb_of_ascii. destruct (ascii_dec a b); [apply IH|done].
Qed.

Lemma contains_encode p s : Py.contains p s = Py.bytes_contains (encode p) (encode s).
Proof.
  induction s as [|b s IH]; cbn [Py.contains]; rewrite prefix_encode.
  - reflexivity.
  - cbn. by rewrite IH.
Qed.

(** The host transport on a first reply with status 200 that the
    validator accepts. *)
Lemma download_qgis_accepted_200 (net : nat -> QNetworkReply) N schedule validator u hs settings :
  attribute_status (net 0%nat) = Some 200%Z ->
  DownloaderQGIS.rejected validator (readAll (net 0%nat)) = false ->
  let zip := Py.bytes_contains zip_bytes (rawHeader_content_type (net 0%nat)) in
  let r := DownloaderQGIS.download net N schedule validator (constructed u hs settings) in
  r.1 = fetched_outcome zip (readAll (net 0%nat))
  /\ self r.2 = {| url := u; headers := default [] hs;
                   data := fetched_data zip (readAll (net 0%nat));
                   ret_code := Some 200%Z; error_string := "" |}
  /\ n_get r.2 = 1%nat.
Proof.
  intros Hst Hacc. cbv zeta. unfold DownloaderQGIS.download. rewrite !bind_gets.
  destruct (set_headers_run (headers (self (constructed u hs settings)))
              {| req_url := url (self (constructed u hs settings)); req_raw_headers := ∅ |}
              None (constructed u hs settings))
    as (req' & old' & s1 & Hrun & Hself & Hn & _).
  erewrite bind_run by exact Hrun. cbn [fst snd].
  destruct (loop_first_success net req' old' N schedule validator (Z.to_nat N) (-1) [] s1)
    as (s2 & Hloop & Hself2 & Hn2 & _); rewrite ?Hn; try done.
  rewrite Hn in Hloop, Hn2. cbn [constructed n_get] in Hloop, Hn2.
  fold (DownloaderQGIS.loop_fuel N) in Hloop.
  erewrite bind_run by exact Hloop. cbn [fst snd]. rewrite bind_gets.
  rewrite Hself in Hself2. cbn [constructed self __init__ url headers data error_string] in Hself2.
  rewrite Hself2. cbn [error_string Py.truthy].
  unfold fetched_outcome, fetched_data.
  destruct (Py.bytes_contains _ _); cbn [negb].
  - unfold set_data, modify, with_self. cbn. by rewrite Hself2, Hn2.
  - unfold bind, decode_utf8. destruct (Py.utf8_valid _);
      unfold ret, raise, set_data, modify, with_self; cbn; by rewrite ?Hself2, Hn2.
Qed.

(** The standalone transport on a response with status 200, a body and a
    content type. *)
Lemma download_requests_200 requests_get u hs settings r body ct :
  requests_get u (default [] hs) = inr r ->
  status_code r = 200%Z ->
  content r = ContentBytes body ->
  headers_get_content_type r = Some ct ->
  let zip := Py.contains "zip" ct in
  let x := DownloaderRequests.download requests_get (constructed u hs settings) in
  x.1 = fetched_outcome zip body
  /\ self x.2 = {| url := u; headers := default [] hs;
                   data := fetched_data zip body;
                   ret_code := Some 200%Z; error_string := "" |}
  /\ trace x.2 = [EvRequestsGet u (default [] hs)].
Proof.
  intros Hget H200 Hbody Hct. cbv zeta.
  unfold DownloaderRequests.download, DownloaderRequests.do_requests_get,
    DownloaderRequests.zip_not_in, bind, gets, emit, modify, ret, raise,
    set_ret_code, set_error_string, set_data, decode_utf8.
  cbn [fst snd constructed self __init__ url headers].
  replace (match hs with Some h => h | None => [] end) with (default [] hs) by by destruct hs.
  rewrite Hget, (response_ok_200 r H200), Hct, Hbody, H200. cbn [negb].
  unfold fetched_outcome, fetched_data.
  destruct (Py.contains "zip" ct); cbn; [by destruct hs|].
  unfold bind, ret. destruct (Py.utf8_valid body); cbn; by destruct hs.
Qed.

(** C3, as stated, fails. The standalone transport has no retry policy
    and no validator: [DownloaderRequests.download] takes no argument, so a
    call that supplies a policy raises [TypeError] where the host transport
    runs it; and for the same first response, a 503 from a server that
    answers 200 afterwards, the host transport retries and ends ok while
    the standalone transport ends with status 503. *)
Lemma C3_counterexample :
  let s := constructed "https://data.arr-software.org" None ∅ in
  let a := policy 1 [5]%N rejects_all in
  ((call_download json_net json_requests_get ClsQGIS a s).1 = Ret tt
   /\ (call_download json_net json_requests_get ClsRequests a s).1
      = Raise (Exn TypeError "download() got an unexpected keyword argument"))
  /\ (same_response (flaky_net 0) {| status_code := 503;
                                      text := "<html>Service Unavailable</html>";
                                      content := ContentBytes [];
                                      headers_get_content_type := Some "text/html" |}
      /\ ok (self (call_download flaky_net flaky_requests_get ClsQGIS no_args s).2) = true
      /\ ok (self (call_download flaky_net flaky_requests_get ClsRequests no_args s).2) = false
      /\ n_get (call_download flaky_net flaky_requests_get ClsQGIS no_args s).2 = 2%nat).
Proof.
  cbv zeta. split; [by vm_compute|].
  split; [|by vm_compute].
  repeat split. by exists "text/html".
Qed.

(** C3, amended. The transport is chosen once, by [__new__]: the host
    transport exactly when the three qgis names were imported. Only the
    host transport takes a retry policy and a validator; the standalone
    transport makes one GET, without retry or validation, and raises
    [TypeError] when a policy is supplied. On a first response with status
    200, the same body and the same declared content type, which the
    validator (if any) accepts, the two transports end alike and leave the
    same result: status 200, no error, and the body as text or, for a
    content type that contains "zip", as bytes. *)
Theorem C3_transports_agree_on_accepted_200
    (net : nat -> QNetworkReply)
    (requests_get : string -> list (string * string) -> exn + Response)
    (a : Args) (u : string) (hs : option (list (string * string)))
    (settings : gmap string string) (r : Response) :
  requests_get u (default [] hs) = inr r ->
  same_response (net 0%nat) r ->
  status_code r = 200%Z ->
  DownloaderQGIS.rejected (default None (arg_validator a)) (readAll (net 0%nat)) = false ->
  let s := constructed u hs settings in
  let qgis := call_download net requests_get ClsQGIS a s in
  let standalone := call_download net requests_get ClsRequests no_args s in
  (qgis.1 = standalone.1
   /\ self qgis.2 = self standalone.2
   /\ ret_code (self qgis.2) = Some 200%Z
   /\ error_string (self qgis.2) = ""
   /\ n_get qgis.2 = 1%nat
   /\ trace standalone.2 = [EvRequestsGet u (default [] hs)])
  /\ (supplies_any a = true ->
      call_download net requests_get ClsRequests a s
      = (Raise (Exn TypeError "download() got an unexpected keyword argument"), s))
  /\ (forall i, __new__ i
                = if QgsNetworkAccessManager i && QNetworkRequest_imported i && QUrl i
                  then ClsQGIS else ClsRequests).
Proof.
  intros Hget (Hst & Hbody & ct & Hct & Hraw) H200 Hacc. cbv zeta.
  rewrite H200 in Hst.
  split; [|split].
  - unfold call_download. change (supplies_any no_args) with false. cbv iota.
    destruct (download_qgis_accepted_200 net
                (default DownloaderQGIS.default_retry_count (arg_retry_count a))
                (default DownloaderQGIS.default_retry_interval (arg_retry_interval a))
                (default None (arg_validator a)) u hs settings Hst Hacc)
      as (Hq1 & Hq2 & Hq3).
    destruct (download_requests_200 requests_get u hs settings r (readAll (net 0%nat)) ct
                Hget H200 Hbody Hct)
      as (Hr1 & Hr2 & Hr3).
    rewrite Hraw in Hq1, Hq2. change zip_bytes with (encode "zip") in Hq1, Hq2.
    rewrite <- contains_encode in Hq1, Hq2.
    rewrite Hq1, Hq2, Hq3, Hr1, Hr2, Hr3. done.
  - intros Hany. unfold call_download. by rewrite Hany.
  - intros [[] [] []]; reflexivity.
Qed.

(** The theorem at a server that answers 200 with JSON, with a policy of
    one retry and a validator that accepts. *)
Lemma C3_transports_agree_on_accepted_200_witness :
  let s := constructed "https://data.arr-software.org" None ∅ in
  let a := policy 1 [5]%N (Some (fun _ => true)) in
  let qgis := call_download json_net json_requests_get ClsQGIS a s in
  let standalone := call_download json_net json_requests_get ClsRequests no_args s in
  (qgis.1 = standalone.1
   /\ self qgis.2 = self standalone.2
   /\ ret_code (self qgis.2) = Some 200%Z
   /\ error_string (self qgis.2) = ""
   /\ n_get qgis.2 = 1%nat
   /\ trace standalone.2 = [EvRequestsGet "https://data.arr-software.org" []])
  /\ call_download json_net json_requests_get ClsRequests a s
     = (Raise (Exn TypeError "download() got an unexpected keyword argument"), s).
Proof.
  cbv zeta.
  pose proof (C3_transports_agree_on_accepted_200 json_net json_requests_get
                (policy 1 [5]%N (Some (fun _ => true)))
                "https://data.arr-software.org" None ∅
                (response_200 ["{"%byte; "}"%byte] (Some "application/json"))) as H.
  cbv zeta in H. destruct H as (H1 & H2 & _).
  - reflexivity.
  - repeat split. by exists "application/json".
  - reflexivity.
  - reflexivity.
  - split; [exact H1|]. apply H2. reflexivity.
Defined.

End C3.

(** * More of the code *)

(** ** [DownloaderQGIS.download]: retries, cache, requests *)

Section DownloadRuns.
Import Downloader Downloader.DownloaderQGIS.

Variable net : nat -> QNetworkReply.
Variable req : QNetworkRequest.
Variable old : option string.
Variable retry_count : Z.
Variable retry_interval : list N.
Variable validator : option (list byte -> bool).

Abbreviation loop := (download_loop net req old retry_count retry_interval validator).

Ltac iteration :=
  cbn [download_loop];
  unfold bind, netman_get, restore_user_agent, set_ret_code, set_error_string,
    gets, modify, logger_info, sleep, emit, getitem, ret, raise, out_of_fuel,
    with_self, QSettings_setValue, QSettings_remove, with_qsettings;
  cbn -[insert delete Z.ltb Z.add download_loop].

Ltac branches :=
  repeat match goal with
         | |- context [old_user_agent_truthy ?o] =>
           destruct (old_user_agent_truthy o);
           cbn -[insert delete Z.ltb Z.add download_loop]
         | |- context [bool_decide (?a = Some 200%Z)] =>
           destruct (bool_decide_reflect (a = Some 200%Z));
           cbn -[insert delete Z.ltb Z.add download_loop]
         | |- context [rejected ?v ?d] =>
           destruct (rejected v d) eqn:?;
           cbn -[insert delete Z.ltb Z.add download_loop]
         | |- context [(?a <? ?b)%Z] =>
           destruct (Z.ltb_spec a b);
           cbn -[insert delete Z.ltb Z.add download_loop]
         | |- context [Py.index ?l ?i] =>
           destruct (Py.index l i) eqn:?;
           cbn -[insert delete Z.ltb Z.add download_loop]
         end.

Lemma cache_removals_app a b : cache_removals (a ++ b) = cache_removals a ++ cache_removals b.
Proof. apply omap_app. Qed.

Lemma requests_sent_app a b : requests_sent (a ++ b) = requests_sent a ++ requests_sent b.
Proof. apply omap_app. Qed.

(** The last attempt of a download: one that is accepted, or one that
    fails when no retry is left. *)
Lemma loop_last fuel i dat s :
  fails validator (net (n_get s)) = false \/ (Z.to_nat retry_count <= i)%nat ->
  let q := net (n_get s) in
  exists dat' s',
    loop (S fuel) (Z.of_nat i - 1) dat s = (Ret (q, dat'), s')
    /\ n_get s' = S (n_get s)
    /\ steps (trace s') = steps (trace s) ++ [Attempt]
    /\ cache_removals (trace s') = cache_removals (trace s)
    /\ requests_sent (trace s') = requests_sent (trace s) ++ [req]
    /\ url (self s') = url (self s)
    /\ headers (self s') = headers (self s)
    /\ Downloader.data (self s') = Downloader.data (self s)
    /\ ret_code (self s') = final_ret_code validator q
    /\ error_string (self s')
       = (if fails validator q then final_error_string validator q
          else error_string (self s))
    /\ (fails validator q = false -> dat' = readAll q).
Proof.
  intros Hend. cbv zeta. iteration.
  replace (Z.of_nat i - 1 + 1)%Z with (Z.of_nat i) by lia.
  unfold final_ret_code, final_error_string, fails in *.
  branches;
    try (destruct Hend as [Hend|Hend]; [cbn in Hend; congruence|lia]);
    eexists _, _; (split; [reflexivity|]); cbn;
    rewrite ?steps_app, ?cache_removals_app, ?requests_sent_app; cbn;
    rewrite ?app_nil_r; repeat split; try done.
Qed.

(** [d] failed attempts, each followed by a retry: the loop sleeps the
    waits of the schedule in turn, invalidates the cache after the rejected
    bodies only, and goes on. *)
Lemma loop_retries : forall d i fuel dat s,
  (i + d <= Z.to_nat retry_count)%nat ->
  (i + d <= length retry_interval)%nat ->
  (forall j, (j < d)%nat -> fails validator (net (n_get s + j)) = true) ->
  exists dat' s',
    loop (d + fuel) (Z.of_nat i - 1) dat s = loop fuel (Z.of_nat (i + d) - 1) dat' s'
    /\ n_get s' = (n_get s + d)%nat
    /\ steps (trace s')
       = steps (trace s)
         ++ flat_map (fun t => [Attempt; Pause t]) (take d (drop i retry_interval))
    /\ cache_removals (trace s')
       = cache_removals (trace s) ++ replicate (count_200 net (n_get s) d) (url (self s))
    /\ requests_sent (trace s') = requests_sent (trace s) ++ replicate d req
    /\ url (self s') = url (self s)
    /\ headers (self s') = headers (self s)
    /\ Downloader.data (self s') = Downloader.data (self s)
    /\ error_string (self s') = error_string (self s)
    /\ (d = 0%nat -> s' = s /\ dat' = dat)
    /\ (forall d', d = S d' -> ret_code (self s') = attribute_status (net (n_get s + d'))).
Proof.
  induction d as [|d IH]; intros i fuel dat s Hn Hcover Hfail.
  - exists dat, s. rewrite !Nat.add_0_r, take_0. cbn. rewrite !app_nil_r.
    repeat split; try done.
  - change (S d + fuel)%nat with (S (d + fuel)).
    iteration. replace (Z.of_nat i - 1 + 1)%Z with (Z.of_nat i) by lia.
    pose proof (Hfail 0%nat ltac:(lia)) as Hq. rewrite Nat.add_0_r in Hq.
    unfold fails in Hq.
    assert (Hlook : is_Some (retry_interval !! i)) by (apply lookup_lt_is_Some; lia).
    destruct Hlook as [t Ht].
    rewrite index_nat, Ht, (drop_S _ _ _ Ht). cbn [take flat_map count_200].
    branches; try lia;
      try (rewrite bool_decide_eq_true_2 in Hq by done; cbn in Hq; congruence);
      replace (Z.of_nat i) with (Z.of_nat (S i) - 1)%Z by lia;
      (edestruct (IH (S i) fuel) as (d' & s' & -> & Hn' & Hst & Hc & Hr & Hu & Hh & Hd & He & H0 & HS);
       [lia|lia|
        cbn [n_get]; intros j Hj;
        replace (S (n_get s) + j)%nat with (n_get s + S j)%nat by lia;
        apply Hfail; lia|]);
      cbn [n_get trace self url headers Downloader.data error_string] in *;
      replace (S i + d)%nat with (i + S d)%nat by lia;
      eexists _, _; (split; [reflexivity|]);
      rewrite Hn', Hst, Hc, Hr, Hu, Hh, Hd, He;
      rewrite ?steps_app, ?cache_removals_app, ?requests_sent_app; cbn;
      rewrite ?bool_decide_eq_true_2, ?bool_decide_eq_false_2 by done;
      rewrite ?app_nil_r, <- ?app_assoc; cbn;
      repeat split; try done; try lia;
      try (intros d0 [= <-]; destruct d as [|d1];
           [destruct H0 as [-> _]; [done|]; cbn; by rewrite Nat.add_0_r
           |rewrite (HS d1 eq_refl); cbn; f_equal; f_equal; lia]).
Qed.

End DownloadRuns.

Section DownloadEnds.
Import Downloader Downloader.DownloaderQGIS.

Variable net : nat -> QNetworkReply.

(** The loop over the headers builds the request from all of them and
    touches nothing but the settings. *)
Lemma set_headers_request hs : forall req old s,
  exists old' s',
    set_headers hs req old s
    = (Ret (foldl (fun r kv => setRawHeader kv.1 kv.2 r) req hs, old'), s')
    /\ self s' = self s /\ n_get s' = n_get s /\ trace s' = trace s.
Proof.
  induction hs as [|[k v] hs IH]; intros req old s; cbn [set_headers foldl].
  - by exists old, s.
  - destruct (String.eqb k "User-Agent"); [|apply IH].
    unfold bind at 1, QSettings_contains, gets.
    destruct (bool_decide _);
      unfold bind, QSettings_value, QSettings_setValue, gets, modify, ret;
      edestruct IH as (old' & s' & -> & Hs & Hn & Ht);
      by exists old', s'.
Qed.

Lemma retry_steps_snoc waits :
  flat_map (fun t => [Attempt; Pause t]) waits ++ [Attempt] = retry_steps waits.
Proof.
  unfold retry_steps. induction waits as [|t waits IH]; [done|].
  cbn. by rewrite IH.
Qed.

Lemma replicate_end {A} (x : A) n : replicate n x ++ [x] = replicate (S n) x.
Proof. induction n as [|n IH]; [done|]. cbn. by rewrite IH. Qed.

Lemma final_error_truthy validator q :
  fails validator q = true -> Py.truthy (final_error_string validator q) = true.
Proof.
  intros Hf. unfold final_error_string. rewrite Hf.
  destruct (bool_decide _); [done|apply errorString_truthy].
Qed.

(** A download that ends with its [k]-th retry: the attempts before fail and
    are retried, the last one is accepted or finds no retry left. *)
Lemma download_ends_at retry_count retry_interval validator u hs settings (k : nat) :
  (k <= Z.to_nat retry_count)%nat ->
  (k <= length retry_interval)%nat ->
  (forall j, (j < k)%nat -> fails validator (net j) = true) ->
  fails validator (net k) = false \/ k = Z.to_nat retry_count ->
  let q := net k in
  let r := download net retry_count retry_interval validator (constructed u hs settings) in
  r.1 = final_outcome validator q
  /\ n_get r.2 = S k
  /\ steps (trace r.2) = retry_steps (take k retry_interval)
  /\ cache_removals (trace r.2) = replicate (count_200 net 0 k) u
  /\ requests_sent (trace r.2) = replicate (S k) (request_of u (default [] hs))
  /\ self r.2 = {| url := u; headers := default [] hs;
                   data := final_data validator q;
                   ret_code := final_ret_code validator q;
                   error_string := final_error_string validator q |}.
Proof.
  intros Hk Hcover Hfail Hend. cbv zeta. unfold download. rewrite !bind_gets.
  destruct (set_headers_request (headers (self (constructed u hs settings)))
              {| req_url := url (self (constructed u hs settings)); req_raw_headers := ∅ |}
              None (constructed u hs settings))
    as (old' & s1 & Hrun & Hself & Hn & Htr).
  erewrite bind_run by exact Hrun. cbn [fst snd].
  change (foldl _ _ _) with (request_of u (default [] hs)) in *.
  set (rq := request_of u (default [] hs)) in *.
  destruct (loop_retries net rq old' retry_count retry_interval validator
              k 0 (S (Z.to_nat retry_count - k)) [] s1)
    as (d1 & s2 & Hloop & Hn2 & Hst2 & Hc2 & Hr2 & Hu2 & Hh2 & Hd2 & He2 & _);
    [lia|lia|by rewrite Hn|].
  destruct (loop_last net rq old' retry_count retry_interval validator
              (Z.to_nat retry_count - k) k d1 s2)
    as (d3 & s3 & Hlast & Hn3 & Hst3 & Hc3 & Hr3 & Hu3 & Hh3 & Hd3 & Hrc3 & He3 & Hdat).
  { rewrite Hn2, Hn. cbn. destruct Hend as [?|?]; [by left|right; lia]. }
  rewrite Hn2, Hn in *. cbn [constructed n_get] in *. rewrite Nat.add_0_l in *.
  change (Z.of_nat 0 - 1)%Z with (-1)%Z in Hloop. cbn [Nat.add] in Hlast.
  replace (loop_fuel retry_count) with (k + S (Z.to_nat retry_count - k))%nat
    by (unfold loop_fuel; lia).
  rewrite Hlast in Hloop. erewrite bind_run by exact Hloop. cbn [fst snd]. rewrite bind_gets.
  rewrite Htr, Hself in *.
  cbn [constructed self __init__ url headers Downloader.data error_string trace] in *.
  rewrite drop_0 in Hst2. cbn [app] in *.
  assert (Hs3 : self s3 = {| url := u; headers := default [] hs; data := DataNone;
                             ret_code := final_ret_code validator (net k);
                             error_string := if fails validator (net k)
                                             then final_error_string validator (net k)
                                             else "" |}).
  { destruct (self s3) as [u3 h3 d3' r3 e3]. cbn in *.
    rewrite Hu2 in Hu3. rewrite Hh2 in Hh3. rewrite Hd2 in Hd3. rewrite He2 in He3.
    subst. by destruct hs. }
  assert (HstF : steps (trace s3) = retry_steps (take k retry_interval))
    by (by rewrite Hst3, Hst2, <- retry_steps_snoc).
  assert (HcF : cache_removals (trace s3) = replicate (count_200 net 0 k) u)
    by (by rewrite Hc3, Hc2).
  assert (HrF : requests_sent (trace s3) = replicate (S k) rq).
  { rewrite Hr3, Hr2. change (requests_sent []) with (@nil QNetworkRequest).
    cbn [app]. apply replicate_end. }
  clear Hst3 Hst2 Hc3 Hc2 Hr3 Hr2.
  unfold final_outcome, final_data. rewrite Hs3. cbn [error_string].
  destruct (fails validator (net k)) eqn:Hf.
  - rewrite final_error_truthy by done. unfold ret. cbn [fst snd].
    by rewrite Hs3, ?Hf, Hn3, HstF, HcF, HrF.
  - cbn [Py.truthy]. rewrite (Hdat eq_refl).
    assert (Hfr : final_ret_code validator (net k) = Some 200%Z
                  /\ final_error_string validator (net k) = "").
    { unfold final_ret_code, final_error_string. rewrite Hf. unfold fails in Hf.
      destruct (bool_decide _); [done|discriminate]. }
    destruct Hfr as [Hfr1 Hfr2].
    unfold fetched_outcome, fetched_data.
    destruct (Py.bytes_contains _ _); cbn [negb].
    + unfold set_data, modify, with_self. cbn [fst snd n_get trace self].
      by rewrite Hs3, ?Hf, Hn3, HstF, HcF, HrF, ?Hfr1, ?Hfr2.
    + unfold bind, decode_utf8. destruct (Py.utf8_valid _);
        unfold ret, raise, set_data, modify, with_self; cbn [fst snd n_get trace self];
        by rewrite Hs3, ?Hf, Hn3, HstF, HcF, HrF, ?Hfr1, ?Hfr2.
Qed.

End DownloadEnds.

Section DownloadProperties.
Import Downloader Downloader.DownloaderQGIS.





Lemma count_200_none net g d :
  (forall j, (j < d)%nat -> attribute_status (net (g + j)%nat) <> Some 200%Z) ->
  count_200 net g d = 0%nat.
Proof.
  revert g. induction d as [|d IH]; intros g H; [done|].
  cbn [count_200]. rewrite bool_decide_eq_false_2.
  - rewrite IH; [done|]. intros j Hj.
    replace (S g + j)%nat with (g + S j)%nat by lia. apply H. lia.
  - specialize (H 0%nat ltac:(lia)). by rewrite Nat.add_0_r in H.
Qed.

Lemma count_200_all net g d :
  (forall j, (j < d)%nat -> attribute_status (net (g + j)%nat) = Some 200%Z) ->
  count_200 net g d = d.
Proof.
  revert g. induction d as [|d IH]; intros g H; [done|].
  cbn [count_200]. rewrite bool_decide_eq_true_2.
  - rewrite IH; [done|]. intros j Hj.
    replace (S g + j)%nat with (g + S j)%nat by lia. apply H. lia.
  - specialize (H 0%nat ltac:(lia)). by rewrite Nat.add_0_r in H.
Qed.

(** X3. The cache entry of the url is invalidated once for each attempt
    that is retried after the validator rejected its body, and at no other
    time: not after a retry for a status other than 200, not after the last
    attempt. So a download that never saw status 200 before its last
    attempt leaves the cache alone, and one whose [k] retried attempts were
    all rejected bodies invalidates it [k] times. *)
Theorem cache_invalidated_after_rejections_only
    (net : nat -> QNetworkReply) (N : Z) (schedule : list N.t)
    (validator : option (list byte -> bool))
    (u : string) (hs : option (list (string * string))) (settings : gmap string string)
    (k : nat) :
  (k <= Z.to_nat N)%nat ->
  (k <= length schedule)%nat ->
  (forall j, (j < k)%nat -> fails validator (net j) = true) ->
  fails validator (net k) = false \/ k = Z.to_nat N ->
  let r := download net N schedule validator (constructed u hs settings) in
  cache_removals (trace r.2) = replicate (count_200 net 0 k) u
  /\ ((forall j, (j < k)%nat -> attribute_status (net j) <> Some 200%Z) ->
      cache_removals (trace r.2) = [])
  /\ ((forall j, (j < k)%nat -> attribute_status (net j) = Some 200%Z) ->
      cache_removals (trace r.2) = replicate k u).
Proof.
  intros Hk Hcover Hfail Hend. cbv zeta.
  destruct (download_ends_at net N schedule validator u hs settings k Hk Hcover Hfail Hend)
    as (_ & _ & _ & Hc & _).
  rewrite Hc. split; [done|]. split; intros H.
  - by rewrite count_200_none.
  - by rewrite count_200_all.
Qed.

(** The theorem at a server answering 404, then a body that is rejected,
    then one that is accepted. *)
Lemma cache_invalidated_after_rejections_only_witness :
  let net := fun k : nat =>
    match k with
    | O => reply_404
    | 1%nat => reply_200 [] []
    | _ => reply_200 ["{"%byte; "}"%byte] []
    end in
  let nonempty := Some (fun b : list byte => negb (bool_decide (b = []))) in
  let r := download net 5 [5; 10; 15; 20; 25]%N nonempty
             (constructed "https://data.arr-software.org" None ∅) in
  cache_removals (trace r.2) = ["https://data.arr-software.org"].
Proof.
  cbv zeta.
  refine (proj1 (cache_invalidated_after_rejections_only _ 5 [5; 10; 15; 20; 25]%N _
                   "https://data.arr-software.org" None ∅ 2 _ _ _ _)).
  - vm_compute. lia.
  - vm_compute. lia.
  - intros j Hj. destruct j as [|[|j]]; [reflexivity|reflexivity|lia].
  - left. reflexivity.
Defined.

(** X4. With a retry count of zero or less the download makes exactly one
    GET and never sleeps, whatever the reply; the wait schedule is not
    looked at, so that an empty one does no harm. *)
Theorem single_attempt_without_retries
    (net : nat -> QNetworkReply) (N : Z) (schedule : list N.t)
    (validator : option (list byte -> bool))
    (u : string) (hs : option (list (string * string))) (settings : gmap string string) :
  (N <= 0)%Z ->
  let r := download net N schedule validator (constructed u hs settings) in
  r.1 = final_outcome validator (net 0%nat)
  /\ n_get r.2 = 1%nat
  /\ steps (trace r.2) = [Attempt]
  /\ cache_removals (trace r.2) = []
  /\ ret_code (self r.2) = final_ret_code validator (net 0%nat)
  /\ (fails validator (net 0%nat) = true -> r.1 = Ret tt /\ ok (self r.2) = false).
Proof.
  intros HN. cbv zeta.
  destruct (download_ends_at net N schedule validator u hs settings 0)
    as (Hout & Hn & Hsteps & Hc & _ & Hself); [lia|lia|intros j Hj; lia|right; lia|].
  rewrite Hout, Hn, Hsteps, Hc, Hself. cbn.
  do 5 (split; [done|]). intros Hf. split.
  - unfold final_outcome. by rewrite Hf.
  - unfold ok, final_ret_code. rewrite Hf.
    destruct (bool_decide_reflect (attribute_status (net 0%nat) = Some 200%Z)) as [|Hne];
      [done|].
    destruct (attribute_status (net 0%nat)) as [c|]; [|done].
    cbn. destruct (Z.eqb_spec c 200) as [->|]; [by destruct Hne|reflexivity].
Qed.

(** The theorem at a retry count of -3 and an empty schedule. *)
Lemma single_attempt_without_retries_witness :
  let r := download (fun _ => reply_404) (-3) [] None
             (constructed "https://data.arr-software.org" None ∅) in
  r.1 = Ret tt /\ n_get r.2 = 1%nat /\ steps (trace r.2) = [Attempt].
Proof.
  cbv zeta.
  destruct (single_attempt_without_retries (fun _ => reply_404) (-3) [] None
              "https://data.arr-software.org" None ∅) as (H1 & H2 & H3 & _); [lia|].
  split; [exact H1|]. split; [exact H2|exact H3].
Defined.

End DownloadProperties.

Section DownloadEdges.
Import Downloader Downloader.DownloaderQGIS.

Ltac iteration :=
  cbn [download_loop];
  unfold bind, netman_get, restore_user_agent, set_ret_code, set_error_string,
    gets, modify, logger_info, sleep, emit, getitem, ret, raise, out_of_fuel,
    with_self, QSettings_setValue, QSettings_remove, with_qsettings;
  cbn -[insert delete Z.ltb Z.add download_loop].

(** An attempt that fails with a retry left and no wait left for it. *)
Lemma loop_index_error (net : nat -> QNetworkReply) req old retry_count retry_interval
    validator fuel (i : nat) dat s :
  (Z.of_nat i < retry_count)%Z ->
  (length retry_interval <= i)%nat ->
  fails validator (net (n_get s)) = true ->
  exists s',
    download_loop net req old retry_count retry_interval validator
      (S fuel) (Z.of_nat i - 1) dat s
    = (Raise (Exn IndexError "list index out of range"), s')
    /\ n_get s' = S (n_get s)
    /\ steps (trace s') = steps (trace s) ++ [Attempt]
    /\ self s' = {| url := url (self s); headers := headers (self s);
                    data := Downloader.data (self s);
                    ret_code := attribute_status (net (n_get s));
                    error_string := error_string (self s) |}.
Proof.
  intros Hi Hlen Hf. iteration.
  replace (Z.of_nat i - 1 + 1)%Z with (Z.of_nat i) by lia.
  rewrite index_nat, (lookup_ge_None_2 retry_interval i) by lia.
  destruct (Z.ltb_spec (Z.of_nat i) retry_count); [|lia].
  unfold fails in Hf.
  destruct (old_user_agent_truthy old); cbn -[insert delete];
    destruct (bool_decide_reflect (attribute_status (net (n_get s)) = Some 200%Z));
    cbn -[insert delete] in *; rewrite ?Hf; cbn -[insert delete];
    (eexists; split; [reflexivity|]); cbn; rewrite !steps_app; cbn;
    rewrite ?app_nil_r; done.
Qed.

(** X5. When the wait schedule is shorter than the maximum retry count and
    every attempt fails, the download sleeps all the waits there are and,
    after one more failed attempt, raises [IndexError]. The error string was
    not set by then, and the status code is the one of the last reply, also
    when that is the 200 of a rejected body. *)
Theorem short_schedule_raises_index_error
    (net : nat -> QNetworkReply) (N : Z) (schedule : list N.t)
    (validator : option (list byte -> bool))
    (u : string) (hs : option (list (string * string))) (settings : gmap string string) :
  (length schedule < Z.to_nat N)%nat ->
  (forall j, (j <= length schedule)%nat -> fails validator (net j) = true) ->
  let r := download net N schedule validator (constructed u hs settings) in
  r.1 = Raise (Exn IndexError "list index out of range")
  /\ n_get r.2 = S (length schedule)
  /\ steps (trace r.2) = retry_steps schedule
  /\ ret_code (self r.2) = attribute_status (net (length schedule))
  /\ error_string (self r.2) = ""
  /\ Downloader.data (self r.2) = DataNone.
Proof.
  intros Hshort Hfail. cbv zeta. unfold download. rewrite !bind_gets.
  destruct (set_headers_request (headers (self (constructed u hs settings)))
              {| req_url := url (self (constructed u hs settings)); req_raw_headers := ∅ |}
              None (constructed u hs settings))
    as (old' & s1 & Hrun & Hself & Hn & Htr).
  erewrite bind_run by exact Hrun. cbn [fst snd].
  set (rq := foldl _ _ _) in *.
  remember (length schedule) as k eqn:Hk.
  destruct (loop_retries net rq old' N schedule validator
              k 0 (S (Z.to_nat N - k)) [] s1)
    as (d1 & s2 & Hloop & Hn2 & Hst2 & _ & _ & Hu2 & Hh2 & Hd2 & He2 & _);
    [clear -Hshort; lia|rewrite Hk; apply Nat.le_refl
    |intros j Hj; rewrite Hn; apply Hfail; cbn; lia|].
  destruct (loop_index_error net rq old' N schedule validator (Z.to_nat N - k) k d1 s2)
    as (s3 & Hlast & Hn3 & Hst3 & Hs3);
    [clear -Hshort; lia|rewrite Hk; apply Nat.le_refl| |].
  { rewrite Hn2, Hn. cbn. apply Hfail. apply Nat.le_refl. }
  change (Z.of_nat 0 - 1)%Z with (-1)%Z in Hloop. cbn [Nat.add] in Hloop, Hlast.
  replace (loop_fuel N) with (k + S (Z.to_nat N - k))%nat
    by (unfold loop_fuel; clear -Hshort; lia).
  rewrite Hlast in Hloop. erewrite bind_raise by exact Hloop. cbn [fst snd].
  rewrite Hn3, Hst3, Hst2, Hs3, Hn2, Hn, Htr, Hu2, Hh2, Hd2, He2, Hself.
  cbn. rewrite drop_0, <- retry_steps_snoc, Hk, take_ge by apply Nat.le_refl.
  done.
Qed.

(** The theorem at the default retry count of 5 with a schedule of two
    waits, against a server that answers 404. *)
Lemma short_schedule_raises_index_error_witness :
  let r := download (fun _ => reply_404) 5 [5; 10]%N None
             (constructed "https://data.arr-software.org" None ∅) in
  r.1 = Raise (Exn IndexError "list index out of range")
  /\ n_get r.2 = 3%nat
  /\ steps (trace r.2) = [Attempt; Pause 5; Attempt; Pause 10; Attempt]
  /\ ret_code (self r.2) = Some 404%Z
  /\ error_string (self r.2) = ""
  /\ Downloader.data (self r.2) = DataNone.
Proof.
  cbv zeta.
  apply (short_schedule_raises_index_error (fun _ => reply_404) 5 [5; 10]%N None
           "https://data.arr-software.org" None ∅).
  - vm_compute. lia.
  - intros j Hj. reflexivity.
Defined.

End DownloadEdges.

Section DownloadSettings.
Import Downloader Downloader.DownloaderQGIS.

Lemma no_user_agent_notin hs :
  "User-Agent" ∉ hs.*1 -> no_user_agent hs = true.
Proof.
  induction hs as [|[k v] hs IH]; [done|].
  cbn. intros Hnotin. apply not_elem_of_cons in Hnotin as [Hne Hnotin].
  fold (no_user_agent hs). rewrite IH by done.
  destruct (String.eqb_spec k "User-Agent"); [by subst|done].
Qed.

(** The loop over the headers, for a dict with a [User-Agent] entry: the
    value found in the settings is remembered and the header's value put in
    its place. *)
Lemma set_headers_user_agent hs v : forall req old s,
  NoDup hs.*1 ->
  ("User-Agent", v) ∈ hs ->
  exists req',
    set_headers hs req old s
    = (Ret (req', match qsettings s !! userAgent with
                  | Some p => Some p
                  | None => old
                  end),
       with_qsettings (insert userAgent v) s).
Proof.
  induction hs as [|[k0 v0] hs IH]; intros req old s Hnd Hin; [by inversion Hin|].
  cbn [set_headers]. cbn in Hnd. apply NoDup_cons in Hnd as [Hk0 Hnd].
  destruct (String.eqb_spec k0 "User-Agent") as [->|Hne].
  - assert (v0 = v) as ->.
    { apply elem_of_cons in Hin as [[= ->]|Hin]; [done|].
      destruct Hk0. apply list_elem_of_fmap. by exists ("User-Agent", v). }
    unfold bind at 1, QSettings_contains, gets.
    destruct (set_headers_no_user_agent hs (setRawHeader "User-Agent" v req)
                (match qsettings s !! userAgent with Some p => Some p | None => old end)
                (with_qsettings (insert userAgent v) s)
                (no_user_agent_notin hs Hk0)) as (req' & Hrun).
    exists req'.
    destruct (qsettings s !! userAgent) as [p|] eqn:Hp.
    + rewrite bool_decide_eq_true_2 by eauto.
      unfold bind, QSettings_value, QSettings_setValue, gets, modify, ret.
      cbn [fst snd]. rewrite Hp. cbn [default]. exact Hrun.
    + rewrite bool_decide_eq_false_2 by (by intros [? ?]).
      unfold bind, QSettings_setValue, modify, ret. cbn [fst snd]. exact Hrun.
  - apply elem_of_cons in Hin as [[= ? ?]|Hin]; [by subst|]. by apply IH.
Qed.

Lemma set_headers_frame hs key : forall req old s,
  key <> userAgent ->
  qsettings (set_headers hs req old s).2 !! key = qsettings s !! key.
Proof.
  induction hs as [|[k v] hs IH]; intros req old s Hkey; [done|].
  cbn [set_headers]. destruct (String.eqb k "User-Agent"); [|by apply IH].
  unfold bind at 1, QSettings_contains, gets.
  destruct (bool_decide _);
    unfold bind, QSettings_value, QSettings_setValue, gets, modify, ret; cbn [fst snd];
    rewrite IH by done; cbn; by rewrite lookup_insert_ne.
Qed.

(** What a download leaves in the settings: what one restoring step makes
    of the settings the header loop left. *)
Lemma download_settings (net : nat -> QNetworkReply) N schedule validator s req' old' s1 :
  set_headers (headers (self s))
    {| req_url := url (self s); req_raw_headers := ∅ |} None s
  = (Ret (req', old'), s1) ->
  qsettings (download net N schedule validator s).2
  = (if old_user_agent_truthy old' then <[userAgent := default "" old']> (qsettings s1)
     else delete userAgent (qsettings s1)).
Proof.
  intros Hrun. unfold download. rewrite !bind_gets.
  erewrite bind_run by exact Hrun. cbn [fst snd].
  pose proof (loop_settings net req' old' N schedule validator (Z.to_nat N) (-1) [] s1)
    as Hset.
  fold (loop_fuel N) in Hset. rewrite <- Hset. clear Hset.
  unfold bind at 1.
  destruct (download_loop _ _ _ _ _ _ _ _ _ _) as [[[q d]| |] s2]; [|done|done].
  cbn [fst snd]. rewrite bind_gets.
  destruct (Py.truthy _); [done|].
  destruct (negb _); [|done].
  unfold bind, decode_utf8. by destruct (Py.utf8_valid d).
Qed.

(** X6. A download with a [User-Agent] header, in a process whose user
    agent setting is absent or holds a non-empty value, leaves the settings
    exactly as it found them, however it ends: the header's value is in the
    settings only until the first reply. *)
Theorem user_agent_restored_with_header
    (net : nat -> QNetworkReply) (N : Z) (schedule : list N.t)
    (validator : option (list byte -> bool))
    (u : string) (hs : list (string * string)) (v : string)
    (settings : gmap string string) :
  NoDup hs.*1 ->
  ("User-Agent", v) ∈ hs ->
  settings !! userAgent <> Some "" ->
  qsettings (download net N schedule validator (constructed u (Some hs) settings)).2
  = settings.
Proof.
  intros Hnd Hin Hprior.
  destruct (set_headers_user_agent hs v {| req_url := u; req_raw_headers := ∅ |} None
              (constructed u (Some hs) settings) Hnd Hin) as (req' & Hrun).
  rewrite (download_settings net N schedule validator (constructed u (Some hs) settings)
             _ _ _ Hrun).
  cbn [constructed qsettings with_qsettings].
  destruct (settings !! userAgent) as [p|] eqn:Hp.
  - assert (Py.truthy p = true) as Ht by (destruct p; [by destruct Hprior|done]).
    cbn [old_user_agent_truthy default]. rewrite Ht.
    rewrite insert_insert_eq. by apply insert_id.
  - cbn [old_user_agent_truthy]. rewrite delete_insert_eq. by apply delete_id.
Qed.

(** The theorem at a process with two settings. *)
Lemma user_agent_restored_with_header_witness :
  let settings : gmap string string :=
    {[ userAgent := "Mozilla/5.0 QGIS/33400"; "/qgis/locale" := "en_AU" ]} in
  qsettings (download (fun _ => reply_404) 1 [5]%N None
               (constructed "https://data.arr-software.org"
                  (Some [("Accept", "*/*"); ("User-Agent", "tuflow")]) settings)).2
  = settings.
Proof.
  cbv zeta.
  apply (user_agent_restored_with_header (fun _ => reply_404) 1 [5]%N None
           "https://data.arr-software.org" [("Accept", "*/*"); ("User-Agent", "tuflow")]
           "tuflow").
  - cbn. apply NoDup_cons. split; [|apply NoDup_singleton].
    intros [=]%list_elem_of_singleton.
  - apply elem_of_cons. right. apply elem_of_cons. by left.
  - rewrite lookup_insert_eq. discriminate.
Defined.

(** X7. A download changes no setting but the user agent one, whatever the
    headers, the policy and the replies, and however it ends. *)
Theorem download_keeps_other_settings
    (net : nat -> QNetworkReply) (N : Z) (schedule : list N.t)
    (validator : option (list byte -> bool))
    (u : string) (hs : option (list (string * string)))
    (settings : gmap string string) (key : string) :
  key <> userAgent ->
  qsettings (download net N schedule validator (constructed u hs settings)).2 !! key
  = settings !! key.
Proof.
  intros Hkey.
  destruct (set_headers_request (headers (self (constructed u hs settings)))
              {| req_url := url (self (constructed u hs settings)); req_raw_headers := ∅ |}
              None (constructed u hs settings)) as (old' & s1 & Hrun & _).
  rewrite (download_settings net N schedule validator (constructed u hs settings)
             _ _ _ Hrun).
  pose proof (set_headers_frame (headers (self (constructed u hs settings))) key
                {| req_url := url (self (constructed u hs settings)); req_raw_headers := ∅ |}
                None (constructed u hs settings) Hkey) as Hframe.
  rewrite Hrun in Hframe. cbn [snd constructed qsettings] in Hframe.
  destruct (old_user_agent_truthy old').
  - by rewrite lookup_insert_ne.
  - by rewrite lookup_delete_ne.
Qed.

(** The theorem at the locale setting. *)
Lemma download_keeps_other_settings_witness :
  qsettings (download (fun _ => reply_404) 1 [5]%N None
               (constructed "https://data.arr-software.org"
                  (Some [("User-Agent", "tuflow")])
                  {[ userAgent := "Mozilla/5.0 QGIS/33400"; "/qgis/locale" := "en_AU" ]})).2
    !! "/qgis/locale"
  = ({[ userAgent := "Mozilla/5.0 QGIS/33400"; "/qgis/locale" := "en_AU" ]}
       : gmap string string) !! "/qgis/locale".
Proof.
  apply (download_keeps_other_settings (fun _ => reply_404) 1 [5]%N None).
  discriminate.
Defined.

End DownloadSettings.

Section RequestsDownload.
Import Downloader.

Variable requests_get : string -> list (string * string) -> exn + Response.

Local Abbreviation run u hs settings :=
  (DownloaderRequests.download requests_get (constructed u hs settings)).

Ltac requests_run :=
  unfold DownloaderRequests.download, DownloaderRequests.do_requests_get,
    DownloaderRequests.zip_not_in, bind, gets, emit, modify, set_ret_code,
    set_error_string, set_data, decode_utf8, ret, raise, with_self;
  cbn [fst snd constructed self __init__ url headers qsettings n_get trace
       data ret_code error_string app].



(** X8. The standalone transport sends exactly one request, with the url
    and the headers of the instance, whatever the answer: it never retries,
    never touches the settings and makes no Qt request; url and headers of
    the instance stay as constructed. *)
Theorem requests_download_sends_one_request
    (u : string) (hs : option (list (string * string))) (settings : gmap string string) :
  let r := run u hs settings in
  trace r.2 = [EvRequestsGet u (default [] hs)]
  /\ qsettings r.2 = settings
  /\ n_get r.2 = 0%nat
  /\ url (self r.2) = u
  /\ Downloader.headers (self r.2) = default [] hs.
Proof.
  cbv zeta. requests_run.
  destruct (requests_get u _) as [e|r]; [by destruct hs|].
  cbn [fst snd self trace qsettings n_get url headers].
  destruct (Response_ok r); cbn [negb]; [|by destruct hs].
  destruct (headers_get_content_type r) as [ct|]; [|by destruct hs].
  cbn [fst snd].
  destruct (negb (Py.contains "zip" ct)), (content r) as [b|];
    cbn [fst snd DownloaderRequests.data_of_content]; try (by destruct hs).
  destruct (Py.utf8_valid b); by destruct hs.
Qed.




(** X12. A failure below HTTP (no connection, timeout, bad url) comes out of
    [download] as the exception [requests.get] raised, with the instance as
    constructed: no status code, no error string, no data. *)
Theorem requests_transport_failure_propagates
    (u : string) (hs : option (list (string * string))) (settings : gmap string string)
    (e : exn) :
  requests_get u (default [] hs) = inl e ->
  let x := run u hs settings in
  x.1 = Raise e
  /\ self x.2 = __init__ u hs
  /\ ok (self x.2) = false.
Proof.
  intros Hget. cbv zeta. requests_run.
  replace (match hs with Some h => h | None => [] end) with (default [] hs)
    by (by destruct hs).
  by rewrite Hget.
Qed.

End RequestsDownload.




Lemma requests_transport_failure_propagates_witness :
  let x := Downloader.DownloaderRequests.download refused_requests_get
             (Downloader.constructed "https://data.arr-software.org" None ∅) in
  x.1 = Raise (Exn RequestException "Connection refused")
  /\ Downloader.self x.2 = Downloader.__init__ "https://data.arr-software.org" None
  /\ Downloader.ok (Downloader.self x.2) = false.
Proof.
  cbv zeta.
  apply (requests_transport_failure_propagates refused_requests_get
           "https://data.arr-software.org" None ∅ _ eq_refl).
Defined.

Section DownloadRequests.
Import Downloader Downloader.DownloaderQGIS.

Section Loop.

Variable net : nat -> QNetworkReply.
Variable req : QNetworkRequest.
Variable old : option string.
Variable retry_count : Z.
Variable retry_interval : list N.
Variable validator : option (list byte -> bool).

Local Abbreviation loop := (download_loop net req old retry_count retry_interval validator).

Ltac iteration :=
  cbn [download_loop];
  unfold bind, netman_get, restore_user_agent, set_ret_code, set_error_string,
    gets, modify, logger_info, sleep, emit, getitem, ret, raise, out_of_fuel,
    with_self, QSettings_setValue, QSettings_remove, with_qsettings;
  cbn -[insert delete Z.ltb Z.add download_loop].

Ltac branches :=
  repeat match goal with
         | |- context [old_user_agent_truthy ?o] =>
           destruct (old_user_agent_truthy o);
           cbn -[insert delete Z.ltb Z.add download_loop]
         | |- context [bool_decide (?a = Some 200%Z)] =>
           destruct (bool_decide_reflect (a = Some 200%Z));
           cbn -[insert delete Z.ltb Z.add download_loop]
         | |- context [rejected ?v ?d] =>
           destruct (rejected v d) eqn:?;
           cbn -[insert delete Z.ltb Z.add download_loop]
         | |- context [(?a <? ?b)%Z] =>
           destruct (Z.ltb_spec a b);
           cbn -[insert delete Z.ltb Z.add download_loop]
         | |- context [Py.index ?l ?i] =>
           destruct (Py.index l i) eqn:?;
           cbn -[insert delete Z.ltb Z.add download_loop]
         end.

Lemma one_request_get s (t : list Event) :
  requests_sent t = [] ->
  one_request req s ->
  one_request req {| self := self s; qsettings := qsettings s; n_get := S (n_get s);
                 trace := (trace s ++ [EvGet req]) ++ t |}.
Proof.
  unfold one_request. cbn. intros Ht Hs.
  rewrite !requests_sent_app, Ht, Hs, app_nil_r. cbn.
  by rewrite <- replicate_cons_app.
Qed.

Lemma loop_one_request : forall fuel try_count dat s,
  one_request req s -> one_request req (loop fuel try_count dat s).2.
Proof.
  induction fuel as [|fuel IH]; intros try_count dat s Hs; [done|].
  iteration.
  branches; cbn -[insert delete download_loop];
    try apply IH;
    first
      [ apply (one_request_get s []); done
      | apply (one_request_get s [_]); done
      | apply (one_request_get s [_; _]); done
      | apply (one_request_get s [_; _; _]); done
      | apply (one_request_get s [_; _; _; _]); done
      | apply (one_request_get s [_; _; _; _; _]); done
      | idtac ].
  all: unfold one_request in *; cbn;
    rewrite <- ?app_assoc, !requests_sent_app, Hs; cbn;
    rewrite ?app_nil_r; by rewrite <- replicate_cons_app.
Qed.

Lemma loop_first_request fuel try_count dat s :
  (n_get s < n_get (loop (S fuel) try_count dat s).2)%nat.
Proof.
  assert (Hmono : forall fuel try_count dat s,
             (n_get s <= n_get (loop fuel try_count dat s).2)%nat).
  { clear. induction fuel as [|fuel' IH]; intros try_count dat s; [done|].
    iteration.
    branches; cbn -[insert delete download_loop];
      try (etrans; [|apply IH]); cbn; lia. }
  iteration.
  branches; cbn -[insert delete download_loop];
    try (eapply Nat.lt_le_trans; [|apply Hmono]); cbn; lia.
Qed.

End Loop.

Lemma foldl_setRawHeader_url hs : forall r0,
  req_url (foldl (fun r kv => setRawHeader kv.1 kv.2 r) r0 hs) = req_url r0.
Proof. induction hs as [|[k v] hs IH]; intros r0; cbn; [done|by rewrite IH]. Qed.

Lemma foldl_setRawHeader_lookup hs : forall r0 key,
  NoDup hs.*1 ->
  req_raw_headers (foldl (fun r kv => setRawHeader kv.1 kv.2 r) r0 hs) !! key
  = match (list_to_map hs : gmap string string) !! key with
    | Some v => Some v
    | None => req_raw_headers r0 !! key
    end.
Proof.
  induction hs as [|[k v] hs IH]; intros r0 key Hnd; cbn; [done|].
  cbn in Hnd. apply NoDup_cons in Hnd as [Hk Hnd]. rewrite IH by done. cbn.
  destruct (decide (key = k)) as [->|Hne].
  - rewrite !lookup_insert_eq.
    by rewrite (not_elem_of_list_to_map_1 (M:=gmap string) hs k Hk).
  - by rewrite !lookup_insert_ne.
Qed.

(** After the loop a download adds no event and receives no reply. *)
Lemma download_trace_n_get (net : nat -> QNetworkReply) N schedule validator s req' old' s1 :
  set_headers (headers (self s)) {| req_url := url (self s); req_raw_headers := ∅ |} None s
  = (Ret (req', old'), s1) ->
  let r := download net N schedule validator s in
  let l := download_loop net req' old' N schedule validator (loop_fuel N) (-1) [] s1 in
  trace r.2 = trace l.2 /\ n_get r.2 = n_get l.2.
Proof.
  intros Hrun. cbv zeta.
  remember (download net N schedule validator s) as r eqn:Hr.
  unfold download in Hr. rewrite !bind_gets in Hr.
  erewrite bind_run in Hr by exact Hrun. cbn [fst snd] in Hr.
  unfold bind at 1 in Hr.
  destruct (download_loop _ _ _ _ _ _ _ _ _ _) as [[[q d]| |] s2];
    cbn [fst snd] in *; [|by subst r..].
  rewrite bind_gets in Hr.
  destruct (Py.truthy _); [by subst r|].
  destruct (negb _); [|by subst r].
  unfold bind, decode_utf8 in Hr. destruct (Py.utf8_valid d); by subst r.
Qed.

(** X13. Every request a download puts on the network, the first one and
    each retry, is the same request: it goes to the url of the instance and
    carries each header of the dict with its value, and nothing else, for
    header names that stay distinct when case is ignored (Qt takes names
    that differ in case only for one header). There is at least one
    request, and one for each reply received, however the download ends. *)
Theorem every_request_carries_url_and_headers
    (net : nat -> QNetworkReply) (N : Z) (schedule : list N.t)
    (validator : option (list byte -> bool))
    (u : string) (hs : option (list (string * string))) (settings : gmap string string) :
  NoDup (FindExe.lower <$> (default [] hs).*1) ->
  let r := download net N schedule validator (constructed u hs settings) in
  let rq := request_of u (default [] hs) in
  requests_sent (trace r.2) = replicate (n_get r.2) rq
  /\ (1 <= n_get r.2)%nat
  /\ req_url rq = u
  /\ forall key v, req_raw_headers rq !! key = Some v <-> (key, v) ∈ default [] hs.
Proof.
  intros Hnd%NoDup_fmap_1. cbv zeta.
  assert (Hrun : let r := download net N schedule validator (constructed u hs settings) in
                 requests_sent (trace r.2) = replicate (n_get r.2) (request_of u (default [] hs))
                 /\ (1 <= n_get r.2)%nat).
  { cbv zeta.
    destruct (set_headers_request (headers (self (constructed u hs settings)))
                {| req_url := url (self (constructed u hs settings)); req_raw_headers := ∅ |}
                None (constructed u hs settings))
      as (old' & s1 & Hset & Hself & Hn & Htr).
    destruct (download_trace_n_get net N schedule validator (constructed u hs settings)
                _ _ _ Hset) as [-> ->].
    assert (Hreq : foldl (fun r kv => setRawHeader kv.1 kv.2 r)
                     {| req_url := url (self (constructed u hs settings));
                        req_raw_headers := ∅ |}
                     (headers (self (constructed u hs settings)))
                   = request_of u (default [] hs)) by (by destruct hs).
    rewrite Hreq. set (rq := request_of u (default [] hs)).
    assert (H1 : one_request rq s1) by (unfold one_request; by rewrite Htr, Hn).
    split.
    - apply (loop_one_request net rq old' N schedule validator (loop_fuel N) (-1) [] s1 H1).
    - pose proof (loop_first_request net rq old' N schedule validator (Z.to_nat N) (-1) [] s1)
        as Hfirst.
      fold (loop_fuel N) in Hfirst. clear -Hfirst. lia. }
  cbv zeta in Hrun. destruct Hrun as [Hsent Hpos].
  split; [done|]. split; [done|]. split.
  { apply (foldl_setRawHeader_url (default [] hs) {| req_url := u; req_raw_headers := ∅ |}). }
  intros key v. unfold request_of.
  rewrite foldl_setRawHeader_lookup by done. cbn [req_raw_headers].
  rewrite lookup_empty.
  rewrite (elem_of_list_to_map (M:=gmap string) (default [] hs) key v Hnd).
  destruct (list_to_map _ !! key); split; congruence.
Qed.

(** The theorem at a request with two headers, against a server that is
    unavailable once. *)
Lemma every_request_carries_url_and_headers_witness :
  let hs := [("Accept", "*/*"); ("User-Agent", "tuflow")] in
  let r := download flaky_net default_retry_count default_retry_interval None
             (constructed "https://data.arr-software.org" (Some hs) ∅) in
  let rq := request_of "https://data.arr-software.org" hs in
  requests_sent (trace r.2) = replicate (n_get r.2) rq
  /\ (1 <= n_get r.2)%nat
  /\ req_url rq = "https://data.arr-software.org"
  /\ forall key v, req_raw_headers rq !! key = Some v <-> (key, v) ∈ hs.
Proof.
  cbv zeta.
  apply (every_request_carries_url_and_headers flaky_net default_retry_count
           default_retry_interval None "https://data.arr-software.org"
           (Some [("Accept", "*/*"); ("User-Agent", "tuflow")]) ∅).
  apply NoDup_cons. split; [|apply NoDup_singleton].
  intros [=]%list_elem_of_singleton.
Defined.

End DownloadRequests.

(** ** The report scans on files that are missing or cannot be read *)

Section ScanErrors.
Import Host.

(** X14. [_scan_report] by what the file system answers. The one
    exception it lets through is the one of the existence test of the
    report file, which comes before its [try] block: the scan then raises
    it, with nothing opened and nothing reported. In every other case it
    returns. A report file that does not exist is not opened and nothing is
    emitted. A file that cannot be opened gives one warning carrying the
    exception. A file that is read gives its first ten diagnostic lines and
    then one more warning: the ["..."] marker when an eleventh diagnostic
    line was met, whatever comes after it, and else the exception when
    reading failed; so a read error past the eleventh diagnostic line is
    never noticed, and one before it hides the lines after it without a
    marker. *)
Theorem scan_report_on_any_file
    (os : OS) (p : string) (fb : option Cancellable) (s : State) :
  let run := SwmmRunInpOrGpkg._scan_report os p fb s in
  (forall e, path_exists os p = inl e -> run = (Raise e, add_events s [PathExists p]))
  /\ (forall e, run.1 = Raise e -> path_exists os p = inl e)
  /\ (path_exists os p = inr false -> run = (Ret tt, add_events s [PathExists p]))
  /\ (forall e,
        path_exists os p = inr true -> open_r os p = inl e ->
        run = (Ret tt,
               add_events s ([PathExists p; Open p] ++ report_warning fb (ScanException e))))
  /\ (forall ls fail,
        path_exists os p = inr true ->
        open_r os p = inr {| lines := ls; failure := fail |} ->
        let diag := List.filter starts_with_keyword ls in
        run = (Ret tt,
               add_events s
                 ([PathExists p; Open p]
                  ++ flat_map (fun l => report_warning fb (Text (Py.strip l))) (take 10 diag)
                  ++ (if (10 <? length diag)%nat then report_warning fb ellipsis
                      else match fail with
                           | Some e => report_warning fb (ScanException e)
                           | None => []
                           end)))).
Proof.
  cbv zeta. rewrite scan_report_cases.
  split; [by intros e ->|]. split.
  { intros e. by destruct (path_exists os p) as [e'|[|]]; intros [= ->]. }
  split; [by intros ->|]. split.
  - by intros e -> ->.
  - by intros ls fail -> ->.
Qed.

(** X15. The inline scan of swmm_run_inp.py behaves in the same way, with
    its own test for a diagnostic line (the keyword anywhere in the line)
    and always with the feedback object: it raises what its existence test
    raises, and nothing else. *)
Theorem processAlgorithm_scan_on_any_file (os : OS) (p : string) (s : State) :
  let run := SwmmRunInp.processAlgorithm_scan os p s in
  let warn m := [PushWarning m; LogMessage m Warning] in
  (forall e, path_exists os p = inl e -> run = (Raise e, add_events s [PathExists p]))
  /\ (forall e, run.1 = Raise e -> path_exists os p = inl e)
  /\ (path_exists os p = inr false -> run = (Ret tt, add_events s [PathExists p]))
  /\ (forall e,
        path_exists os p = inr true -> open_r os p = inl e ->
        run = (Ret tt, add_events s ([PathExists p; Open p] ++ warn (ScanException e))))
  /\ (forall ls fail,
        path_exists os p = inr true ->
        open_r os p = inr {| lines := ls; failure := fail |} ->
        let diag := List.filter contains_keyword ls in
        run = (Ret tt,
               add_events s
                 ([PathExists p; Open p]
                  ++ flat_map (fun l => warn (Text (Py.strip l))) (take 10 diag)
                  ++ (if (10 <? length diag)%nat then warn ellipsis
                      else match fail with
                           | Some e => warn (ScanException e)
                           | None => []
                           end)))).
Proof.
  cbv zeta. rewrite processAlgorithm_scan_cases.
  split; [by intros e ->|]. split.
  { intros e. by destruct (path_exists os p) as [e'|[|]]; intros [= ->]. }
  split; [by intros ->|]. split.
  - by intros e -> ->.
  - by intros ls fail -> ->.
Qed.

End ScanErrors.

(** The two theorems at a report whose third read fails, after one
    diagnostic line, and at a report in a folder that may not be
    searched. *)
Lemma scan_report_on_any_file_witness :
  let e := Exn OSError "[Errno 5] Input/output error" in
  let ls := ["  WARNING 04: minimum elevation drop used"; "  Analysis begun"] in
  SwmmRunInpOrGpkg._scan_report
    (os_with_report {| Host.lines := ls; Host.failure := Some e |}) "model.rpt" None
    Host.initial
  = (Ret tt,
     add_events Host.initial
       ([Host.PathExists "model.rpt"; Host.Open "model.rpt"]
        ++ flat_map (fun l => report_warning None (Host.Text (Py.strip l)))
             (take 10 (List.filter starts_with_keyword ls))
        ++ (if (10 <? length (List.filter starts_with_keyword ls))%nat
            then report_warning None ellipsis
            else report_warning None (Host.ScanException e))))
  /\ SwmmRunInpOrGpkg._scan_report locked_os "m.rpt" None Host.initial
     = (Raise permission_denied, add_events Host.initial [Host.PathExists "m.rpt"]).
Proof.
  cbv zeta. split.
  - destruct (scan_report_on_any_file
                (os_with_report
                   {| Host.lines := ["  WARNING 04: minimum elevation drop used"; "  Analysis begun"];
                      Host.failure := Some (Exn OSError "[Errno 5] Input/output error") |})
                "model.rpt" None Host.initial) as (_ & _ & _ & _ & H).
    apply (H _ _ eq_refl eq_refl).
  - destruct (scan_report_on_any_file locked_os "m.rpt" None Host.initial) as (H & _).
    apply (H _ eq_refl).
Defined.

Lemma processAlgorithm_scan_on_any_file_witness :
  let e := Exn OSError "[Errno 5] Input/output error" in
  let ls := ["  WARNING 04: minimum elevation drop used"; "  Analysis begun"] in
  let warn m := [Host.PushWarning m; Host.LogMessage m Host.Warning] in
  SwmmRunInp.processAlgorithm_scan
    (os_with_report {| Host.lines := ls; Host.failure := Some e |}) "model.rpt"
    Host.initial
  = (Ret tt,
     add_events Host.initial
       ([Host.PathExists "model.rpt"; Host.Open "model.rpt"]
        ++ flat_map (fun l => warn (Host.Text (Py.strip l)))
             (take 10 (List.filter contains_keyword ls))
        ++ (if (10 <? length (List.filter contains_keyword ls))%nat
            then warn ellipsis
            else warn (Host.ScanException e))))
  /\ SwmmRunInp.processAlgorithm_scan locked_os "m.rpt" Host.initial
     = (Raise permission_denied, add_events Host.initial [Host.PathExists "m.rpt"]).
Proof.
  cbv zeta. split.
  - destruct (processAlgorithm_scan_on_any_file
                (os_with_report
                   {| Host.lines := ["  WARNING 04: minimum elevation drop used"; "  Analysis begun"];
                      Host.failure := Some (Exn OSError "[Errno 5] Input/output error") |})
                "model.rpt" Host.initial) as (_ & _ & _ & _ & H).
    apply (H _ _ eq_refl eq_refl).
  - destruct (processAlgorithm_scan_on_any_file locked_os "m.rpt" Host.initial) as (H & _).
    apply (H _ eq_refl).
Defined.

(** ** The run of the child in the two algorithms *)

Section RunInp.
Import Host.

(** With a feedback object and no task, the read loop of
    swmm_run_inp_or_gpkg.py is the one of swmm_run_inp.py. *)
Lemma read_stdout_inp_eq f ls fail : forall n s,
  SwmmRunInp.read_stdout f n ls fail s
  = SwmmRunInpOrGpkg.read_stdout (Some f) None n ls fail s.
Proof.
  induction ls as [|line rest IH]; intros n s; [done|].
  cbn [SwmmRunInp.read_stdout SwmmRunInpOrGpkg.read_stdout].
  unfold SwmmRunInpOrGpkg.is_canceled, when_feedback, bind, emit, modify, ret,
    feedback_isCanceled.
  destruct (Py.truthy (Py.strip line)); cbn [fst snd trace feedback_polls task_polls];
    (destruct (isCanceled f _); [done|apply IH]).
Qed.

Lemma subprocess_block_inp_eq os args inp f s :
  SwmmRunInp.subprocess_block os args inp f s
  = SwmmRunInpOrGpkg.subprocess_block os args inp (Some f) None s.
Proof.
  unfold SwmmRunInp.subprocess_block, SwmmRunInpOrGpkg.subprocess_block.
  rewrite !bind_emit.
  destruct (popen os args (parent os inp)) as [e|proc]; [done|].
  cbn [lift]. rewrite !bind_ret. unfold try_except, bind.
  destruct (stdout proc) as [out|]; [|done].
  by rewrite read_stdout_inp_eq.
Qed.

Lemma emits_only_scan_lines_inp ls fail : forall c,
  emits_only scan_event (SwmmRunInp.scan_lines ls fail c).
Proof.
  induction ls as [|line rest IH]; intros c; cbn [SwmmRunInp.scan_lines].
  - destruct fail; auto with frame.
  - repeat apply emits_only_if; auto 10 with frame.
Qed.

(** The inline scan returns unless its existence test raises: it asks
    whether the report exists, then adds scan events only. *)
Lemma processAlgorithm_scan_run os p s :
  exists s' evs,
    SwmmRunInp.processAlgorithm_scan os p s = (unless_exists_raises os p tt, s')
    /\ trace s' = trace s ++ PathExists p :: evs
    /\ forallb scan_event evs = true.
Proof.
  unfold SwmmRunInp.processAlgorithm_scan, unless_exists_raises. rewrite bind_emit.
  destruct (path_exists os p) as [e|[|]]; cbn [lift];
    [by exists (add_events s [PathExists p]), []|rewrite bind_ret..]; cbn beta iota.
  - assert (Htry : emits_only scan_event
                     (emit (Open p) ;;
                      rpt <- lift (open_r os p) ;;
                      rpt_truncated <- SwmmRunInp.scan_lines (lines rpt) (failure rpt) 0 ;;
                      if rpt_truncated : bool then
                        emit (PushWarning (Text "...")) ;;
                        emit (LogMessage (Text "...") Warning)
                      else ret tt)).
    { apply emits_only_bind; [auto with frame|]. intros _.
      apply emits_only_bind; [auto with frame|]. intros rpt.
      apply emits_only_bind; [apply emits_only_scan_lines_inp|].
      intros [|]; auto 10 with frame. }
    destruct (Htry (add_events s [PathExists p]))
      as (o & s1 & evs & Hrun & Ho & Ht & Hp & _).
    unfold try_except. rewrite Hrun.
    destruct o as [[]|e|]; [| |done].
    + exists s1, evs. rewrite Ht. cbn. by rewrite <- app_assoc.
    + rewrite bind_emit, emit_run.
      eexists _, (evs ++ [PushWarning (ScanException e); LogMessage (ScanException e) Warning]).
      split; [reflexivity|]. cbn [add_events trace].
      rewrite Ht, forallb_app, Hp. cbn [add_events trace].
      by rewrite <- !app_assoc.
  - exists (add_events s [PathExists p]), []. done.
Qed.

Lemma scans_non_zero_exit code : scans (non_zero_exit code) = 0%nat.
Proof. unfold non_zero_exit. by destruct (code =? 0)%Z. Qed.

Lemma non_zero_exit_run code s :
  (if negb (code =? 0)%Z then
     emit (ReportError (NonZeroExit code) true) ;;
     emit (LogMessage (NonZeroExit code) Critical)
   else ret tt) s
  = (Ret tt, add_events s (non_zero_exit code)).
Proof.
  unfold non_zero_exit. destruct (code =? 0)%Z; cbn [negb].
  - unfold ret. by rewrite add_events_nil.
  - rewrite bind_emit, emit_run. by rewrite add_events_app.
Qed.

(** X16. The run of swmm_run_inp.py scans the report exactly once in
    every run: after an exit code of zero, after a non-zero one, and also
    when the child could not be launched or its output could not be read. An
    exception of the subprocess block is reported and then counted as exit
    code 1; every non-zero exit code is reported as a fatal error before the
    scan. The run returns in every case but one: what the existence test of
    the report file raises, before the [try] block of the scan, leaves the
    run. *)
Theorem processAlgorithm_run_always_scans
    (os : OS) (args : list string) (inp report : string) (f : Cancellable) (s : State) :
  let blk := SwmmRunInp.subprocess_block os args inp f s in
  let run := SwmmRunInp.processAlgorithm_run os args inp report f s in
  run.1 = unless_exists_raises os report tt
  /\ scans (trace run.2) = S (scans (trace s))
  /\ match blk.1 with
     | Ret code =>
       run.2 = (SwmmRunInp.processAlgorithm_scan os report
                  (add_events blk.2 (non_zero_exit code))).2
     | Raise e =>
       run.2 = (SwmmRunInp.processAlgorithm_scan os report
                  (add_events blk.2
                     ([ReportError (RunException e) false;
                       LogMessage (RunException e) Critical]
                      ++ non_zero_exit 1))).2
     | OutOfFuel => False
     end.
Proof.
  cbv zeta.
  pose proof (emits_only_subprocess_block os args inp (Some f) None s) as Hblk.
  rewrite <- subprocess_block_inp_eq in Hblk.
  destruct Hblk as (o & s1 & evs & Hrun & Ho & Ht & Hp & _).
  destruct (run_events_facts evs Hp) as [Hsc _].
  unfold SwmmRunInp.processAlgorithm_run. rewrite Hrun. cbn [fst snd].
  destruct o as [code|e|]; [| |done].
  - erewrite bind_run by (apply try_except_run; exact Hrun).
    erewrite bind_run by apply non_zero_exit_run.
    destruct (processAlgorithm_scan_run os report (add_events s1 (non_zero_exit code)))
      as (s2 & evs2 & Hscan & Htr & Hev).
    destruct (scan_events_facts evs2 Hev) as (_ & _ & Hsc2 & _).
    rewrite Hscan. cbn [fst snd]. rewrite Htr. cbn [add_events trace]. rewrite Ht.
    change (PathExists report :: evs2) with ([PathExists report] ++ evs2).
    rewrite !scans_app, Hsc, Hsc2, scans_non_zero_exit. cbn. repeat split; lia.
  - erewrite bind_run; cycle 1.
    { erewrite try_except_raise by exact Hrun.
      rewrite bind_emit, bind_emit. reflexivity. }
    erewrite bind_run by apply non_zero_exit_run.
    rewrite !add_events_app.
    destruct (processAlgorithm_scan_run os report
                (add_events s1
                   ([ReportError (RunException e) false]
                    ++ [LogMessage (RunException e) Critical] ++ non_zero_exit 1)))
      as (s2 & evs2 & Hscan & Htr & Hev).
    destruct (scan_events_facts evs2 Hev) as (_ & _ & Hsc2 & _).
    cbn [app] in *. rewrite Hscan. cbn [fst snd]. rewrite Htr. cbn [add_events trace].
    rewrite Ht.
    change (PathExists report :: evs2) with ([PathExists report] ++ evs2).
    rewrite !scans_app, Hsc, Hsc2. cbn. repeat split; lia.
Qed.

(** X17. The foreground run of swmm_run_inp_or_gpkg.py. When the
    subprocess block returns an exit code, the report is scanned; the run
    then returns, with a non-zero code reported as a fatal error after the
    scan, unless the existence test of the scan raises: that exception
    leaves the run, and the exit code is not looked at. When the block
    raises, by a child that cannot be launched or output that cannot be
    read, the run returns: the failure is reported twice, as the exception
    and as the exit code 1 of a child that may never have run, and the
    report is not scanned. *)
Theorem foreground_run_reports
    (os : OS) (args : list string) (inp report : string) (f : Cancellable) (s : State) :
  let blk := SwmmRunInpOrGpkg.subprocess_block os args inp (Some f) None s in
  let run := SwmmRunInpOrGpkgForeground.processAlgorithm_run os args inp report f s in
  match blk.1 with
  | Ret code =>
    let scan := SwmmRunInpOrGpkg._scan_report os report (Some f) blk.2 in
    run = match path_exists os report with
          | inl e => (Raise e, scan.2)
          | inr _ => (Ret tt, add_events scan.2 (non_zero_exit code))
          end
  | Raise e =>
    run = (Ret tt,
           add_events blk.2
             ([ReportError (RunException e) false;
               LogMessage (RunException e) Critical;
               ReportError (NonZeroExit 1) true;
               LogMessage (NonZeroExit 1) Critical]))
    /\ scans (trace run.2) = scans (trace s)
  | OutOfFuel => False
  end.
Proof.
  cbv zeta.
  destruct (emits_only_subprocess_block os args inp (Some f) None s)
    as (o & s1 & evs & Hrun & Ho & Ht & Hp & _).
  destruct (run_events_facts evs Hp) as [Hsc _].
  unfold SwmmRunInpOrGpkgForeground.processAlgorithm_run. rewrite Hrun. cbn [fst snd].
  destruct o as [code|e|]; [| |done].
  - unfold bind. rewrite (run_block_returns _ _ _ _ _ _ _ _ _ Hrun).
    unfold unless_exists_raises.
    destruct (path_exists os report); [done|apply non_zero_exit_run].
  - erewrite bind_run by (apply (run_block_raises _ _ _ _ _ _ _ _ _ Hrun)).
    rewrite non_zero_exit_run. cbn [fst snd add_events trace report_exception non_zero_exit].
    rewrite <- !app_assoc, Ht. cbn.
    change (?a :: ?b :: ?c :: ?d :: nil) with ([a; b; c; d] ++ []) at 2.
    rewrite !scans_app, Hsc. cbn. rewrite add_events_app.
    repeat split; try done. lia.
Qed.

(** X18. The two algorithms run the child in the same way: with the same
    feedback object their subprocess blocks do the same and give the same
    result. They part after it: when the block raises, swmm_run_inp.py does
    what swmm_run_inp_or_gpkg.py does and then scans the report; when the
    child exits with 0, each scans the report with its own scan and reports
    nothing else. *)
Theorem algorithms_run_the_child_alike
    (os : OS) (args : list string) (inp report : string) (f : Cancellable) (s : State) :
  let blk := SwmmRunInp.subprocess_block os args inp f s in
  let a := SwmmRunInp.processAlgorithm_run os args inp report f s in
  let b := SwmmRunInpOrGpkgForeground.processAlgorithm_run os args inp report f s in
  blk = SwmmRunInpOrGpkg.subprocess_block os args inp (Some f) None s
  /\ (forall e, blk.1 = Raise e ->
        a.2 = (SwmmRunInp.processAlgorithm_scan os report b.2).2)
  /\ (blk.1 = Ret 0%Z ->
      a.2 = (SwmmRunInp.processAlgorithm_scan os report blk.2).2
      /\ b.2 = (SwmmRunInpOrGpkg._scan_report os report (Some f) blk.2).2).
Proof.
  cbv zeta. split; [apply subprocess_block_inp_eq|].
  unfold SwmmRunInp.processAlgorithm_run,
    SwmmRunInpOrGpkgForeground.processAlgorithm_run.
  pose proof (subprocess_block_inp_eq os args inp f s) as Heq.
  destruct (SwmmRunInp.subprocess_block os args inp f s) as [o s1] eqn:Hrun.
  symmetry in Heq. cbn [fst snd]. split.
  - intros e ->.
    erewrite bind_run; cycle 1.
    { erewrite try_except_raise by exact Hrun.
      rewrite bind_emit, bind_emit. reflexivity. }
    erewrite bind_run by apply non_zero_exit_run.
    erewrite (bind_run (SwmmRunInpOrGpkg._run_swmm_process _ _ _ _ _ _))
      by (apply (run_block_raises _ _ _ _ _ _ _ _ _ Heq)).
    rewrite non_zero_exit_run. cbn [snd report_exception].
    by rewrite !add_events_app.
  - intros ->. split.
    + erewrite bind_run by (apply try_except_run; exact Hrun).
      erewrite bind_run by apply non_zero_exit_run.
      cbn [non_zero_exit Z.eqb]. by rewrite add_events_nil.
    + unfold bind. rewrite (run_block_returns _ _ _ _ _ _ _ _ _ Heq).
      unfold unless_exists_raises.
      destruct (path_exists os report); [done|].
      cbn [negb Z.eqb]. reflexivity.
Qed.

(** The theorem at a launch that fails and at the sample child left
    alone. *)
Lemma algorithms_run_the_child_alike_witness :
  let no_exe := os_with_child (inl (Exn OSError "[WinError 2] file not found")) sample_os in
  let quiet := {| isCanceled := fun _ => false |} in
  (SwmmRunInp.processAlgorithm_run no_exe ["runswmm.exe"] "m.inp" "m.rpt" quiet initial).2
  = (SwmmRunInp.processAlgorithm_scan no_exe "m.rpt"
       (SwmmRunInpOrGpkgForeground.processAlgorithm_run no_exe ["runswmm.exe"] "m.inp"
          "m.rpt" quiet initial).2).2
  /\ (SwmmRunInp.processAlgorithm_run sample_os ["runswmm.exe"] "m.inp" "m.rpt" quiet
        initial).2
     = (SwmmRunInp.processAlgorithm_scan sample_os "m.rpt"
          (SwmmRunInp.subprocess_block sample_os ["runswmm.exe"] "m.inp" quiet initial).2).2.
Proof.
  cbv zeta. split.
  - destruct (algorithms_run_the_child_alike
                (os_with_child (inl (Exn OSError "[WinError 2] file not found")) sample_os)
                ["runswmm.exe"] "m.inp" "m.rpt" {| isCanceled := fun _ => false |} initial)
      as (_ & H & _).
    apply (H (Exn OSError "[WinError 2] file not found")). reflexivity.
  - destruct (algorithms_run_the_child_alike sample_os
                ["runswmm.exe"] "m.inp" "m.rpt" {| isCanceled := fun _ => false |} initial)
      as (_ & _ & H).
    apply H. reflexivity.
Defined.

End RunInp.

(** ** [_find_runswmm_exe] *)

Section SortByKey.

Context {A K : Type} (lt : K -> K -> bool) (key : A -> K).

Hypothesis lt_asym : forall a b, lt a b = true -> lt b a = false.
Hypothesis le_trans : forall a b c, lt b a = false -> lt c b = false -> lt c a = false.

Local Abbreviation le := (fun x y : A => lt (key y) (key x) = false).

Lemma insert_sorted_perm x l : FindExe.insert_sorted lt key x l ≡ₚ x :: l.
Proof.
  induction l as [|y l IH]; [done|]. cbn.
  destruct (lt (key y) (key x)); [|done].
  by rewrite IH, Permutation_swap.
Qed.

Lemma sort_perm l : FindExe.sort lt key l ≡ₚ l.
Proof.
  induction l as [|x l IH]; [done|]. cbn.
  by rewrite insert_sorted_perm, IH.
Qed.

Lemma insert_sorted_sorted x l :
  StronglySorted le l -> StronglySorted le (FindExe.insert_sorted lt key x l).
Proof.
  induction 1 as [|y l Hl IH Hy]; cbn.
  - repeat constructor.
  - destruct (lt (key y) (key x)) eqn:Hyx.
    + constructor; [done|].
      rewrite insert_sorted_perm. constructor; [by apply lt_asym|done].
    + constructor; [by constructor|].
      constructor; [done|].
      eapply Forall_impl; [exact Hy|]. intros z Hz. cbn in *.
      by apply (le_trans _ (key y)).
Qed.

Lemma sort_sorted l : StronglySorted le (FindExe.sort lt key l).
Proof.
  induction l as [|x l IH]; cbn; [constructor|by apply insert_sorted_sorted].
Qed.

Lemma sorted_last_max l m :
  StronglySorted le l -> last l = Some m -> forall q, q ∈ l -> lt (key m) (key q) = false.
Proof.
  induction 1 as [|y l Hl IH Hy]; [done|].
  intros Hlast q Hq. destruct l as [|z l'].
  - cbn in Hlast. injection Hlast as <-. apply list_elem_of_singleton in Hq as ->.
    destruct (lt (key y) (key y)) eqn:H; [|done]. by rewrite (lt_asym _ _ H) in H.
  - change (last (y :: z :: l')) with (last (z :: l')) in Hlast.
    apply elem_of_cons in Hq as [->|Hq]; [|by apply IH].
    rewrite Forall_forall in Hy. apply Hy.
    apply last_Some_elem_of in Hlast. exact Hlast.
Qed.

(** The last item of the sorted list is one of the list, and none of the
    list has a greater key. *)
Lemma sort_last l m :
  last (FindExe.sort lt key l) = Some m ->
  m ∈ l /\ forall q, q ∈ l -> lt (key m) (key q) = false.
Proof.
  intros Hlast. split.
  - rewrite <- sort_perm. by apply last_Some_elem_of.
  - intros q Hq. apply (sorted_last_max _ _ (sort_sorted l) Hlast).
    by rewrite sort_perm.
Qed.


End SortByKey.

Section KeyOrder.
Import FindExe.

Lemma ascii_compare_N a b : Ascii.compare a b = (N_of_ascii a ?= N_of_ascii b)%N.
Proof. reflexivity. Qed.

Lemma string_compare_refl s : String.compare s s = Eq.
Proof.
  induction s as [|c s IH]; [done|]. cbn.
  by rewrite ascii_compare_N, N.compare_refl.
Qed.

Lemma ascii_compare_eq a b : Ascii.compare a b = Eq -> a = b.
Proof. apply Ascii.compare_eq_iff. Qed.

(** [<=] on strings is transitive. *)
Lemma string_le_trans : forall s1 s2 s3,
  String.compare s1 s2 <> Gt -> String.compare s2 s3 <> Gt -> String.compare s1 s3 <> Gt.
Proof.
  induction s1 as [|c1 s1 IH]; intros [|c2 s2] [|c3 s3]; cbn; try done.
  rewrite !ascii_compare_N.
  destruct (N.compare_spec (N_of_ascii c1) (N_of_ascii c2)) as [H12|H12|H12];
    destruct (N.compare_spec (N_of_ascii c2) (N_of_ascii c3)) as [H23|H23|H23];
    destruct (N.compare_spec (N_of_ascii c1) (N_of_ascii c3)) as [H13|H13|H13];
    try done; try lia.
  apply IH.
Qed.

Lemma string_ltb_geb s1 s2 : String.ltb s2 s1 = false <-> String.compare s1 s2 <> Gt.
Proof.
  unfold String.ltb. rewrite (String.compare_antisym s1 s2).
  destruct (String.compare s2 s1); cbn; split; done.
Qed.

Lemma version_eqb_eq v w : version_eqb v w = true <-> v = w.
Proof.
  destruct v as [[a b] c], w as [[a' b'] c']. cbn.
  rewrite !andb_true_iff, !N.eqb_eq. split; [by intros [[-> ->] ->]|by intros [= -> -> ->]].
Qed.

Lemma version_lt_asym v w : version_lt v w = true -> version_lt w v = false.
Proof.
  destruct v as [[a b] c], w as [[a' b'] c']. cbn.
  destruct (N.eqb_spec a a'), (N.eqb_spec a' a), (N.eqb_spec b b'), (N.eqb_spec b' b);
    cbn; rewrite ?N.ltb_lt, ?N.ltb_ge; try lia; try congruence.
Qed.

Lemma version_le_trans u v w :
  version_lt v u = false -> version_lt w v = false -> version_lt w u = false.
Proof.
  destruct u as [[a b] c], v as [[a' b'] c'], w as [[a'' b''] c'']. cbn.
  destruct (N.eqb_spec a' a), (N.eqb_spec a'' a'), (N.eqb_spec a'' a),
    (N.eqb_spec b' b), (N.eqb_spec b'' b'), (N.eqb_spec b'' b);
    cbn; rewrite ?N.ltb_lt, ?N.ltb_ge; try lia; try congruence.
Qed.

Lemma version_lt_total v w :
  version_lt v w = false -> version_lt w v = false -> v = w.
Proof.
  destruct v as [[a b] c], w as [[a' b'] c']. cbn.
  destruct (N.eqb_spec a a'), (N.eqb_spec a' a), (N.eqb_spec b b'), (N.eqb_spec b' b);
    cbn; rewrite ?N.ltb_ge; intros; try lia; try congruence.
  f_equal; [f_equal|]; try congruence. lia.
Qed.

Lemma version_lt_irrefl v : version_lt v v = false.
Proof.
  destruct (version_lt v v) eqn:H; [|done]. by rewrite (version_lt_asym _ _ H) in H.
Qed.

Lemma key_lt_asym k1 k2 : key_lt k1 k2 = true -> key_lt k2 k1 = false.
Proof.
  unfold key_lt. destruct k1 as [v1 s1], k2 as [v2 s2]. cbn.
  destruct (version_eqb v1 v2) eqn:H12, (version_eqb v2 v1) eqn:H21; cbn.
  - unfold String.ltb. rewrite (String.compare_antisym s1 s2).
    by destruct (String.compare s2 s1).
  - apply version_eqb_eq in H12 as ->.
    assert (version_eqb v2 v2 = true) by (by apply version_eqb_eq). congruence.
  - apply version_eqb_eq in H21 as ->.
    assert (version_eqb v1 v1 = true) by (by apply version_eqb_eq). congruence.
  - apply version_lt_asym.
Qed.

Lemma key_le_trans k1 k2 k3 :
  key_lt k2 k1 = false -> key_lt k3 k2 = false -> key_lt k3 k1 = false.
Proof.
  unfold key_lt. destruct k1 as [v1 s1], k2 as [v2 s2], k3 as [v3 s3]. cbn.
  destruct (version_eqb v2 v1) eqn:H21; cbn.
  - apply version_eqb_eq in H21 as ->.
    destruct (version_eqb v3 v1) eqn:H31; cbn; [|done].
    rewrite !string_ltb_geb. apply string_le_trans.
  - intros H12. destruct (version_eqb v3 v2) eqn:H32; cbn.
    + apply version_eqb_eq in H32 as ->. by rewrite H21.
    + intros H23.
      destruct (version_eqb v3 v1) eqn:H31; cbn; [|by apply (version_le_trans _ v2)].
      apply version_eqb_eq in H31 as ->.
      pose proof (version_lt_total _ _ H12 H23) as ->.
      assert (version_eqb v1 v1 = true) by (by apply version_eqb_eq). congruence.
Qed.

End KeyOrder.

Section FindExeProperties.
Import FindExe.

Variable fs : Files.

Lemma elem_of_List_filter {A} (f : A -> bool) l x :
  x ∈ List.filter f l <-> x ∈ l /\ f x = true.
Proof. rewrite !list_elem_of_In. apply filter_In. Qed.

Lemma scan_dirs_spec swmm_dirs : forall candidates,
  scan_dirs fs swmm_dirs candidates
  = candidates
    ++ List.filter (exists_ fs) (map (fun d => joinpath fs d "runswmm.exe") swmm_dirs).
Proof.
  induction swmm_dirs as [|d rest IH]; intros candidates; cbn.
  - by rewrite app_nil_r.
  - destruct (exists_ fs _); rewrite IH; [by rewrite <- app_assoc|done].
Qed.

Lemma scan_roots_elem_of roots p : forall candidates,
  p ∈ scan_roots fs roots candidates
  <-> p ∈ candidates
      \/ exists root swmm_dirs swmm_dir,
           root ∈ roots
           /\ glob fs root "EPA SWMM*" = inr swmm_dirs
           /\ swmm_dir ∈ swmm_dirs
           /\ p = joinpath fs swmm_dir "runswmm.exe"
           /\ exists_ fs p = true.
Proof.
  induction roots as [|root rest IH]; intros candidates; cbn [scan_roots].
  - split; [by left|]. intros [H|(root & ? & ? & H & _)]; [done|by inversion H].
  - destruct (glob fs root "EPA SWMM*") as [e|swmm_dirs] eqn:Hglob; rewrite IH.
    + split; (intros [H|(r & ds & d & Hr & Hg & Hd & Hp)]; [by left|right]).
      * exists r, ds, d. rewrite elem_of_cons. auto.
      * exists r, ds, d. apply elem_of_cons in Hr as [->|Hr]; [congruence|done].
    + rewrite scan_dirs_spec, elem_of_app, elem_of_List_filter, list_elem_of_fmap.
      split.
      * intros [[H|[(d & -> & Hd) Hex]]|(r & ds & d & Hr & Hg & Hd & Hp)].
        -- by left.
        -- right. exists root, swmm_dirs, d. rewrite elem_of_cons. auto.
        -- right. exists r, ds, d. rewrite elem_of_cons. auto.
      * intros [H|(r & ds & d & Hr & Hg & Hd & Hp & Hex)]; [by left; left|].
        apply elem_of_cons in Hr as [->|Hr].
        -- left. right. rewrite Hglob in Hg. injection Hg as <-.
           split; [by exists d|done].
        -- right. by exists r, ds, d.
Qed.

(** The roots the method searches: the values of the two variables that
    are set and not empty. *)
Lemma roots_program_folders root :
  root ∈ roots fs
  <-> exists var, program_folder var /\ environ_get fs var = Some root /\ root <> "".
Proof.
  unfold roots, program_files, program_folder. rewrite list_elem_of_In.
  cbn [omap list_omap].
  split.
  - destruct (environ_get fs "ProgramFiles") as [r1|] eqn:H1;
      destruct (environ_get fs "ProgramFiles(x86)") as [r2|] eqn:H2;
      try (destruct (Py.truthy r1) eqn:T1); try (destruct (Py.truthy r2) eqn:T2);
      cbn; intros H; repeat (destruct H as [<-|H]); try done;
      first [ exists "ProgramFiles"; by eauto using truthy_nonempty
            | exists "ProgramFiles(x86)"; by eauto using truthy_nonempty ].
  - intros (var & [->| ->] & Hget & Hne); rewrite Hget, (nonempty_truthy _ Hne).
    + by left.
    + destruct (environ_get fs "ProgramFiles") as [r1|]; [destruct (Py.truthy r1)|];
        cbn; auto.
Qed.

Lemma candidates_installed p :
  p ∈ scan_roots fs (roots fs) [] <-> installed fs p.
Proof.
  rewrite scan_roots_elem_of. unfold installed. split.
  - intros [H|(root & ds & d & Hroot & H)]; [by inversion H|].
    apply roots_program_folders in Hroot as (var & Hvar & Hget & Hne).
    by exists var, root, ds, d.
  - intros (var & root & ds & d & Hvar & Hget & Hne & H). right.
    exists root, ds, d. split; [|done]. apply roots_program_folders. by exists var.
Qed.


(** X20. What [_find_runswmm_exe] returns is an install, and no install
    has a greater sort key: none has a newer version, the three numbers
    compared as numbers, and among those of the same version none has a
    path that is later in lower case. *)
Theorem find_runswmm_exe_newest (exe : string) :
  _find_runswmm_exe fs = Some exe ->
  installed fs exe
  /\ forall p, installed fs p ->
       version_lt (version_key exe) (version_key p) = false
       /\ (version_key p = version_key exe -> String.ltb (lower exe) (lower p) = false).
Proof.
  unfold _find_runswmm_exe.
  destruct (scan_roots fs (roots fs) []) as [|c cs] eqn:Hc; [done|].
  intros Hlast.
  destruct (sort_last key_lt sort_key key_lt_asym key_le_trans _ _ Hlast) as [Hin Hmax].
  rewrite <- Hc in Hin, Hmax. split; [by apply candidates_installed|].
  intros p Hp. apply candidates_installed in Hp. specialize (Hmax p Hp).
  unfold key_lt, sort_key in Hmax. cbn [fst snd] in Hmax.
  destruct (version_eqb (version_key exe) (version_key p)) eqn:Heq; cbn [negb] in Hmax.
  - apply version_eqb_eq in Heq. rewrite Heq. split; [apply version_lt_irrefl|done].
  - split; [done|]. intros Hv. rewrite Hv in Heq.
    assert (version_eqb (version_key exe) (version_key exe) = true)
      by (by apply version_eqb_eq).
    congruence.
Qed.

End FindExeProperties.

(** The theorem at the sample machine: 5.10.0 is newer than 5.9.12, the
    directory of 5.2.4 holds no [runswmm.exe], and the install without a
    version counts as 0.0.0. *)
Lemma find_runswmm_exe_newest_witness :
  FindExe._find_runswmm_exe sample_files
  = Some "C:\Program Files\EPA SWMM 5.10.0\runswmm.exe"
  /\ installed sample_files "C:\Program Files\EPA SWMM 5.10.0\runswmm.exe"
  /\ forall p, installed sample_files p ->
       FindExe.version_lt (5, 10, 0)%N (FindExe.version_key p) = false.
Proof.
  split; [reflexivity|].
  destruct (find_runswmm_exe_newest sample_files
              "C:\Program Files\EPA SWMM 5.10.0\runswmm.exe" eq_refl) as [Hin Hmax].
  split; [exact Hin|]. intros p Hp. exact (proj1 (Hmax p Hp)).
Defined.

Section VersionKey.
Import FindExe.

#[local] Arguments isdigit : simpl never.

Lemma append_nil s : "" +:+ s = s.
Proof. reflexivity. Qed.

Lemma append_cons c s t : String c s +:+ t = String c (s +:+ t).
Proof. reflexivity. Qed.

Lemma digits_app d : forall rest,
  all_digits d = true -> starts_with_digit rest = false ->
  digits (d +:+ rest) = (d, rest).
Proof.
  unfold all_digits.
  induction d as [|c d IH]; intros rest Hd Hrest.
  - rewrite append_nil. destruct rest as [|x rest]; [done|]. cbn in *. by rewrite Hrest.
  - cbn in Hd. apply andb_true_iff in Hd as [Hc Hd].
    rewrite append_cons. cbn. by rewrite Hc, IH.
Qed.

Lemma match_here_triple d1 d2 d3 post :
  all_digits d1 = true -> d1 <> "" ->
  all_digits d2 = true -> d2 <> "" ->
  all_digits d3 = true -> d3 <> "" ->
  starts_with_digit post = false ->
  match_here (d1 +:+ "." +:+ d2 +:+ "." +:+ d3 +:+ post) = Some (d1, d2, d3).
Proof.
  intros H1 N1 H2 N2 H3 N3 Hpost. unfold match_here.
  rewrite (digits_app d1) by done. cbn [fst snd].
  destruct d1; [done|]. cbn [Py.truthy negb]. rewrite append_cons, append_nil.
  rewrite (digits_app d2) by done. cbn [fst snd].
  destruct d2; [done|]. cbn [Py.truthy negb]. rewrite append_cons, append_nil.
  rewrite (digits_app d3) by done. cbn [fst snd].
  by destruct d3.
Qed.

(** A digit run that starts in [pre] ends in it, at a character that is
    not the dot. *)
Lemma no_dot_cons c s : no_dot (String c s) = true <-> c <> "."%char /\ no_dot s = true.
Proof.
  unfold no_dot. cbn [String.list_ascii_of_string forallb].
  rewrite andb_true_iff, negb_true_iff, Ascii.eqb_neq. done.
Qed.

Lemma ends_with_digit_cons c c' s :
  ends_with_digit (String c (String c' s)) = ends_with_digit (String c' s).
Proof. reflexivity. Qed.

Lemma digits_inside c pre rest :
  no_dot (String c pre) = true -> ends_with_digit (String c pre) = false ->
  exists x r, (digits (String c pre +:+ rest)).2 = String x r /\ x <> "."%char.
Proof.
  revert c. induction pre as [|c' pre IH]; intros c Hdot Hend.
  - apply no_dot_cons in Hdot as [Hc _].
    unfold ends_with_digit in Hend. cbn [String.list_ascii_of_string last] in Hend.
    rewrite append_cons, append_nil. cbn in *. rewrite Hend. cbn. by exists c, rest.
  - apply no_dot_cons in Hdot as [Hc Hdot]. rewrite ends_with_digit_cons in Hend.
    rewrite append_cons.
    cbn [digits]. destruct (isdigit c) eqn:Hd.
    + cbn [snd]. by apply (IH c').
    + cbn [snd]. by exists c, (String c' pre +:+ rest).
Qed.

Lemma match_here_inside c pre rest :
  no_dot (String c pre) = true -> ends_with_digit (String c pre) = false ->
  match_here (String c pre +:+ rest) = None.
Proof.
  intros Hdot Hend. unfold match_here.
  destruct (digits_inside c pre rest Hdot Hend) as (x & r & -> & Hx).
  destruct (negb _); [done|].
  destruct x as [[] [] [] [] [] [] [] []]; try done.
Qed.

Lemma re_search_skips pre : forall rest,
  no_dot pre = true -> ends_with_digit pre = false ->
  re_search (pre +:+ rest) = re_search rest.
Proof.
  induction pre as [|c pre IH]; intros rest Hdot Hend; [done|].
  transitivity (match match_here (String c pre +:+ rest) with
                | Some groups => Some groups
                | None => re_search (pre +:+ rest)
                end); [done|].
  rewrite match_here_inside by done. apply IH.
  - by apply no_dot_cons in Hdot as [_ ->].
  - destruct pre; [done|exact Hend].
Qed.

Lemma re_search_no_dot s : no_dot s = true -> re_search s = None.
Proof.
  induction s as [|c s IH]; intros Hdot; [done|].
  change (re_search (String c s))
    with (match match_here (String c s) with
          | Some groups => Some groups
          | None => re_search s
          end).
  assert (Hhere : match_here (String c s) = None).
  { unfold match_here.
    assert (Hsnd : forall t, no_dot t = true ->
              (digits t).2 = "" \/
              exists x r, (digits t).2 = String x r /\ x <> "."%char).
    { clear. induction t as [|a t IHt]; intros Hdot; [by left|].
      apply no_dot_cons in Hdot as [Ha Ht].
      cbn [digits]. destruct (isdigit a); cbn [snd]; [by apply IHt|].
      right. by exists a, t. }
    destruct (negb _); [done|].
    destruct (Hsnd _ Hdot) as [->|(x & r & -> & Hx)]; [done|].
    destruct x as [[] [] [] [] [] [] [] []]; try done. }
  rewrite Hhere. apply IH. by apply no_dot_cons in Hdot as [_ ->].
Qed.

(** X21. The version of a path is read from the first group of three
    numbers joined by dots: for a path that holds such a group after a
    stretch without dot that does not end in a digit, the three numbers are
    the key, each read as a decimal number, whatever follows them. A path
    without any dot, such as one of an install without a version in its
    name, has the key (0, 0, 0). *)
Theorem version_key_reads_first_triple (pre d1 d2 d3 post : string) :
  no_dot pre = true -> ends_with_digit pre = false ->
  all_digits d1 = true -> d1 <> "" ->
  all_digits d2 = true -> d2 <> "" ->
  all_digits d3 = true -> d3 <> "" ->
  starts_with_digit post = false ->
  version_key (pre +:+ d1 +:+ "." +:+ d2 +:+ "." +:+ d3 +:+ post) = (int d1, int d2, int d3)
  /\ version_key pre = (0, 0, 0)%N.
Proof.
  intros Hdot Hend H1 N1 H2 N2 H3 N3 Hpost. unfold version_key. split.
  - rewrite re_search_skips by done.
    assert (Hhere : match_here (d1 +:+ "." +:+ d2 +:+ "." +:+ d3 +:+ post) = Some (d1, d2, d3))
      by (by apply match_here_triple).
    destruct d1 as [|c d1]; [done|].
    assert (Hs : re_search (String c d1 +:+ "." +:+ d2 +:+ "." +:+ d3 +:+ post)
                 = Some (String c d1, d2, d3)).
    { transitivity (match match_here (String c d1 +:+ "." +:+ d2 +:+ "." +:+ d3 +:+ post) with
                    | Some groups => Some groups
                    | None => re_search (d1 +:+ "." +:+ d2 +:+ "." +:+ d3 +:+ post)
                    end); [done|].
      by rewrite Hhere. }
    by rewrite Hs.
  - by rewrite re_search_no_dot.
Qed.

(** The theorem at the path of an install. *)
Lemma version_key_reads_first_triple_witness :
  version_key "C:\Program Files (x86)\EPA SWMM 5.2.04 (64-bit)\runswmm.exe" = (5, 2, 4)%N
  /\ version_key "C:\Program Files (x86)\EPA SWMM " = (0, 0, 0)%N.
Proof.
  apply (version_key_reads_first_triple "C:\Program Files (x86)\EPA SWMM "
           "5" "2" "04" " (64-bit)\runswmm.exe"); try reflexivity; discriminate.
Defined.

End VersionKey.

(** ** [_apply_date_overrides] *)

Section DateOverridesLoops.
Import DateOverrides.

Implicit Types (lines body pre post : list string) (s : State).

Lemma getitem_lookup {A} (l : list A) i x s :
  l !! i = Some x -> Downloader.getitem l (Z.of_nat i) s = (Ret x, s).
Proof. intros H. unfold Downloader.getitem. by rewrite index_nat, H. Qed.

Lemma bind_emit_event {A} e (k : M State A) s : (emit e ;; k) s = k (s ++ [e]).
Proof. reflexivity. Qed.

Lemma emit_event_run e s : emit e s = (Ret tt, s ++ [e]).
Proof. reflexivity. Qed.

Lemma detect_newline_of lines : detect_newline lines = newline_of lines.
Proof.
  unfold newline_of. induction lines as [|line rest IH]; [done|].
  cbn. by destruct (endswith line crlf).
Qed.

(** Where the second loop finds the section. *)
Lemma find_section_bounds lines : forall i start,
  (forall a, start = Some a -> a < i) ->
  (forall a, (find_section lines i start).1 = Some a -> a < i + length lines)
  /\ (forall b, (find_section lines i start).2 = Some b ->
        exists a, (find_section lines i start).1 = Some a
                  /\ a < b /\ b < i + length lines).
Proof.
  induction lines as [|line rest IH]; intros i start Hstart; cbn [find_section].
  - split; [|done]. intros a Ha. cbn in *. specialize (Hstart a Ha). lia.
  - destruct (String.eqb _ _).
    + destruct (IH (S i) (Some i)) as [H1 H2]; [intros a [= <-]; lia|].
      split.
      * intros a Ha. specialize (H1 a Ha). cbn. lia.
      * intros b Hb. destruct (H2 b Hb) as (a & Ha & ? & ?). exists a. cbn. by repeat split; try lia.
    + destruct (bool_decide_reflect (is_Some start)) as [[a0 ->]|Hnone]; cbn [andb].
      * destruct (Py.startswith _ _ && endswith _ _); cbn [fst snd].
        -- split.
           ++ intros a [= <-]. specialize (Hstart a0 eq_refl). lia.
           ++ intros b [= <-]. exists a0. specialize (Hstart a0 eq_refl).
              cbn. by repeat split; try lia.
        -- destruct (IH (S i) (Some a0)) as [H1 H2].
           { intros a [= <-]. specialize (Hstart a0 eq_refl). lia. }
           split.
           ++ intros a Ha. specialize (H1 a Ha). cbn. lia.
           ++ intros b Hb. destruct (H2 b Hb) as (a & Ha & ? & ?). exists a.
              cbn. by repeat split; try lia.
      * destruct (IH (S i) start) as [H1 H2].
        { intros a Ha. specialize (Hstart a Ha). lia. }
        split.
        -- intros a Ha. specialize (H1 a Ha). cbn. lia.
        -- intros b Hb. destruct (H2 b Hb) as (a & Ha & ? & ?). exists a.
           cbn. by repeat split; try lia.
Qed.

(** The third loop reads lines of the file only, and builds the index of
    the lines it reads. *)
Lemma index_options_body lines : forall n i idx s,
  i + n <= length lines ->
  index_options lines i n idx s = (Ret (index_body (take n (drop i lines)) i idx), s).
Proof.
  induction n as [|n IH]; intros i idx s Hlen; [by rewrite take_0|].
  destruct (lookup_lt_is_Some_2 lines i) as [line Hline]; [lia|].
  rewrite (drop_S _ _ _ Hline). cbn [take index_body index_options].
  erewrite bind_run by (by apply getitem_lookup).
  unfold option_key.
  destruct (negb (Py.truthy (Py.strip line)) || Py.startswith (Py.strip line) ";").
  - apply IH. lia.
  - destruct (split (Py.strip line)) as [|part0 parts]; cbn [fmap list_fmap head];
      apply IH; lia.
Qed.

Lemma last_pos_lt key body : forall j, last_pos key body = Some j -> j < length body.
Proof.
  induction body as [|line rest IH]; intros j; cbn [last_pos]; [done|].
  destruct (last_pos key rest) as [j'|].
  - intros [= <-]. specialize (IH j' eq_refl). cbn. lia.
  - destruct (bool_decide _); [|done]. intros [= <-]. cbn. lia.
Qed.

Lemma last_pos_key key body : forall j,
  last_pos key body = Some j ->
  exists line, body !! j = Some line /\ option_key line = Some key.
Proof.
  induction body as [|line rest IH]; intros j; cbn [last_pos]; [done|].
  destruct (last_pos key rest) as [j'|].
  - intros [= <-]. by apply IH.
  - destruct (bool_decide_reflect (option_key line = Some key)); [|done].
    intros [= <-]. by exists line.
Qed.

Lemma last_pos_None key body j line :
  last_pos key body = None -> body !! j = Some line -> option_key line <> Some key.
Proof.
  revert j. induction body as [|line' rest IH]; intros j; cbn [last_pos]; [done|].
  destruct (last_pos key rest) as [j'|] eqn:Hrest; [done|].
  destruct (bool_decide_reflect (option_key line' = Some key)); [done|].
  intros _. destruct j as [|j]; cbn.
  - by intros [= <-].
  - by apply IH.
Qed.

Lemma index_body_lookup key body : forall i idx,
  index_body body i idx !! key
  = match last_pos key body with
    | Some j => Some (i + j)
    | None => idx !! key
    end.
Proof.
  induction body as [|line rest IH]; intros i idx; cbn [index_body last_pos]; [done|].
  rewrite IH. destruct (last_pos key rest) as [j|]; [f_equal; lia|].
  destruct (option_key line) as [k|].
  - destruct (bool_decide_reflect (Some k = Some key)) as [[= ->]|Hne].
    + rewrite lookup_insert_eq. f_equal. lia.
    + rewrite lookup_insert_ne; [done|congruence].
  - by rewrite bool_decide_eq_false_2.
Qed.

Lemma length_list_insert {A} i (x : A) l : length (list_insert i x l) = S (length l).
Proof.
  unfold list_insert. rewrite length_app, length_take. cbn. rewrite length_drop. lia.
Qed.

(** The fourth loop never indexes past the end when the index holds places
    of the file only. *)
Lemma apply_overrides_run nl idx kvs : forall lines section_end s,
  (forall k j, idx !! k = Some j -> j < length lines) ->
  exists out,
    apply_overrides nl idx kvs lines section_end s = (Ret out, s)
    /\ length lines <= length out <= length lines + length kvs.
Proof.
  induction kvs as [|[key value] kvs IH]; intros lines section_end s Hidx;
    cbn [apply_overrides].
  - exists lines. split; [done|]. cbn. lia.
  - destruct (idx !! key) as [j|] eqn:Hj.
    + destruct (lookup_lt_is_Some_2 lines j) as [line Hline]; [by eapply Hidx|].
      erewrite bind_run by (by apply getitem_lookup).
      edestruct (IH (<[j := _format_option_line nl key value (Some line)]> lines)
                   section_end s) as (out & Hrun & Hlen).
      { intros k j' Hk. rewrite length_insert. by eapply Hidx. }
      exists out. split; [exact Hrun|]. rewrite length_insert in Hlen. cbn. lia.
    + edestruct (IH (list_insert section_end (_format_option_line nl key value None) lines)
                   (S section_end) s) as (out & Hrun & Hlen).
      { intros k j' Hk. rewrite length_list_insert. specialize (Hidx k j' Hk). lia. }
      exists out. split; [exact Hrun|]. rewrite length_list_insert in Hlen. cbn. lia.
Qed.

Lemma key_to_value_length sd st ed et : length (key_to_value sd st ed et) <= 4.
Proof.
  unfold key_to_value.
  destruct (Py.truthy sd), (Py.truthy st), (Py.truthy ed), (Py.truthy et); cbn; lia.
Qed.

Lemma upper_char_open c : Py.upper_char c = "["%char -> c = "["%char.
Proof.
  destruct c as [[] [] [] [] [] [] [] []]; intros H; vm_compute in H;
    try discriminate H; reflexivity.
Qed.

Lemma upper_char_close c : Py.upper_char c = "]"%char -> c = "]"%char.
Proof.
  destruct c as [[] [] [] [] [] [] [] []]; intros H; vm_compute in H;
    try discriminate H; reflexivity.
Qed.

(** The line that opens the options section is a section header. *)
Lemma is_options_is_header line : is_options line = true -> is_header line = true.
Proof.
  unfold is_options, is_header. intros H%String.eqb_eq.
  destruct (Py.strip line) as [|c1 [|c2 [|c3 [|c4 [|c5 [|c6 [|c7 [|c8 [|c9 [|c10 t]]]]]]]]]];
    cbn [Py.upper] in H; try discriminate H.
  injection H as H1 _ _ _ _ _ _ _ H9.
  apply upper_char_open in H1 as ->. apply upper_char_close in H9 as ->.
  reflexivity.
Qed.

Lemma find_section_no_options lines : forall i,
  Forall (fun line => is_options line = false) lines ->
  find_section lines i None = (None, None).
Proof.
  induction lines as [|line rest IH]; intros i Hall; [done|].
  apply Forall_cons in Hall as [Hline Hrest]. cbn [find_section].
  unfold is_options in Hline. rewrite Hline.
  rewrite bool_decide_eq_false_2 by (by intros [? ?]). cbn [andb]. by apply IH.
Qed.

Lemma find_section_pre pre rest : forall i,
  Forall (fun line => is_options line = false) pre ->
  find_section (pre ++ rest) i None = find_section rest (i + length pre) None.
Proof.
  induction pre as [|line pre IH]; intros i Hall.
  - cbn. by rewrite Nat.add_0_r.
  - apply Forall_cons in Hall as [Hline Hpre]. cbn [app find_section].
    unfold is_options in Hline. rewrite Hline.
    rewrite bool_decide_eq_false_2 by (by intros [? ?]). cbn [andb length].
    rewrite IH by done. f_equal. lia.
Qed.

Lemma find_section_body body rest a : forall i,
  Forall (fun line => is_header line = false) body ->
  find_section (body ++ rest) i (Some a) = find_section rest (i + length body) (Some a).
Proof.
  induction body as [|line body IH]; intros i Hall.
  - cbn. by rewrite Nat.add_0_r.
  - apply Forall_cons in Hall as [Hline Hbody]. cbn [app find_section].
    assert (Hopt : is_options line = false).
    { destruct (is_options line) eqn:H; [|done].
      apply is_options_is_header in H. congruence. }
    unfold is_options in Hopt. rewrite Hopt.
    rewrite bool_decide_eq_true_2 by eauto. cbn [andb].
    unfold is_header in Hline. rewrite Hline. cbn [length].
    rewrite IH by done. f_equal. lia.
Qed.

(** The section of a file that holds one: the lines from the header to the
    next header, or to the end. *)
Lemma find_section_located pre header body post :
  Forall (fun line => is_options line = false) pre ->
  is_options header = true ->
  Forall (fun line => is_header line = false) body ->
  match post with
  | [] => True
  | line :: _ => is_header line = true /\ is_options line = false
  end ->
  (find_section (pre ++ header :: body ++ post) 0 None).1 = Some (length pre)
  /\ default (length (pre ++ header :: body ++ post))
       (find_section (pre ++ header :: body ++ post) 0 None).2
     = S (length pre + length body).
Proof.
  intros Hpre Hheader Hbody Hpost.
  rewrite find_section_pre by done. cbn [find_section Nat.add].
  unfold is_options in Hheader. rewrite Hheader.
  rewrite find_section_body by done.
  destruct post as [|line post]; cbn [find_section].
  - cbn. rewrite length_app. cbn. rewrite length_app. cbn. split; [done|lia].
  - destruct Hpost as [Hh Ho]. unfold is_options in Ho. rewrite Ho.
    rewrite bool_decide_eq_true_2 by eauto. cbn [andb].
    unfold is_header in Hh. rewrite Hh. cbn. split; [done|lia].
Qed.

Lemma list_insert_end {A} (x : A) l k : list_insert (length l) x (l ++ k) = l ++ x :: k.
Proof. unfold list_insert. by rewrite take_app_length, drop_app_length. Qed.

(** The fourth loop on an empty index: one line is added for each option,
    in order. *)
Lemma apply_overrides_append nl kvs : forall lines post s,
  apply_overrides nl ∅ kvs (lines ++ post) (length lines) s
  = (Ret (lines ++ map (fun kv => _format_option_line nl kv.1 kv.2 None) kvs ++ post), s).
Proof.
  induction kvs as [|[key value] kvs IH]; intros lines post s; cbn [apply_overrides map].
  - done.
  - rewrite lookup_empty, list_insert_end.
    replace (lines ++ _format_option_line nl key value None :: post)
      with ((lines ++ [_format_option_line nl key value None]) ++ post)
      by (by rewrite <- app_assoc).
    replace (S (length lines))
      with (length (lines ++ [_format_option_line nl key value None]))
      by (rewrite length_app; cbn; lia).
    rewrite IH. by rewrite <- app_assoc.
Qed.

Lemma supplied_None key kvs : key ∉ kvs.*1 -> supplied key kvs = None.
Proof.
  induction kvs as [|[k v] kvs IH]; [done|]. cbn.
  intros [Hne Hnotin]%not_elem_of_cons.
  destruct (String.eqb_spec k key); [congruence|by apply IH].
Qed.

Lemma supplied_snoc key k v kvs :
  supplied key (kvs ++ [(k, v)])
  = match supplied key kvs with
    | Some v' => Some v'
    | None => if String.eqb k key then Some v else None
    end.
Proof.
  induction kvs as [|[k' v'] kvs IH]; cbn; [done|].
  by destruct (String.eqb k' key).
Qed.

Lemma override_line_nil nl body : imap (override_line nl [] body) body = body.
Proof.
  apply list_eq. intros i. rewrite list_lookup_imap.
  destruct (body !! i) as [line|]; [|done]. cbn.
  unfold override_line. by destruct (option_key line).
Qed.

Lemma added_lines_snoc nl kvs k v body :
  added_lines nl (kvs ++ [(k, v)]) body
  = added_lines nl kvs body
    ++ match last_pos k body with
       | Some _ => []
       | None => [_format_option_line nl k v None]
       end.
Proof.
  unfold added_lines. rewrite omap_app. cbn. by destruct (last_pos k body).
Qed.

(** An option the section sets: its last line is written anew. *)
Lemma override_snoc_hit nl kvs k v body j line :
  last_pos k body = Some j ->
  body !! j = Some line ->
  supplied k kvs = None ->
  <[j := _format_option_line nl k v (Some line)]> (imap (override_line nl kvs body) body)
  = imap (override_line nl (kvs ++ [(k, v)]) body) body.
Proof.
  intros Hpos Hline Hk. apply list_eq. intros i.
  destruct (decide (i = j)) as [->|Hne].
  - rewrite list_lookup_insert_eq by (rewrite length_imap; by eapply lookup_lt_Some).
    rewrite list_lookup_imap, Hline. cbn. f_equal.
    destruct (last_pos_key _ _ _ Hpos) as (line' & Hline' & Hkey).
    rewrite Hline in Hline'. injection Hline' as <-.
    unfold override_line. rewrite Hkey, supplied_snoc, Hk, String.eqb_refl.
    by rewrite bool_decide_eq_true_2.
  - rewrite list_lookup_insert_ne by done. rewrite !list_lookup_imap.
    destruct (body !! i) as [line'|]; [|done]. cbn. f_equal.
    unfold override_line. destruct (option_key line') as [k'|]; [|done].
    rewrite supplied_snoc. destruct (supplied k' kvs) as [v'|] eqn:Hk'; [done|].
    destruct (String.eqb_spec k k') as [<-|]; [|done].
    rewrite bool_decide_eq_false_2; [done|]. rewrite Hpos. congruence.
Qed.

(** An option the section does not set: no line of it changes. *)
Lemma override_snoc_miss nl kvs k v body :
  last_pos k body = None ->
  imap (override_line nl (kvs ++ [(k, v)]) body) body
  = imap (override_line nl kvs body) body.
Proof.
  intros Hpos. apply list_eq. intros i. rewrite !list_lookup_imap.
  destruct (body !! i) as [line|] eqn:Hline; [|done]. cbn. f_equal.
  unfold override_line. destruct (option_key line) as [k'|] eqn:Hkey; [|done].
  rewrite supplied_snoc. destruct (supplied k' kvs); [done|].
  destruct (String.eqb_spec k k') as [<-|]; [|done].
  by destruct (last_pos_None _ _ _ _ Hpos Hline).
Qed.

(** The fourth loop on a file with the section [body] after the lines
    [pre]: when the options [done] are dealt with, dealing with the options
    [todo] gives what dealing with all of them gives. *)
Lemma apply_overrides_section nl pre body post todo : forall done s,
  NoDup (done ++ todo).*1 ->
  apply_overrides nl (index_body body (length pre) ∅) todo
    (pre ++ imap (override_line nl done body) body ++ added_lines nl done body ++ post)
    (length pre + length body + length (added_lines nl done body)) s
  = (Ret (pre ++ imap (override_line nl (done ++ todo) body) body
            ++ added_lines nl (done ++ todo) body ++ post), s).
Proof.
  induction todo as [|[k v] todo IH]; intros done s Hnd; cbn [apply_overrides].
  - by rewrite app_nil_r.
  - assert (Hk : supplied k done = None).
    { apply supplied_None. rewrite fmap_app in Hnd. cbn in Hnd.
      apply NoDup_app in Hnd as (_ & Hnd & _). intros Hin.
      apply (Hnd k Hin). by left. }
    replace (done ++ (k, v) :: todo) with ((done ++ [(k, v)]) ++ todo) in *
      by (by rewrite <- app_assoc).
    rewrite index_body_lookup, lookup_empty.
    destruct (last_pos k body) as [j|] eqn:Hpos.
    + destruct (last_pos_key _ _ _ Hpos) as (line & Hline & Hkey).
      pose proof (last_pos_lt _ _ _ Hpos) as Hj.
      assert (Hexisting :
                (pre ++ imap (override_line nl done body) body
                 ++ added_lines nl done body ++ post) !! (length pre + j) = Some line).
      { rewrite lookup_app_r by lia.
        replace (length pre + j - length pre) with j by lia.
        rewrite lookup_app_l by (by rewrite length_imap).
        rewrite list_lookup_imap, Hline. cbn. f_equal.
        unfold override_line. by rewrite Hkey, Hk. }
      erewrite bind_run by (apply getitem_lookup; exact Hexisting).
      rewrite insert_app_r, insert_app_l by (by rewrite length_imap).
      rewrite (override_snoc_hit nl done k v body j line) by done.
      specialize (IH (done ++ [(k, v)]) s Hnd).
      rewrite added_lines_snoc, Hpos, app_nil_r in IH. exact IH.
    + specialize (IH (done ++ [(k, v)]) s Hnd).
      rewrite added_lines_snoc, Hpos, override_snoc_miss in IH by done.
      rewrite length_app in IH. cbn [length] in IH.
      rewrite <- IH. f_equal; [|lia].
      rewrite !app_assoc.
      replace (length pre + length body + length (added_lines nl done body))
        with (length ((pre ++ imap (override_line nl done body) body)
                      ++ added_lines nl done body))
        by (rewrite !length_app, length_imap; lia).
      rewrite list_insert_end. by rewrite <- !app_assoc.
Qed.

Lemma key_to_value_NoDup sd st ed et : NoDup (key_to_value sd st ed et).*1.
Proof.
  unfold key_to_value.
  destruct (Py.truthy sd), (Py.truthy st), (Py.truthy ed), (Py.truthy et);
    cbn; apply (bool_decide_unpack _); vm_compute; done.
Qed.

End DateOverridesLoops.

Section DateOverridesRuns.
Import DateOverrides.

Variable fs : Files.

Lemma apply_date_overrides_run
    (inp_file start_date start_time end_date end_time : string) (s : State) :
  match read_splitlines fs inp_file with
  | inl e =>
    _apply_date_overrides fs inp_file start_date start_time end_date end_time s
    = (Ret tt, s ++ [Read inp_file; LogWarning (UnableToRead e)])
  | inr lines =>
    exists out,
      _apply_date_overrides fs inp_file start_date start_time end_date end_time s
      = (Ret tt,
         s ++ Read inp_file :: Writelines inp_file out ::
              match writelines fs inp_file out with
              | inl e => [LogWarning (UnableToWrite e)]
              | inr _ => []
              end)
      /\ length lines <= length out <= length lines + 5
  end.
Proof.
  unfold _apply_date_overrides. rewrite bind_emit_event.
  destruct (read_splitlines fs inp_file) as [e|lines].
  - rewrite emit_event_run. by rewrite <- app_assoc.
  - set (nl := detect_newline lines).
    set (kvs := key_to_value start_date start_time end_date end_time).
    pose proof (key_to_value_length start_date start_time end_date end_time) as Hkvs.
    fold kvs in Hkvs.
    pose proof (find_section_bounds lines 0 None ltac:(done)) as [Hstart Hend].
    destruct (find_section lines 0 None) as [[start|] fin]; cbn [fst snd] in *.
    + specialize (Hstart start eq_refl).
      assert (Hfin : default (length lines) fin <= length lines).
      { destruct fin as [b|]; [|done]. destruct (Hend b eq_refl) as (a & _ & _ & ?).
        cbn. lia. }
      erewrite bind_run by (apply index_options_body; lia).
      edestruct (apply_overrides_run nl
                   (index_body (take (default (length lines) fin - S start)
                                  (drop (S start) lines)) (S start) ∅)
                   kvs lines (default (length lines) fin) (s ++ [Read inp_file]))
        as (out & Hrun & Hlen).
      { intros k j. rewrite index_body_lookup, lookup_empty.
        destruct (last_pos k _) as [j'|] eqn:Hpos; [|done].
        intros [= <-]. apply last_pos_lt in Hpos.
        rewrite length_take, length_drop in Hpos. lia. }
      erewrite bind_run by exact Hrun.
      exists out. split; [|lia]. rewrite bind_emit_event.
      destruct (writelines fs inp_file out);
        rewrite ?emit_event_run; unfold ret; by rewrite <- ?app_assoc.
    + erewrite bind_run by (apply index_options_body; rewrite length_app; cbn; lia).
      edestruct (apply_overrides_run nl
                   (index_body (take (S (length lines) - S (length lines))
                                  (drop (S (length lines)) (lines ++ ["[OPTIONS]" +:+ nl])))
                      (S (length lines)) ∅)
                   kvs (lines ++ ["[OPTIONS]" +:+ nl]) (S (length lines))
                   (s ++ [Read inp_file]))
        as (out & Hrun & Hlen).
      { intros k j. rewrite Nat.sub_diag, take_0. cbn. by rewrite lookup_empty. }
      erewrite bind_run by exact Hrun.
      rewrite length_app in Hlen. cbn [length] in Hlen.
      exists out. split; [|lia]. rewrite bind_emit_event.
      destruct (writelines fs inp_file out);
        rewrite ?emit_event_run; unfold ret; by rewrite <- ?app_assoc.
Qed.

(** X22. [_apply_date_overrides] never raises: no index it computes is past
    the end of the lines. When the file cannot be read it logs one warning
    and writes nothing. When it is read, the file is written once, with at
    least the lines read and at most five more; a failure to write is
    logged as one warning. *)
Theorem apply_date_overrides_never_raises
    (inp_file start_date start_time end_date end_time : string) (s : State) :
  let run := _apply_date_overrides fs inp_file start_date start_time end_date end_time s in
  run.1 = Ret tt
  /\ match read_splitlines fs inp_file with
     | inl e => run.2 = s ++ [Read inp_file; LogWarning (UnableToRead e)]
     | inr lines =>
       exists out,
         run.2 = s ++ Read inp_file :: Writelines inp_file out ::
                      match writelines fs inp_file out with
                      | inl e => [LogWarning (UnableToWrite e)]
                      | inr _ => []
                      end
         /\ length lines <= length out <= length lines + 5
     end.
Proof.
  cbv zeta.
  pose proof (apply_date_overrides_run inp_file start_date start_time end_date end_time s)
    as Hrun.
  destruct (read_splitlines fs inp_file) as [e|lines].
  - by rewrite Hrun.
  - destruct Hrun as (out & -> & Hlen). split; [done|]. by exists out.
Qed.

(** X23. For a file without a line that opens the options section, the
    lines written are the lines read, then the header [[OPTIONS]], then one
    line for each date or time supplied, in the order start date, start
    time, end date, end time, each as the key, four spaces and the value.
    The header is appended also when no value is supplied, and it follows
    the last line as it is, with or without a line end. The line end used
    is ['\r\n'] when a line read ends with it and ['\n'] otherwise. *)
Theorem options_section_appended_when_missing
    (inp_file start_date start_time end_date end_time : string) (s : State)
    (lines : list string) :
  read_splitlines fs inp_file = inr lines ->
  Forall (fun line => is_options line = false) lines ->
  let nl := newline_of lines in
  let out :=
    lines ++ ("[OPTIONS]" +:+ nl)
    :: map (fun kv => kv.1 +:+ "    " +:+ kv.2 +:+ nl)
         (key_to_value start_date start_time end_date end_time) in
  (_apply_date_overrides fs inp_file start_date start_time end_date end_time s).2
  = s ++ Read inp_file :: Writelines inp_file out ::
         match writelines fs inp_file out with
         | inl e => [LogWarning (UnableToWrite e)]
         | inr _ => []
         end.
Proof.
  intros Hread Hall. cbv zeta. unfold _apply_date_overrides.
  rewrite bind_emit_event, Hread, detect_newline_of.
  rewrite find_section_no_options by done. cbn [fst snd].
  rewrite Nat.sub_diag. cbn [index_options]. rewrite bind_ret.
  replace (S (length lines)) with (length (lines ++ ["[OPTIONS]" +:+ newline_of lines]))
    by (rewrite length_app; cbn; lia).
  rewrite <- (app_nil_r (lines ++ ["[OPTIONS]" +:+ newline_of lines])) at 1.
  erewrite bind_run by apply apply_overrides_append.
  rewrite app_nil_r, <- app_assoc. cbn [app].
  rewrite bind_emit_event.
  destruct (writelines fs inp_file _);
    rewrite ?emit_event_run; unfold ret; cbn [snd]; by rewrite <- ?app_assoc.
Qed.

(** X24. For a file with an options section (the lines [pre] before its
    header hold no such header, the lines [body] after it no section header,
    and [post] is empty or starts with the next header), the lines before
    the section, its header and the lines after the section are written as
    they were read. In the section, for each option with a supplied value
    the last line that sets it is written anew, with the indentation of the
    old line and a tab after the key if the old line held one, else four
    spaces; every other line of the section is kept, earlier lines of the
    same option and comments included. The options the section does not set
    are added at its end, before the next header. *)
Theorem options_section_rewritten
    (inp_file start_date start_time end_date end_time : string) (s : State)
    (pre : list string) (header : string) (body post : list string) :
  read_splitlines fs inp_file = inr (pre ++ header :: body ++ post) ->
  Forall (fun line => is_options line = false) pre ->
  is_options header = true ->
  Forall (fun line => is_header line = false) body ->
  match post with
  | [] => True
  | line :: _ => is_header line = true /\ is_options line = false
  end ->
  let nl := newline_of (pre ++ header :: body ++ post) in
  let kvs := key_to_value start_date start_time end_date end_time in
  let out :=
    pre ++ header :: imap (override_line nl kvs body) body
    ++ added_lines nl kvs body ++ post in
  (_apply_date_overrides fs inp_file start_date start_time end_date end_time s).2
  = s ++ Read inp_file :: Writelines inp_file out ::
         match writelines fs inp_file out with
         | inl e => [LogWarning (UnableToWrite e)]
         | inr _ => []
         end.
Proof.
  intros Hread Hpre Hheader Hbody Hpost. cbv zeta. unfold _apply_date_overrides.
  rewrite bind_emit_event, Hread, detect_newline_of.
  destruct (find_section_located pre header body post Hpre Hheader Hbody Hpost)
    as [Hstart Hend].
  rewrite Hstart. cbn [fst snd]. rewrite Hend.
  set (lines := pre ++ header :: body ++ post).
  set (nl := newline_of lines).
  set (kvs := key_to_value start_date start_time end_date end_time).
  assert (Hlines : lines = (pre ++ [header]) ++ body ++ post)
    by (subst lines; by rewrite <- app_assoc).
  erewrite bind_run; cycle 1.
  { apply index_options_body. subst lines. rewrite !length_app. cbn.
    rewrite length_app. lia. }
  replace (S (length pre + length body) - S (length pre)) with (length body) by lia.
  replace (take (length body) (drop (S (length pre)) lines)) with body; cycle 1.
  { rewrite Hlines, drop_app_length' by (rewrite length_app; cbn; lia).
    by rewrite take_app_length. }
  pose proof (apply_overrides_section nl (pre ++ [header]) body post kvs []
                (s ++ [Read inp_file])) as Happly.
  rewrite override_line_nil in Happly. cbn [added_lines omap list_omap app length] in Happly.
  rewrite length_app, Nat.add_0_r in Happly. cbn [length] in Happly.
  replace (length pre + 1) with (S (length pre)) in Happly by lia.
  rewrite <- Hlines in Happly.
  replace (S (length pre) + length body) with (S (length pre + length body)) in Happly by lia.
  erewrite bind_run by (apply Happly, key_to_value_NoDup).
  rewrite <- app_assoc. cbn [app].
  rewrite bind_emit_event.
  destruct (writelines fs inp_file _);
    rewrite ?emit_event_run; unfold ret; cbn [snd]; by rewrite <- ?app_assoc.
Qed.

End DateOverridesRuns.

(** The theorem at a file of two lines, the last one without line end. *)
Lemma options_section_appended_when_missing_witness :
  (DateOverrides._apply_date_overrides
     (inp_with ["[TITLE]" +:+ DateOverrides.lf; "x"])
     "m.inp" "01/02/2021" "" "" "06:00:00" []).2
  = [DateOverrides.Read "m.inp";
     DateOverrides.Writelines "m.inp"
       ["[TITLE]" +:+ DateOverrides.lf; "x";
        "[OPTIONS]" +:+ DateOverrides.lf;
        "START_DATE    01/02/2021" +:+ DateOverrides.lf;
        "END_TIME    06:00:00" +:+ DateOverrides.lf]].
Proof.
  apply (options_section_appended_when_missing
           (inp_with ["[TITLE]" +:+ DateOverrides.lf; "x"])
           "m.inp" "01/02/2021" "" "" "06:00:00" []
           ["[TITLE]" +:+ DateOverrides.lf; "x"] eq_refl).
  repeat constructor.
Defined.

(** The theorem at the sample file: the start date is set in the section,
    in lower case, indented and with a tab; the end date is set in a comment
    only; no time is set. *)
Lemma options_section_rewritten_witness :
  let nl := DateOverrides.lf in
  (DateOverrides._apply_date_overrides (inp_with sample_inp)
     "m.inp" "02/03/2021" "" "02/04/2021" "06:00:00" []).2
  = [DateOverrides.Read "m.inp";
     DateOverrides.Writelines "m.inp"
       ["[TITLE]" +:+ nl;
        "[OPTIONS]" +:+ nl;
        "FLOW_UNITS           CMS" +:+ nl;
        "  START_DATE" +:+ DateOverrides.tab +:+ "02/03/2021" +:+ nl;
        ";;END_DATE 01/02/2000" +:+ nl;
        nl;
        "END_DATE    02/04/2021" +:+ nl;
        "END_TIME    06:00:00" +:+ nl;
        "[RAINGAGES]" +:+ nl;
        "RG1 INTENSITY 0:05" +:+ nl]].
Proof.
  cbv zeta.
  apply (options_section_rewritten (inp_with sample_inp)
           "m.inp" "02/03/2021" "" "02/04/2021" "06:00:00" []
           ["[TITLE]" +:+ DateOverrides.lf]
           ("[OPTIONS]" +:+ DateOverrides.lf)
           ["FLOW_UNITS           CMS" +:+ DateOverrides.lf;
            "  start_date" +:+ DateOverrides.tab +:+ "01/01/2000" +:+ DateOverrides.lf;
            ";;END_DATE 01/02/2000" +:+ DateOverrides.lf;
            DateOverrides.lf]
           ["[RAINGAGES]" +:+ DateOverrides.lf; "RG1 INTENSITY 0:05" +:+ DateOverrides.lf]
           eq_refl).
  - repeat constructor.
  - reflexivity.
  - repeat constructor.
  - split; reflexivity.
Defined.

Section FormatOptionLine.
Import DateOverrides.

Lemma lstrip_indent ws : forall rest,
  all_space ws = true -> starts_with_space rest = false ->
  Py.lstrip (ws +:+ rest) = rest.
Proof.
  unfold all_space.
  induction ws as [|c ws IH]; intros rest Hws Hrest.
  - change ("" +:+ rest) with rest. destruct rest as [|x rest]; [done|].
    cbn [starts_with_space] in Hrest. cbn [Py.lstrip]. by rewrite Hrest.
  - cbn [String.list_ascii_of_string forallb] in Hws.
    apply andb_true_iff in Hws as [Hc Hws].
    change (String c ws +:+ rest) with (String c (ws +:+ rest)).
    cbn [Py.lstrip]. rewrite Hc. by apply IH.
Qed.

Lemma length_append s t : String.length (s +:+ t) = String.length s + String.length t.
Proof.
  induction s as [|c s IH]; [done|].
  change (String c s +:+ t) with (String c (s +:+ t)). cbn [String.length]. by rewrite IH.
Qed.

Lemma substring_indent ws rest : String.substring 0 (String.length ws) (ws +:+ rest) = ws.
Proof.
  induction ws as [|c ws IH].
  - change ("" +:+ rest) with rest. by destruct rest.
  - change (String c ws +:+ rest) with (String c (ws +:+ rest)).
    cbn [String.length String.substring]. by rewrite IH.
Qed.

(** X25. A line of the section that is written anew keeps its indentation:
    for an old line made of white space [ws] and a text that does not start
    with white space, the new line is [ws], the key, a tab if the old line
    held one anywhere and four spaces if not, the value and the line end.
    The old value, and a comment after it, are dropped. *)
Theorem format_option_line_keeps_indentation (newline key value ws rest : string) :
  all_space ws = true ->
  starts_with_space rest = false ->
  _format_option_line newline key value (Some (ws +:+ rest))
  = ws +:+ key +:+ (if Py.contains tab (ws +:+ rest) then tab else "    ")
    +:+ value +:+ newline.
Proof.
  intros Hws Hrest. unfold _format_option_line.
  rewrite lstrip_indent, length_append by done.
  replace (String.length ws + String.length rest - String.length rest)
    with (String.length ws) by lia.
  by rewrite substring_indent.
Qed.

(** The theorem at a line indented by a tab. *)
Lemma format_option_line_keeps_indentation_witness :
  _format_option_line lf "END_DATE" "02/04/2021"
    (Some (tab +:+ "end_date  01/01/2000 ; old" +:+ lf))
  = tab +:+ "END_DATE" +:+ tab +:+ "02/04/2021" +:+ lf.
Proof.
  apply (format_option_line_keeps_indentation lf "END_DATE" "02/04/2021" tab
           ("end_date  01/01/2000 ; old" +:+ lf)); reflexivity.
Defined.

End FormatOptionLine.

(** ** [processAlgorithm] of swmm_run_inp_or_gpkg.py before the run *)

Section Prepare.
Import SwmmRunInpOrGpkgPrepare.

Variable w : World.
Variable p : Parameters.






Lemma and_then_ok {A B} (c : R A) (k : A -> R B) t a t' :
  c t = (inr a, t') -> and_then c k t = k a t'.
Proof. intros H. unfold and_then. by rewrite H. Qed.

Lemma and_then_fail {A B} (c : R A) (k : A -> R B) t e t' :
  c t = (inl e, t') -> and_then c k t = (inl e, t').
Proof. intros H. unfold and_then. by rewrite H. Qed.

(** How the branch on the suffix can end. *)
Lemma convert_or_copy_cases t :
  exists t',
    (exists e, convert_or_copy w (INPUT_FILE p) t = (inl e, t'))
    \/ convert_or_copy w (INPUT_FILE p) t = (inr None, t')
    \/ exists target,
         convert_or_copy w (INPUT_FILE p) t = (inr (Some target), t')
         /\ (FindExe.lower (suffix w (INPUT_FILE p)) = ".gpkg"
             /\ _resolve_output_inp_file w (INPUT_FILE p) = inr target
             /\ gis_to_swmm w (INPUT_FILE p) target = None
             \/ FindExe.lower (suffix w (INPUT_FILE p)) = ".inp"
                /\ _copy_inp_if_needed w (INPUT_FILE p) = inr target).
Proof.
  unfold convert_or_copy.
  destruct (String.eqb_spec (FindExe.lower (suffix w (INPUT_FILE p))) ".gpkg") as [Hg|Hg].
  - unfold try_, report_fatal, lift, lift_raise, and_then, emit, ok, fail.
    destruct (_resolve_output_inp_file w (INPUT_FILE p)) as [e|target] eqn:Hres;
      cbn [fst snd]; [eauto|].
    destruct (gis_to_swmm w (INPUT_FILE p) target) as [e|] eqn:Hgis;
      cbn [fst snd]; [eauto|].
    eexists. right. right. exists target. eauto 10.
  - destruct (String.eqb_spec (FindExe.lower (suffix w (INPUT_FILE p))) ".inp") as [Hi|Hi].
    + unfold lift, and_then, emit, ok, fail.
      destruct (_copy_inp_if_needed w (INPUT_FILE p)) as [e|target] eqn:Hcopy;
        cbn [fst snd]; [eauto|].
      eexists. right. right. exists target. eauto 10.
    + unfold report_fatal, and_then, emit, ok. cbn [fst snd]. eauto.
Qed.

Lemma find_executable_run t :
  exists t',
    find_executable w p t
    = (inr (if Py.truthy (SWMM_EXE p) then Some (SWMM_EXE p)
            else or_ (FindExe._find_runswmm_exe (exe_files w)) (which w "runswmm.exe")),
       t').
Proof.
  unfold find_executable, report_fatal, and_then, emit, ok.
  destruct (Py.truthy (SWMM_EXE p)).
  - destruct (negb (path_exists w (SWMM_EXE p))); by eexists.
  - destruct (negb (truthy_opt _)); by eexists.
Qed.

Lemma apply_dates_run inp t :
  exists t',
    (if Py.truthy (START_DATE p) || Py.truthy (START_TIME p)
        || Py.truthy (END_DATE p) || Py.truthy (END_TIME p)
     then lift_dates (DateOverrides._apply_date_overrides (inp_files w) inp
                        (START_DATE p) (START_TIME p) (END_DATE p) (END_TIME p))
     else ok tt) t
    = (inr tt, t').
Proof.
  destruct (_ || _); [|by eexists]. unfold lift_dates.
  pose proof (apply_date_overrides_run (inp_files w) inp
                (START_DATE p) (START_TIME p) (END_DATE p) (END_TIME p) []) as Hdates.
  destruct (DateOverrides.read_splitlines (inp_files w) inp).
  - rewrite Hdates. by eexists.
  - destruct Hdates as (out & -> & _). by eexists.
Qed.

(** X30. Whenever the method gets to announce the run, the input file was
    a GeoPackage that was converted or an [.inp] file that was copied, the
    executable is the one given or one that was found, and the arguments
    are the executable, the input file and the names of the report and
    output files made from the name of the input file; the announcement is
    the last thing done. *)
Theorem prepared_run_has_input_and_executable (t : list Event) (r : Prepared) :
  (processAlgorithm_prepare w p t).1 = inr r ->
  (FindExe.lower (suffix w (INPUT_FILE p)) = ".gpkg"
   /\ _resolve_output_inp_file w (INPUT_FILE p) = inr (inp_file r)
   /\ gis_to_swmm w (INPUT_FILE p) (inp_file r) = None
   \/ FindExe.lower (suffix w (INPUT_FILE p)) = ".inp"
      /\ _copy_inp_if_needed w (INPUT_FILE p) = inr (inp_file r))
  /\ (exists swmm_exe,
        args r = [swmm_exe; inp_file r; report_file r; output_file r]
        /\ (if Py.truthy (SWMM_EXE p) then swmm_exe = SWMM_EXE p
            else or_ (FindExe._find_runswmm_exe (exe_files w)) (which w "runswmm.exe")
                 = Some swmm_exe))
  /\ report_file r = with_suffix w (inp_file r) ".rpt"
  /\ output_file r = with_suffix w (inp_file r) ".out"
  /\ last (processAlgorithm_prepare w p t).2 = Some (PushInfo (RunningSWMM (args r))).
Proof.
  destruct (processAlgorithm_prepare w p t) as [res tr] eqn:Hrun.
  cbn [fst snd]. intros ->. revert Hrun. unfold processAlgorithm_prepare.
  assert (Hfirst : exists t1,
             (if negb (Py.truthy (INPUT_FILE p)) || negb (path_exists w (INPUT_FILE p))
              then report_fatal (InputDoesNotExist (INPUT_FILE p)) else ok tt) t
             = (inr tt, t1)).
  { destruct (_ || _); by eexists. }
  destruct Hfirst as (t1 & Hfirst). rewrite (and_then_ok _ _ _ _ _ Hfirst).
  destruct (convert_or_copy_cases t1) as (t2 & [(e & Hc)|[Hc|(target & Hc & Hfacts)]]).
  { rewrite (and_then_fail _ _ _ _ _ Hc). done. }
  { rewrite (and_then_ok _ _ _ _ _ Hc).
    destruct (find_executable_run t2) as (t3 & He). rewrite (and_then_ok _ _ _ _ _ He).
    done. }
  rewrite (and_then_ok _ _ _ _ _ Hc).
  destruct (find_executable_run t2) as (t3 & He). rewrite (and_then_ok _ _ _ _ _ He).
  cbn [read_local]. unfold and_then at 1, ok at 1, emit at 1.
  unfold and_then at 1, emit at 1.
  unfold and_then at 1, lift_raise at 1.
  destruct (mkdir_parent w (with_suffix w target ".rpt")); [done|].
  unfold ok at 1. unfold and_then at 1, emit at 1.
  unfold and_then at 1, lift_raise at 1.
  destruct (mkdir_parent w (with_suffix w target ".out")); [done|].
  unfold ok at 1.
  destruct (apply_dates_run target (((t3 ++ [Mkdir (with_suffix w target ".rpt")])
                                     ++ [Mkdir (with_suffix w target ".out")])))
    as (t4 & Hd).
  rewrite (and_then_ok _ _ _ _ _ Hd).
  destruct (Py.truthy (SWMM_EXE p)) eqn:Hgiven.
  - unfold and_then, emit, ok. intros [= <- <-].
    cbn [args inp_file report_file output_file]. rewrite last_snoc. eauto 10.
  - destruct (or_ _ _) as [exe|] eqn:Hfound; [|done].
    unfold and_then, emit, ok. intros [= <- <-].
    cbn [args inp_file report_file output_file]. rewrite last_snoc. eauto 10.
Qed.

End Prepare.






(** The theorem at the same run. *)
Lemma prepared_run_has_input_and_executable_witness :
  exists r,
    (SwmmRunInpOrGpkgPrepare.processAlgorithm_prepare world_without_swmm
       (parameters_of "model.inp" "C:\swmm\runswmm.exe" "") []).1 = inr r
    /\ SwmmRunInpOrGpkgPrepare.report_file r = "model.rpt"
    /\ SwmmRunInpOrGpkgPrepare.output_file r = "model.out".
Proof.
  eexists. split; [reflexivity|].
  destruct (prepared_run_has_input_and_executable world_without_swmm
              (parameters_of "model.inp" "C:\swmm\runswmm.exe" "") [] _ eq_refl)
    as (_ & _ & Hrpt & Hout & _).
  split; [exact Hrpt|exact Hout].
Defined.
